(** * AI mastering service: the DSP core, embedded and verified

    A shallow embedding of [backend/app/services/mastering_engine.py] and
    [backend/app/services/audio_analyzer.py], and of the shaping of the
    mastered buffer in [backend/app/tasks.py].

    Conventions of the embedding.
    - Samples and parameters are real numbers ([R]): the binary64 values of
      the source without rounding.  NumPy's non-finite results (a NumPy
      scalar divided by zero, [log10] of zero) have no counterpart in [R];
      the one place where the analyzer produces a NaN from well-formed input
      (the mean of an empty slice) is modelled with [option R].
    - A Python exception is the [Raise] outcome of the monad [py]; a
      [try]/[except Exception] block that returns a fallback is [try_return].
    - Settings arrive as JSON-like dictionaries: [gmap string pyval].
    - SciPy and librosa routines are parameters of the sections that call
      them; they may raise. *)

From Stdlib Require Import Reals Lra Lia ZArith QArith Qround Qabs List String Ascii.
From stdpp Require Import gmap strings list fin_maps pretty.

#[local] Set Warnings "-register-all".
#[local] Open Scope R_scope.

(** ** Python outcomes *)

Inductive exn : Set :=
| TypeError
| AttributeError
| ValueError
| IndexError
| ZeroDivisionError.

Inductive py (A : Type) : Type :=
| Ret (a : A)
| Raise (e : exn).

Arguments Ret {A} a.
Arguments Raise {A} e.

#[export] Instance py_ret : MRet py := fun _ a => Ret a.

#[export] Instance py_bind : MBind py := fun _ _ k c =>
  match c with
  | Ret a => k a
  | Raise e => Raise e
  end.

#[export] Instance py_fmap : FMap py := fun _ _ f c =>
  match c with
  | Ret a => Ret (f a)
  | Raise e => Raise e
  end.

(** [try: return body / except Exception: return fallback]. *)
Definition try_return {A} (body : py A) (fallback : A) : A :=
  match body with
  | Ret a => a
  | Raise _ => fallback
  end.

(** [for x in xs: acc = step(acc, x)], stopping at the first exception. *)
Fixpoint for_each {A B} (step : B -> A -> py B) (acc : B) (xs : list A) : py B :=
  match xs with
  | [] => Ret acc
  | x :: xs' => acc' ← step acc x; for_each step acc' xs'
  end.

(** ** Decidable comparisons on the reals *)

#[export] Instance Rlt_decision : RelDecision Rlt := Rlt_dec.
#[export] Instance Rle_decision : RelDecision Rle := Rle_dec.
#[export] Instance Rgt_decision : RelDecision Rgt := Rgt_dec.
#[export] Instance Req_decision : EqDecision R := Req_dec_T.

(** ** Dynamically typed values *)

Inductive pyval :=
| VNone
| VNum (r : R)
| VStr (s : string)
| VList (l : list pyval)
| VDict (d : gmap string pyval).

(** Python truthiness, as tested by [if settings.get(...)] and [if target_dr]. *)
Definition truthy (v : pyval) : bool :=
  match v with
  | VNone => false
  | VNum r => bool_decide (r <> 0)
  | VStr s => bool_decide (s <> EmptyString)
  | VList l => bool_decide (l <> [])
  | VDict d => bool_decide (d <> ∅)
  end.

(** [v.get(k, dflt)]: only dictionaries have [get]. *)
Definition py_get (v : pyval) (k : string) (dflt : pyval) : py pyval :=
  match v with
  | VDict d => Ret (default dflt (d !! k))
  | _ => Raise AttributeError
  end.

(** A value used in arithmetic.  [None] and dictionaries raise [TypeError]
    under every arithmetic operator the engine applies; strings and lists do
    so as well except under [str * int] and array broadcasting, which the
    model does not cover: settings hold numbers in numeric positions. *)
Definition as_num (v : pyval) : py R :=
  match v with
  | VNum r => Ret r
  | _ => Raise TypeError
  end.

(** [v == s] for a string literal [s]. *)
Definition py_eq_str (v : pyval) (s : string) : bool :=
  match v with
  | VStr t => bool_decide (t = s)
  | _ => false
  end.

(** [for x in v]: lists yield their items, strings their characters,
    dictionaries their keys; numbers and [None] are not iterable. *)
Definition py_iter (v : pyval) : py (list pyval) :=
  match v with
  | VList l => Ret l
  | VStr s => Ret ((fun c => VStr (String c EmptyString)) <$> list_ascii_of_string s)
  | VDict d => Ret (VStr <$> (map_to_list d).*1)
  | _ => Raise TypeError
  end.

(** Python float division [a / b]. *)
Definition py_div (a b : R) : py R :=
  if decide (b = 0) then Raise ZeroDivisionError else Ret (a / b).

(** [int(x)]: truncation toward zero. *)
Definition py_int (x : R) : Z :=
  if decide (0 <= x) then Int_part x else (- Int_part (- x))%Z.

(** ** NumPy arrays and element-wise operations *)

(** A buffer is 1-D (mono) or 2-D (channels by samples). *)
Inductive ndarray :=
| Arr1 (xs : list R)
| Arr2 (rows : list (list R)).

Definition amap (f : R -> R) (a : ndarray) : ndarray :=
  match a with
  | Arr1 xs => Arr1 (f <$> xs)
  | Arr2 rows => Arr2 ((fun row : list R => f <$> row) <$> rows)
  end.

(** Element-wise combination of two arrays of the same shape. *)
Definition vzip (f : R -> R -> R) (xs ys : list R) : list R :=
  zip_with f xs ys.

Definition azip (f : R -> R -> R) (a b : ndarray) : ndarray :=
  match a, b with
  | Arr1 xs, Arr1 ys => Arr1 (vzip f xs ys)
  | Arr2 xs, Arr2 ys => Arr2 (zip_with (vzip f) xs ys)
  | _, _ => a
  end.

Definition np_sign (x : R) : R :=
  if decide (0 < x) then 1 else if decide (x < 0) then -1 else 0.

Definition log10 (x : R) : R := ln x / ln 10.

(** [10 ** x]. *)
Definition pow10 (x : R) : R := Rpower 10 x.

Definition Rsum (xs : list R) : R := foldr Rplus 0 xs.

(** [np.mean] of a non-empty vector. *)
Definition np_mean (xs : list R) : R := Rsum xs / INR (length xs).

(** [np.max]: raises [ValueError] on an empty array. *)
Definition np_max (xs : list R) : py R :=
  match xs with
  | [] => Raise ValueError
  | x :: xs' => Ret (foldl Rmax x xs')
  end.

(** Python's built-in [max] over a list: the first maximal item. *)
Definition py_max (xs : list R) : py R :=
  match xs with
  | [] => Raise ValueError
  | x :: xs' => Ret (foldl (fun best v => if decide (v > best) then v else best) x xs')
  end.

(** [row[...] = v] for a row of [n] samples: [v] must have [n] items, or
    one item that is broadcast. *)
Definition assign_row (n : nat) (v : list R) : py (list R) :=
  if decide (length v = n) then Ret v
  else match v with
       | [x] => Ret (replicate n x)
       | _ => Raise ValueError
       end.

(** All samples of a buffer, channel after channel. *)
Definition samples (a : ndarray) : list R :=
  match a with
  | Arr1 xs => xs
  | Arr2 rows => concat rows
  end.


(** A buffer processed channel by channel. *)
Definition map_channels (g : list R -> list R) (a : ndarray) : ndarray :=
  match a with
  | Arr1 xs => Arr1 (g xs)
  | Arr2 rows => Arr2 (g <$> rows)
  end.

(** The layout of a buffer: the length of a 1-D buffer, or the length of
    each channel of a 2-D one. *)
Definition layout (a : ndarray) : nat + list nat :=
  match a with
  | Arr1 xs => inl (length xs)
  | Arr2 rows => inr (length <$> rows)
  end.

(** [a.shape[0]] of a 2-D buffer; [None] for a 1-D buffer. *)
Definition channel_count (a : ndarray) : option nat :=
  match a with
  | Arr1 _ => None
  | Arr2 rows => Some (length rows)
  end.

(** ** The mastering engine *)

Module MasteringEngine.

Record t := { sample_rate : Z }.

Section Engine.

(** [scipy.signal.butter(order, Wn, btype)] and
    [scipy.signal.filtfilt(b, a, x)]. *)
Variable butter : nat -> R -> string -> py (list R * list R).
Variable filtfilt : list R -> list R -> list R -> py (list R).

Variable self : t.

(** *** EQ *)

Definition peak_coeffs (w A alpha : R) : list R * list R :=
  let b0 := 1 + alpha * A in
  let b1 := -2 * cos w in
  let b2 := 1 - alpha * A in
  let a0 := 1 + alpha / A in
  let a1 := -2 * cos w in
  let a2 := 1 - alpha / A in
  ([b0 / a0; b1 / a0; b2 / a0], [1; a1 / a0; a2 / a0]).

Definition low_shelf_coeffs (w A alpha : R) : list R * list R :=
  let b0 := A * ((A + 1) - (A - 1) * cos w + 2 * sqrt A * alpha) in
  let b1 := 2 * A * ((A - 1) - (A + 1) * cos w) in
  let b2 := A * ((A + 1) - (A - 1) * cos w - 2 * sqrt A * alpha) in
  let a0 := (A + 1) + (A - 1) * cos w + 2 * sqrt A * alpha in
  let a1 := -2 * ((A - 1) + (A + 1) * cos w) in
  let a2 := (A + 1) + (A - 1) * cos w - 2 * sqrt A * alpha in
  ([b0 / a0; b1 / a0; b2 / a0], [1; a1 / a0; a2 / a0]).

Definition high_shelf_coeffs (w A alpha : R) : list R * list R :=
  let b0 := A * ((A + 1) + (A - 1) * cos w + 2 * sqrt A * alpha) in
  let b1 := -2 * A * ((A - 1) + (A + 1) * cos w) in
  let b2 := A * ((A + 1) + (A - 1) * cos w - 2 * sqrt A * alpha) in
  let a0 := (A + 1) - (A - 1) * cos w + 2 * sqrt A * alpha in
  let a1 := 2 * ((A - 1) - (A + 1) * cos w) in
  let a2 := (A + 1) - (A - 1) * cos w - 2 * sqrt A * alpha in
  ([b0 / a0; b1 / a0; b2 / a0], [1; a1 / a0; a2 / a0]).

(** The shelf's [alpha] with slope [S = 1]. *)
Definition shelf_alpha (w A : R) : R :=
  let S := 1 in
  sin w / 2 * sqrt ((A + 1 / A) * (1 / S - 1) + 2).

(** The filter design of [_apply_eq_band]; [None] is the final [else]
    (unknown band type). *)
Definition eq_band_design (freq gain q eq_type : pyval)
  : py (option (list R * list R)) :=
  let nyquist := IZR (sample_rate self) / 2 in
  f ← as_num freq;
  normalized_freq ← py_div f nyquist;
  if py_eq_str eq_type "highpass" then
    Some <$> butter 2 normalized_freq "high"
  else if py_eq_str eq_type "lowpass" then
    Some <$> butter 2 normalized_freq "low"
  else if py_eq_str eq_type "peak" then
    let w := 2 * PI * f / IZR (sample_rate self) in
    g ← as_num gain;
    let A := pow10 (g / 40) in
    qv ← as_num q;
    let alpha := sin w / (2 * qv) in
    Ret (Some (peak_coeffs w A alpha))
  else if py_eq_str eq_type "low_shelf" then
    let w := 2 * PI * f / IZR (sample_rate self) in
    g ← as_num gain;
    let A := pow10 (g / 40) in
    Ret (Some (low_shelf_coeffs w A (shelf_alpha w A)))
  else if py_eq_str eq_type "high_shelf" then
    let w := 2 * PI * f / IZR (sample_rate self) in
    g ← as_num gain;
    let A := pow10 (g / 40) in
    Ret (Some (high_shelf_coeffs w A (shelf_alpha w A)))
  else Ret None.

Definition _apply_eq_band (audio : ndarray) (freq gain q eq_type : pyval)
  : py ndarray :=
  design ← eq_band_design freq gain q eq_type;
  match design with
  | None => Ret audio
  | Some (b, a) =>
      match audio with
      | Arr2 rows =>
          Arr2 <$> mapM (fun row : list R => r ← filtfilt b a row;
                                               assign_row (length row) r) rows
      | Arr1 xs => Arr1 <$> filtfilt b a xs
      end
  end.

Definition eq_band_step (processed : ndarray) (band : pyval) : py ndarray :=
  freq ← py_get band "frequency" (VNum 1000);
  gain ← py_get band "gain" (VNum 0);
  q ← py_get band "q" (VNum 1.0);
  eq_type ← py_get band "type" (VStr "peak");
  g ← as_num gain;
  if decide (Rabs g > 0.1) then _apply_eq_band processed freq gain q eq_type
  else Ret processed.

Definition apply_eq_body (audio : ndarray) (eq_settings : pyval) : py ndarray :=
  bands ← py_get eq_settings "bands" (VList []);
  items ← py_iter bands;
  for_each eq_band_step audio items.

Definition apply_eq (audio : ndarray) (eq_settings : pyval) : ndarray :=
  try_return (apply_eq_body audio eq_settings) audio.

(** *** Compression *)

(** One channel's peak-to-RMS ratio in dB.  On a silent channel NumPy takes
    [log10] of zero, which [R] does not represent. *)
Definition channel_dynamic_range (xs : list R) : py R :=
  peak ← np_max (Rabs <$> xs);
  let rms := sqrt (np_mean ((fun x => x ^ 2) <$> xs)) in
  Ret (20 * log10 (peak / (rms + 1e-10))).

Definition _calculate_dynamic_range (audio : ndarray) : R :=
  try_return
    (match audio with
     | Arr2 rows =>
         dr_values ← mapM channel_dynamic_range rows;
         py_max dr_values
     | Arr1 xs => channel_dynamic_range xs
     end)
    10.0.

Definition _optimize_compression_for_dr
    (current_dr : R) (target_dr threshold ratio : pyval) : pyval * pyval :=
  try_return
    (target ← as_num target_dr;
     let dr_difference := current_dr - target in
     if decide (dr_difference > 2.0) then
       th ← as_num threshold;
       let new_threshold := th - Rmin (dr_difference * 0.5) 6.0 in
       ra ← as_num ratio;
       let new_ratio := Rmin (ra * (1 + dr_difference * 0.1)) 10.0 in
       Ret (VNum new_threshold, VNum new_ratio)
     else if decide (dr_difference < -2.0) then
       th ← as_num threshold;
       let new_threshold := th + Rmin (Rabs dr_difference * 0.3) 4.0 in
       ra ← as_num ratio;
       let new_ratio := Rmax (ra * (1 - Rabs dr_difference * 0.05)) 1.5 in
       Ret (VNum new_threshold, VNum new_ratio)
     else Ret (threshold, ratio))
    (threshold, ratio).

(** [max(1, int(seconds * self.sample_rate))]. *)
Definition samples_of (seconds : R) : Z :=
  Z.max 1 (py_int (seconds * IZR (sample_rate self))).

(** The loop of [_apply_envelope] from index 1 on; [prev] is
    [envelope[i-1]]. *)
Fixpoint envelope_loop (attack_coeff release_coeff prev : R) (signal_db : list R)
  : list R :=
  match signal_db with
  | [] => []
  | x :: rest =>
      let e := if decide (x > prev)
               then prev + (x - prev) * attack_coeff
               else prev + (x - prev) * release_coeff in
      e :: envelope_loop attack_coeff release_coeff e rest
  end.

Definition _apply_envelope (signal_db : list R) (attack release : pyval)
  : py (list R) :=
  att ← as_num attack;
  let attack_samples := samples_of att in
  rel ← as_num release;
  let release_samples := samples_of rel in
  let attack_coeff := 1.0 - exp (-1.0 / IZR attack_samples) in
  let release_coeff := 1.0 - exp (-1.0 / IZR release_samples) in
  Ret (match signal_db with
       | [] => []
       | _ :: rest => 0 :: envelope_loop attack_coeff release_coeff 0 rest
       end).

(** [1/ratio] is Python's division, which raises on a zero ratio taken from
    the settings.  (A zero ratio that went through dynamic-range targeting
    is a NumPy scalar with an infinite reciprocal, which [R] does not
    represent.) *)
Definition _apply_compression_channel
    (audio : list R) (threshold ratio attack release makeup_gain : pyval)
  : py (list R) :=
  let audio_db := (fun x => 20 * log10 (Rabs x + 1e-10)) <$> audio in
  th ← as_num threshold;
  ra ← as_num ratio;
  inv_ratio ← py_div 1 ra;
  let gain_reduction :=
    (fun db => if decide (db > th) then (db - th) * (1 - inv_ratio) else 0)
      <$> audio_db in
  gain_reduction ← _apply_envelope gain_reduction attack release;
  let compressed_db := vzip Rminus audio_db gain_reduction in
  let compressed_linear :=
    vzip (fun x db => np_sign x * pow10 (db / 20)) audio compressed_db in
  match makeup_gain with
  | VNum mg =>
      if decide (mg = 0) then Ret compressed_linear
      else Ret ((fun y => y * pow10 (mg / 20)) <$> compressed_linear)
  | _ => Raise TypeError
  end.

Definition apply_compression_body (audio : ndarray) (comp_settings : pyval)
  : py ndarray :=
  threshold ← py_get comp_settings "threshold" (VNum (-12));
  ratio ← py_get comp_settings "ratio" (VNum 4.0);
  attack ← py_get comp_settings "attack" (VNum 0.003);
  release ← py_get comp_settings "release" (VNum 0.1);
  makeup_gain ← py_get comp_settings "makeup_gain" (VNum 0);
  target_dr ← py_get comp_settings "target_dynamic_range" VNone;
  let '(threshold, ratio) :=
    if truthy target_dr then
      let current_dr := _calculate_dynamic_range audio in
      _optimize_compression_for_dr current_dr target_dr threshold ratio
    else (threshold, ratio) in
  match audio with
  | Arr2 rows =>
      Arr2 <$> mapM (fun row : list R =>
                       _apply_compression_channel
                         row threshold ratio attack release makeup_gain) rows
  | Arr1 xs =>
      Arr1 <$> _apply_compression_channel
                 xs threshold ratio attack release makeup_gain
  end.

Definition apply_compression (audio : ndarray) (comp_settings : pyval) : ndarray :=
  try_return (apply_compression_body audio comp_settings) audio.

(** *** Saturation *)

Definition tube (drive x : R) : R := tanh (x * drive * 0.7) * 0.95.
Definition tape (drive x : R) : R := x * drive / (1 + Rabs (x * drive)).
Definition soft_clip (drive x : R) : R :=
  np_sign (x * drive) * (1 - exp (- Rabs (x * drive))).

Definition _tube_saturation (audio : ndarray) (drive : pyval) : py ndarray :=
  d ← as_num drive; Ret (amap (tube d) audio).

Definition _tape_saturation (audio : ndarray) (drive : pyval) : py ndarray :=
  d ← as_num drive; Ret (amap (tape d) audio).

Definition _soft_clipper (audio : ndarray) (drive : pyval) : py ndarray :=
  d ← as_num drive; Ret (amap (soft_clip d) audio).

Definition apply_saturation_body (audio : ndarray) (sat_settings : pyval)
  : py ndarray :=
  drive ← py_get sat_settings "drive" (VNum 1.0);
  saturation_type ← py_get sat_settings "type" (VStr "tube");
  mix ← py_get sat_settings "mix" (VNum 1.0);
  saturated ←
    (if py_eq_str saturation_type "tube" then _tube_saturation audio drive
     else if py_eq_str saturation_type "tape" then _tape_saturation audio drive
     else _soft_clipper audio drive);
  m ← as_num mix;
  Ret (azip Rplus (amap (fun x => x * (1 - m)) audio)
                  (amap (fun w => w * m) saturated)).

Definition apply_saturation (audio : ndarray) (sat_settings : pyval) : ndarray :=
  try_return (apply_saturation_body audio sat_settings) audio.

(** *** Stereo *)

(** The stereo buffer the stage starts from: mono and single-channel input
    is duplicated. *)
Definition to_stereo (audio : ndarray) : ndarray :=
  match audio with
  | Arr1 xs => Arr2 [xs; xs]
  | Arr2 [row] => Arr2 [row; row]
  | Arr2 rows => Arr2 rows
  end.

(** Mid/side width adjustment of the first two channels. *)
Definition mid_side (width : R) (left_ch right_ch : list R) : list R * list R :=
  let mid := vzip (fun l r => (l + r) / 2) left_ch right_ch in
  let side := vzip (fun l r => (l - r) / 2) left_ch right_ch in
  let side := (fun s => s * width) <$> side in
  (vzip Rplus mid side, vzip Rminus mid side).

(** [width != 1.0]. *)
Definition differs_from_one (width : pyval) : bool :=
  match width with
  | VNum w => bool_decide (w <> 1.0)
  | _ => true
  end.

Definition apply_stereo_processing_body (audio : ndarray) (stereo_settings : pyval)
  : py ndarray :=
  let stereo_audio := to_stereo audio in
  width ← py_get stereo_settings "width" (VNum 1.0);
  stereo_audio ←
    match stereo_audio with
    | Arr2 (left_ch :: right_ch :: others) =>
        if differs_from_one width then
          w ← as_num width;
          let '(l, r) := mid_side w left_ch right_ch in
          Ret (Arr2 (l :: r :: others))
        else Ret stereo_audio
    | _ => Ret stereo_audio
    end;
  Ret (match stereo_audio with
       | Arr1 xs => Arr2 [xs; xs]
       | Arr2 [row] => Arr2 [row; row]
       | _ => stereo_audio
       end).

Definition apply_stereo_processing (audio : ndarray) (stereo_settings : pyval)
  : ndarray :=
  try_return (apply_stereo_processing_body audio stereo_settings)
    (match audio with
     | Arr1 xs => Arr2 [xs; xs]
     | _ => audio
     end).

(** *** Limiting *)

(** The gain each sample needs on its own: 1 below the ceiling,
    [min(1, ceiling / |x|)] at a peak. *)
Definition required_gain (ceiling_linear x : R) : R :=
  if decide (Rabs x > ceiling_linear)
  then Rmin 1 (ceiling_linear / Rabs x)
  else 1.

(** The forward pass from index 1 on; [prev] is the already smoothed
    [gain_reduction[i-1]]. *)
Fixpoint release_pass (release_coeff prev : R) (gains : list R) : list R :=
  match gains with
  | [] => []
  | g :: rest =>
      let g' := if decide (g < prev) then g
                else prev * release_coeff + g * (1 - release_coeff) in
      g' :: release_pass release_coeff g' rest
  end.

Definition smooth_release (release_coeff : R) (gains : list R) : list R :=
  match gains with
  | [] => []
  | g0 :: rest => g0 :: release_pass release_coeff g0 rest
  end.

Definition _apply_limiting_channel
    (audio : list R) (ceiling_linear : R) (release : pyval) : py (list R) :=
  let limited := audio in
  let gain_reduction := required_gain ceiling_linear <$> limited in
  rel ← as_num release;
  let release_samples := samples_of rel in
  let release_coeff := 1.0 - 1.0 / IZR release_samples in
  let gain_reduction := smooth_release release_coeff gain_reduction in
  Ret (vzip Rmult limited gain_reduction).

Definition apply_limiting_body (audio : ndarray) (limit_settings : pyval)
  : py ndarray :=
  ceiling ← py_get limit_settings "ceiling" (VNum (-0.1));
  release ← py_get limit_settings "release" (VNum 0.05);
  c ← as_num ceiling;
  let ceiling_linear := pow10 (c / 20) in
  match audio with
  | Arr2 rows =>
      Arr2 <$> mapM (fun row : list R =>
                       _apply_limiting_channel row ceiling_linear release) rows
  | Arr1 xs => Arr1 <$> _apply_limiting_channel xs ceiling_linear release
  end.

Definition apply_limiting (audio : ndarray) (limit_settings : pyval) : ndarray :=
  try_return (apply_limiting_body audio limit_settings) audio.

(** *** The chain *)

(** [if settings.get(key): processed = stage(processed, settings[key])]. *)
Definition run_stage (settings : gmap string pyval) (key : string)
    (stage : ndarray -> pyval -> ndarray) (processed : ndarray) : ndarray :=
  match settings !! key with
  | Some v => if truthy v then stage processed v else processed
  | None => processed
  end.

Definition apply_mastering_chain (audio_data : ndarray)
    (settings : gmap string pyval) : ndarray :=
  let processed_audio := audio_data in
  let processed_audio :=
    run_stage settings "eq_settings" apply_eq processed_audio in
  let processed_audio :=
    run_stage settings "compression_settings" apply_compression processed_audio in
  let processed_audio :=
    run_stage settings "saturation_settings" apply_saturation processed_audio in
  let processed_audio :=
    run_stage settings "stereo_settings" apply_stereo_processing processed_audio in
  let processed_audio :=
    run_stage settings "limiting_settings" apply_limiting processed_audio in
  processed_audio.

End Engine.

(** *** Genre presets *)

Definition eq_band (frequency gain q : R) (type : string) : pyval :=
  VDict (<["frequency" := VNum frequency]>
        (<["gain" := VNum gain]>
        (<["q" := VNum q]>
        (<["type" := VStr type]> ∅)))).

Definition compression_preset (threshold ratio attack release makeup_gain : R)
  : pyval :=
  VDict (<["threshold" := VNum threshold]>
        (<["ratio" := VNum ratio]>
        (<["attack" := VNum attack]>
        (<["release" := VNum release]>
        (<["makeup_gain" := VNum makeup_gain]> ∅))))).

Definition saturation_preset (drive : R) (type : string) (mix : R) : pyval :=
  VDict (<["drive" := VNum drive]>
        (<["type" := VStr type]>
        (<["mix" := VNum mix]> ∅))).

Definition limiting_preset (ceiling release : R) : pyval :=
  VDict (<["ceiling" := VNum ceiling]> (<["release" := VNum release]> ∅)).

Definition rock_preset : gmap string pyval :=
  <["eq_settings" :=
      VDict (<["bands" := VList [eq_band 100 2 0.7 "peak";
                                 eq_band 3000 (-2) 1.0 "peak";
                                 eq_band 10000 3 0.7 "peak"]]> ∅)]>
  (<["compression_settings" := compression_preset (-8) 4.0 0.003 0.1 3]>
  (<["saturation_settings" := saturation_preset 1.5 "tube" 0.3]>
  (<["limiting_settings" := limiting_preset (-0.3) 0.05]> ∅))).

Definition electronic_preset : gmap string pyval :=
  <["eq_settings" :=
      VDict (<["bands" := VList [eq_band 60 4 0.7 "peak";
                                 eq_band 8000 2 0.7 "peak"]]> ∅)]>
  (<["compression_settings" := compression_preset (-6) 6.0 0.001 0.05 2]>
  (<["stereo_settings" := VDict (<["width" := VNum 1.3]> ∅)]>
  (<["limiting_settings" := limiting_preset (-0.1) 0.03]> ∅))).

Definition jazz_preset : gmap string pyval :=
  <["eq_settings" :=
      VDict (<["bands" := VList [eq_band 200 1 0.5 "peak";
                                 eq_band 5000 1.5 0.7 "peak"]]> ∅)]>
  (<["compression_settings" := compression_preset (-15) 2.5 0.01 0.2 1]>
  (<["saturation_settings" := saturation_preset 1.1 "tape" 0.2]>
  (<["limiting_settings" := limiting_preset (-1.0) 0.1]> ∅))).

Definition presets : gmap string (gmap string pyval) :=
  <["rock" := rock_preset]>
  (<["electronic" := electronic_preset]>
  (<["jazz" := jazz_preset]> ∅)).

(** [presets.get(genre, presets['rock'])]. *)
Definition get_genre_preset (genre : string) : gmap string pyval :=
  default rock_preset (presets !! genre).

End MasteringEngine.

(** ** The audio analyzer *)

Module AudioAnalyzer.

(** [self.sample_rate], fixed by [__init__]. *)
Definition sample_rate : Z := 44100.

(** *** NumPy helpers of the analyzer *)

(** [np.mean] where the slice may be empty: [None] is NaN. *)
Definition nan_mean (xs : list R) : option R :=
  match xs with
  | [] => None
  | _ => Some (np_mean xs)
  end.

(** [np.std] (population deviation), NaN on an empty slice. *)
Definition nan_std (xs : list R) : option R :=
  match xs with
  | [] => None
  | _ => let mu := np_mean xs in
         Some (sqrt (np_mean ((fun x => (x - mu) ^ 2) <$> xs)))
  end.

(** Comparisons with a possibly-NaN left operand: false on NaN. *)
Definition nan_lt (a : option R) (b : R) : bool :=
  match a with
  | Some x => bool_decide (x < b)
  | None => false
  end.

Definition nan_gt (a : option R) (b : R) : bool :=
  match a with
  | Some x => bool_decide (x > b)
  | None => false
  end.

(** The slice [l[:k]]. *)
Definition py_take {A} (k : Z) (l : list A) : list A :=
  if decide (0 <= k)%Z then take (Z.to_nat k) l
  else take (Z.to_nat (Z.of_nat (length l) + k)) l.

(** The slice [l[lo:hi]] for indices within the array. *)
Definition py_slice {A} (lo hi : nat) (l : list A) : list A :=
  take (hi - lo) (drop lo l).

Definition Qlt_bool (a b : Q) : bool := negb (Qle_bool b a).

(** [np.argmin]: the first index of the least entry. *)
Fixpoint argmin_from (best_idx : nat) (best : Q) (i : nat) (xs : list Q) : nat :=
  match xs with
  | [] => best_idx
  | x :: xs' =>
      if Qlt_bool x best then argmin_from i x (S i) xs'
      else argmin_from best_idx best (S i) xs'
  end.

Definition np_argmin (xs : list Q) : nat :=
  match xs with
  | [] => 0%nat
  | x :: xs' => argmin_from 0 x 1 xs'
  end.

(** [np.argmax] over possibly-NaN entries: the first NaN if there is one,
    else the first index of the greatest entry; [ValueError] when empty. *)
Fixpoint argmax_from (best_idx : nat) (best : R) (i : nat) (xs : list (option R))
  : nat :=
  match xs with
  | [] => best_idx
  | None :: _ => i
  | Some x :: xs' =>
      if decide (x > best) then argmax_from i x (S i) xs'
      else argmax_from best_idx best (S i) xs'
  end.

Definition np_argmax (xs : list (option R)) : py nat :=
  match xs with
  | [] => Raise ValueError
  | None :: _ => Ret 0%nat
  | Some x :: xs' => Ret (argmax_from 0 x 1 xs')
  end.

(** [f"{q:.0f}"] for a non-negative [q]: round half to even, no decimals. *)
Definition round_half_even (q : Q) : Z :=
  let f := Qfloor q in
  let r := (q - inject_Z f)%Q in
  match (r ?= 1 # 2)%Q with
  | Lt => f
  | Gt => (f + 1)%Z
  | Eq => if Z.even f then f else (f + 1)%Z
  end.

Definition format_0f (q : Q) : string := pretty (round_half_even q).

(** The modulus of a complex number, [np.abs]. *)
Definition complex : Type := R * R.
Definition np_abs (z : complex) : R := sqrt (z.1 ^ 2 + z.2 ^ 2).

(** [librosa.fft_frequencies(sr, n_fft)]: the bin centres
    [k * sr / n_fft] for [k = 0 .. n_fft / 2], as the library documents
    them. *)
Definition fft_frequencies (sr n_fft : Z) : list Q :=
  (fun k : nat => inject_Z (Z.of_nat k) * inject_Z sr / inject_Z n_fft)%Q
    <$> seq 0 (S (Z.to_nat (n_fft / 2))).

(** *** Frequency masking *)

Record band_info := {
  energy_db : option R;
  is_masked : bool;
  center_freq : Q
}.

Record masking_analysis := {
  critical_bands : gmap string band_info;
  recommendations : list string;
  total_masked_bands : nat
}.

Definition critical_band_table : list (Z * Z) :=
  [ (20, 100); (100, 200); (200, 300); (300, 400); (400, 510);
    (510, 630); (630, 770); (770, 920); (920, 1080); (1080, 1270);
    (1270, 1480); (1480, 1720); (1720, 2000); (2000, 2320);
    (2320, 2700); (2700, 3150); (3150, 3700); (3700, 4400);
    (4400, 5300); (5300, 6400); (6400, 7700); (7700, 9500);
    (9500, 12000); (12000, 15500); (15500, 20000) ]%Z.

(** The bin nearest to a frequency: [np.argmin(np.abs(freqs - f))]. *)
Definition nearest_bin (freqs : list Q) (f : Z) : nat :=
  np_argmin ((fun x => Qabs (x - inject_Z f)) <$> freqs).

Definition band_center (band : Z * Z) : Q :=
  ((inject_Z band.1 + inject_Z band.2) / 2)%Q.

Definition band_key (center : Q) : string :=
  "band_" +:+ format_0f center +:+ "hz".

(** One iteration of the loop up to the recommendation: the band's mean
    magnitude in dB and the masking verdict. *)
Definition analyze_band (magnitude : list (list R)) (freqs : list Q)
    (band : Z * Z) : band_info :=
  let low_idx := nearest_bin freqs band.1 in
  let high_idx := nearest_bin freqs band.2 in
  let band_energy := nan_mean (concat (py_slice low_idx high_idx magnitude)) in
  let band_energy_db := (fun e => 20 * log10 (e + 1e-10)) <$> band_energy in
  let masking_threshold := -60 in
  {| energy_db := band_energy_db;
     is_masked := nan_lt band_energy_db masking_threshold;
     center_freq := band_center band |}.

(** The recommendation the loop appends for a band, if any. *)
Definition band_recommendation (info : band_info) : option string :=
  let c := center_freq info in
  if is_masked info && Qlt_bool 100 c then
    if Qlt_bool c 500 then
      Some ("Boost " +:+ format_0f c +:+ "Hz (+2-4dB) - masked low frequencies")
    else if Qlt_bool c 2000 then
      Some ("Boost " +:+ format_0f c +:+ "Hz (+1-3dB) - masked midrange")
    else
      Some ("Boost " +:+ format_0f c +:+ "Hz (+2-5dB) - masked high frequencies")
  else None.

(** The loop body: the state is [(masking_analysis, recommendations)]. *)
Definition masking_step (magnitude : list (list R)) (freqs : list Q)
    (state : gmap string band_info * list string) (band : Z * Z)
  : gmap string band_info * list string :=
  let info := analyze_band magnitude freqs band in
  let recs := match band_recommendation info with
              | Some text => state.2 ++ [text]
              | None => state.2
              end in
  (<[band_key (center_freq info) := info]> state.1, recs).

Definition masking_loop (magnitude : list (list R)) (freqs : list Q)
  : gmap string band_info * list string :=
  foldl (masking_step magnitude freqs) (∅, []) critical_band_table.

(** [sum(1 for band in masking_analysis.values() if band['is_masked'])]. *)
Definition count_masked (bands : gmap string band_info) : nat :=
  length (filter (fun b => is_masked b = true) (map_to_list bands).*2).

(** [y[:sr*15] if len(y) > sr*15 else y]: at most 15 seconds. *)
Definition masking_window (y : list R) (sr : Z) : list R :=
  if decide (Z.of_nat (length y) > sr * 15)%Z then py_take (sr * 15) y else y.

Section Masking.

(** [librosa.stft(y, n_fft=1024, hop_length=512)]: one row per frequency
    bin, one column per frame. *)
Variable stft : list R -> py (list (list complex)).

Definition _analyze_frequency_masking (y : list R) (sr : Z) : masking_analysis :=
  try_return
    (let y_short := masking_window y sr in
     spectrum ← stft y_short;
     let magnitude := (fun row : list complex => np_abs <$> row) <$> spectrum in
     let freqs := fft_frequencies sr 1024 in
     let '(bands, recs) := masking_loop magnitude freqs in
     Ret {| critical_bands := bands;
            recommendations := recs;
            total_masked_bands := count_masked bands |})
    {| critical_bands := ∅; recommendations := []; total_masked_bands := 0 |}.

End Masking.

(** *** Genre prediction *)

(** The statistics the rules read; a mean or deviation over zero frames is
    NaN. *)
Record genre_features := {
  centroid_mean : option R;
  rolloff_mean : option R;
  zcr_mean : option R;
  tempo : R;
  mfcc_mean_0 : option R;
  mfcc_mean_1 : option R;
  mfcc_mean_2 : option R;
  mfcc_1_std : option R
}.

Record genre_prediction := {
  genre : string;
  confidence : R
}.

(** A genre's score: starting from [0.0], each rule that holds adds its
    weight, in the order of the source. *)
Definition score (rules : list (bool * R)) : R :=
  foldl (fun (s : R) (rule : bool * R) => if rule.1 then s + rule.2 else s)
        0.0 rules.

Definition between (lo x hi : R) : bool :=
  bool_decide (x > lo) && bool_decide (x < hi).

(** [genre_scores] after the rules ran, in the dictionary's insertion
    order. *)
Definition genre_scores (f : genre_features) : list (string * R) :=
  [ ("electronic",
     score [ (nan_gt (centroid_mean f) 1800, 0.4);
             (nan_gt (zcr_mean f) 0.05, 0.3);
             (between 110 (tempo f) 180, 0.3);
             (nan_gt (rolloff_mean f) 2500, 0.3);
             (nan_gt (mfcc_mean_2 f) 10, 0.4);
             (nan_gt (mfcc_1_std f) 20, 0.3) ]);
    ("rock",
     score [ (nan_gt (centroid_mean f) 1500 && nan_lt (centroid_mean f) 3000, 0.2);
             (between 100 (tempo f) 160, 0.2);
             (nan_gt (rolloff_mean f) 3000, 0.3);
             (nan_lt (mfcc_mean_2 f) 0, 0.3) ]);
    ("jazz",
     score [ (nan_lt (centroid_mean f) 1500, 0.2);
             (between 80 (tempo f) 120, 0.2);
             (nan_lt (zcr_mean f) 0.03, 0.3);
             (nan_lt (mfcc_1_std f) 15, 0.2);
             (nan_lt (rolloff_mean f) 2000, 0.3) ]);
    ("hip-hop",
     score [ (between 70 (tempo f) 100, 0.3);
             (nan_lt (centroid_mean f) 1800, 0.2);
             (nan_gt (mfcc_mean_0 f) 0, 0.3);
             (nan_lt (rolloff_mean f) 2500, 0.2) ]);
    ("pop",
     score [ (between 90 (tempo f) 130, 0.2);
             (nan_gt (centroid_mean f) 1000 && nan_lt (centroid_mean f) 2500, 0.3);
             (nan_gt (zcr_mean f) 0.03 && nan_lt (zcr_mean f) 0.08, 0.3);
             (nan_lt (Rabs <$> mfcc_mean_1 f) 0.5, 0.2) ]) ].

(** [max(genre_scores, key=genre_scores.get)] with its score: the first
    entry whose score no later entry exceeds. *)
Definition max_by_score (scores : list (string * R)) : string * R :=
  match scores with
  | [] => (EmptyString, 0)
  | first :: rest =>
      foldl (fun best item : string * R =>
               if decide (item.2 > best.2) then item else best)
            first rest
  end.

(** Lines 362-374: the prediction from the scores. *)
Definition predict_from_scores (scores : list (string * R)) : genre_prediction :=
  let '(predicted_genre, confidence) := max_by_score scores in
  let '(predicted_genre, confidence) :=
    if decide (confidence < 0.3) then ("pop"%string, 0.5)
    else (predicted_genre, confidence) in
  {| genre := predicted_genre; confidence := Rmin confidence 1.0 |}.

(** [a[i]] on a list: [IndexError] out of range. *)
Definition py_index {A} (l : list A) (i : nat) : py A :=
  match l !! i with
  | Some x => Ret x
  | None => Raise IndexError
  end.

Definition key_names : list string :=
  ["C"; "C#"; "D"; "D#"; "E"; "F"; "F#"; "G"; "G#"; "A"; "A#"; "B"].

Definition _estimate_key (chroma : list (list R)) : py string :=
  let chroma_mean := nan_mean <$> chroma in
  key_idx ← np_argmax chroma_mean;
  py_index key_names key_idx.

Section Analyzer.

(** librosa, each routine with the arguments the source fixes:
    [load(path, sr, mono=False, duration=30.0)], [to_mono],
    [get_duration], [beat.beat_track] with its defaults and with
    [hop_length=2048, start_bpm=80, std_bpm=20],
    [feature.chroma_stft(hop_length=2048)], [stft(n_fft=1024,
    hop_length=512)], [feature.mfcc(n_mfcc=13)], [feature.spectral_centroid],
    [feature.spectral_rolloff] and [feature.zero_crossing_rate]. *)
Variable load : string -> Z -> py ndarray.
Variable to_mono : list (list R) -> py (list R).
Variable get_duration : list R -> Z -> py R.
Variable beat_track : list R -> Z -> py R.
Variable beat_track_fast : list R -> Z -> py R.
Variable chroma_stft : list R -> Z -> py (list (list R)).
Variable stft : list R -> py (list (list complex)).
Variable mfcc : list R -> Z -> py (list (list R)).
Variable spectral_centroid : list R -> Z -> py (list (list R)).
Variable spectral_rolloff : list R -> Z -> py (list (list R)).
Variable zero_crossing_rate : list R -> py (list (list R)).

(** Lines 283-293 and the indexing of the rules: any failure here reaches
    the handler of [_predict_genre]. *)
Definition extract_genre_features (y : list R) (sr : Z) : py genre_features :=
  mfccs ← mfcc y sr;
  centroid ← spectral_centroid y sr;
  spectral_centroid_0 ← py_index centroid 0;
  rolloff ← spectral_rolloff y sr;
  spectral_rolloff_0 ← py_index rolloff 0;
  crossings ← zero_crossing_rate y;
  zcr ← py_index crossings 0;
  tempo ← beat_track y sr;
  let mfcc_mean := nan_mean <$> mfccs in
  m2 ← py_index mfcc_mean 2;
  mfccs_1 ← py_index mfccs 1;
  m0 ← py_index mfcc_mean 0;
  m1 ← py_index mfcc_mean 1;
  Ret {| centroid_mean := nan_mean spectral_centroid_0;
         rolloff_mean := nan_mean spectral_rolloff_0;
         zcr_mean := nan_mean zcr;
         tempo := tempo;
         mfcc_mean_0 := m0;
         mfcc_mean_1 := m1;
         mfcc_mean_2 := m2;
         mfcc_1_std := nan_std mfccs_1 |}.

Definition _predict_genre (y : list R) (sr : Z) : genre_prediction :=
  try_return
    (features ← extract_genre_features y sr;
     Ret (predict_from_scores (genre_scores features)))
    {| genre := "electronic"; confidence := 0.5 |}.

(** *** The track analysis *)

(** The sub-analyses no property below constrains are parameters: loudness,
    spectral features and the frequency spectrum may raise, stereo imaging
    has its own handler. *)
Context {Loudness Spectral Spectrum Stereo : Type}.
Variable _calculate_loudness : list R -> Z -> py Loudness.
Variable _extract_spectral_features : list R -> Z -> py Spectral.
Variable _analyze_frequency_spectrum : list R -> Z -> py Spectrum.
Variable _analyze_stereo_imaging : ndarray -> Z -> Stereo.

(** The values the result dictionary holds. *)
Inductive field_value :=
| FFloat (r : R)
| FInt (z : Z)
| FStr (s : string)
| FLoudness (l : Loudness)
| FSpectral (f : Spectral)
| FSpectrum (f : Spectrum)
| FMasking (m : masking_analysis)
| FStereo (st : Stereo).

(** Lines 64-76: beat tracking on the first 10 s, 120.0 on any failure. *)
Definition track_tempo (y_mono : list R) (sr : Z) : R :=
  try_return (beat_track_fast (py_take (sr * 10) y_mono) sr) 120.0.

(** Lines 81-91: key detection on the first 5 s, ["C"] on any failure. *)
Definition track_key (y_mono : list R) (sr : Z) : string :=
  try_return
    (chroma ← chroma_stft (py_take (sr * 5) y_mono) sr;
     _estimate_key chroma)
    "C".

(** [analyze_track] without a progress callback. *)
Definition analyze_track (file_path : string) : py (gmap string field_value) :=
  y ← load file_path sample_rate;
  let sr := sample_rate in
  y_mono ← match y with
           | Arr2 rows => to_mono rows
           | Arr1 xs => Ret xs
           end;
  duration ← get_duration y_mono sr;
  let tempo := track_tempo y_mono sr in
  let key := track_key y_mono sr in
  loudness ← _calculate_loudness y_mono sr;
  spectral_features ← _extract_spectral_features y_mono sr;
  frequency_analysis ← _analyze_frequency_spectrum y_mono sr;
  let masking_analysis := _analyze_frequency_masking stft y_mono sr in
  let stereo_analysis := _analyze_stereo_imaging y sr in
  let genre_prediction := _predict_genre y_mono sr in
  Ret (<["duration" := FFloat duration]>
      (<["tempo" := FFloat tempo]>
      (<["key" := FStr key]>
      (<["loudness" := FLoudness loudness]>
      (<["predicted_genre" := FStr (genre genre_prediction)]>
      (<["genre_confidence" := FFloat (confidence genre_prediction)]>
      (<["spectral_features" := FSpectral spectral_features]>
      (<["frequency_analysis" := FSpectrum frequency_analysis]>
      (<["masking_analysis" := FMasking masking_analysis]>
      (<["stereo_analysis" := FStereo stereo_analysis]>
      (<["sample_rate" := FInt sr]>
      (<["channels" := FInt (match y with
                             | Arr1 _ => 1
                             | Arr2 rows => Z.of_nat (length rows)
                             end)]> ∅)))))))))))).

End Analyzer.

(** *** Loudness *)

Record loudness_metrics := {
  rms_db : R;
  peak_db : R;
  lufs_approx : R;
  lufs_integrated : option R;
  dynamic_range : R
}.

Section Loudness.

(** [scipy.signal.butter(order, Wn, btype)], [scipy.signal.filtfilt(b, a, x)]
    and [scipy.signal.iirfilter(order, Wn, btype, ftype)]. *)
Variable butter : nat -> R -> string -> py (list R * list R).
Variable filtfilt : list R -> list R -> list R -> py (list R).
Variable iirfilter : nat -> R -> string -> string -> py (list R * list R).

(** The K-weighted loudness; NaN when the filtered signal is empty.  Any
    failure of the filters falls back to the RMS approximation. *)
Definition _calculate_lufs (y : list R) (sr : Z) : option R :=
  try_return
    (let nyquist := IZR sr / 2 in
     high_pass_freq ← py_div 38.0 nyquist;
     hp ← butter 2 high_pass_freq "high";
     y_filtered ← filtfilt hp.1 hp.2 y;
     shelf_freq ← py_div 1500.0 nyquist;
     _ ← iirfilter 2 shelf_freq "high" "butter";
     let y_weighted := (fun v => v * 1.585) <$> y_filtered in
     let mean_square := nan_mean ((fun v => v ^ 2) <$> y_weighted) in
     Ret ((fun ms => -0.691 + 10 * log10 (ms + 1e-10)) <$> mean_square))
    ((fun ms => 20 * log10 (sqrt ms + 1e-10) + 3.0)
       <$> nan_mean ((fun v => v ^ 2) <$> y)).

(** [np.max] rejects an empty signal, so the mean of the line before it is
    over a non-empty signal whenever a result is returned. *)
Definition _calculate_loudness (y : list R) (sr : Z) : py loudness_metrics :=
  let rms := sqrt (np_mean ((fun v => v ^ 2) <$> y)) in
  let rms_db := 20 * log10 (rms + 1e-10) in
  peak ← np_max (Rabs <$> y);
  let peak_db := 20 * log10 (peak + 1e-10) in
  let lufs_integrated := _calculate_lufs y sr in
  let lufs_approx := rms_db + 3.0 in
  let dynamic_range := peak_db - rms_db in
  Ret {| rms_db := rms_db;
         peak_db := peak_db;
         lufs_approx := lufs_approx;
         lufs_integrated := lufs_integrated;
         dynamic_range := dynamic_range |}.

End Loudness.

(** *** Frequency spectrum *)

(** The keys of the [bands] dictionary, in insertion order. *)
Inductive band := SubBass | Bass | LowMid | Mid | HighMid | Presence | Brilliance.

Definition band_order : list band :=
  [SubBass; Bass; LowMid; Mid; HighMid; Presence; Brilliance].

Definition band_range (b : band) : Z * Z :=
  match b with
  | SubBass => (20, 60)
  | Bass => (60, 250)
  | LowMid => (250, 500)
  | Mid => (500, 2000)
  | HighMid => (2000, 4000)
  | Presence => (4000, 6000)
  | Brilliance => (6000, 20000)
  end%Z.

(** Possibly-NaN arithmetic on Python floats. *)
Definition nan_add (a b : option R) : option R :=
  match a, b with
  | Some x, Some y => Some (x + y)
  | _, _ => None
  end.

Definition nan_div (a b : option R) : option R :=
  match a, b with
  | Some x, Some y => Some (x / y)
  | _, _ => None
  end.

(** ['boost'] below [lo], ['cut'] above [hi], ['neutral'] otherwise (and on
    NaN). *)
Definition verdict (ratio : option R) (lo hi : R) : string :=
  if nan_lt ratio lo then "boost"
  else if nan_gt ratio hi then "cut"
  else "neutral".

Record spectral_balance := {
  bass_suggestion : string;
  mid_suggestion : string;
  brilliance_suggestion : string
}.

(** [band_energy] is the dictionary the caller builds: one float per band.
    Dividing by a total of zero is Python's float division and raises. *)
Definition _calculate_spectral_balance (band_energy : band -> option R)
  : py spectral_balance :=
  let total_energy := foldl nan_add (Some 0) (band_energy <$> band_order) in
  match total_energy with
  | Some total =>
      if decide (total = 0) then Raise ZeroDivisionError
      else
        let band_ratios b := nan_div (band_energy b) total_energy in
        Ret {| bass_suggestion := verdict (band_ratios Bass) 0.15 0.25;
               mid_suggestion := verdict (band_ratios Mid) 0.20 0.35;
               brilliance_suggestion := verdict (band_ratios Brilliance) 0.10 0.20 |}
  | None =>
      Ret {| bass_suggestion := "neutral";
             mid_suggestion := "neutral";
             brilliance_suggestion := "neutral" |}
  end.

Record frequency_analysis := {
  frequency_bands : band -> option R;
  dominant_frequency : Q;
  balance : spectral_balance
}.

(** [np.fft.fftfreq(n, 1/sr)[:n//2]]: the bins [k * sr / n], [k < n/2]. *)
Definition positive_frequencies (n : nat) (sr : Z) : list Q :=
  (fun k : nat => inject_Z (Z.of_nat k) * inject_Z sr / inject_Z (Z.of_nat n))%Q
    <$> seq 0 (n / 2).

Definition in_band (b : band) (f : Q) : bool :=
  Qle_bool (inject_Z (band_range b).1) f && Qle_bool f (inject_Z (band_range b).2).

(** [positive_magnitude[band_mask]]. *)
Fixpoint select (mask : Q -> bool) (freqs : list Q) (magnitude : list R) : list R :=
  match freqs, magnitude with
  | f :: freqs', m :: magnitude' =>
      if mask f then m :: select mask freqs' magnitude'
      else select mask freqs' magnitude'
  | _, _ => []
  end.

Section Spectrum.

(** [np.abs(np.fft.fft(y))]: one magnitude per input sample; the FFT
    rejects an empty input. *)
Variable fft_magnitude : list R -> py (list R).

Definition _analyze_frequency_spectrum (y : list R) (sr : Z) : py frequency_analysis :=
  let window_size := Z.min (Z.of_nat (length y)) (sr * 10) in
  let y_windowed := py_take window_size y in
  magnitude ← fft_magnitude y_windowed;
  let n := length magnitude in
  _ ← py_div 1 (IZR sr);
  _ ← py_div 1.0 (INR n * (1 / IZR sr));
  let positive_freqs := positive_frequencies n sr in
  let positive_magnitude := take (n / 2) magnitude in
  let band_energy b :=
    nan_mean (select (in_band b) positive_freqs positive_magnitude) in
  idx ← np_argmax (Some <$> positive_magnitude);
  dominant ← py_index positive_freqs idx;
  spectral ← _calculate_spectral_balance band_energy;
  Ret {| frequency_bands := band_energy;
         dominant_frequency := dominant;
         balance := spectral |}.

End Spectrum.

End AudioAnalyzer.

(** ** The mastering task *)

Module Tasks.

(** [np.column_stack([mono, mono])]. *)
Definition column_stack2 (mono : list R) : list (list R) :=
  (fun x => [x; x]) <$> mono.

(** [a.T] of a two-row array. *)
Definition transpose2 (left_ch right_ch : list R) : list (list R) :=
  zip_with (fun l r => [l; r]) left_ch right_ch.

(** [a[:, 0]]: [IndexError] when the array has no column. *)
Definition first_column (rows : list (list R)) : py (list R) :=
  mapM (fun row : list R => match row with
                            | x :: _ => Ret x
                            | [] => Raise IndexError
                            end) rows.

(** [a.shape[1]] of a rectangular array; an array without rows is taken to
    have no columns. *)
Definition columns (rows : list (list R)) : nat :=
  match rows with
  | row :: _ => length row
  | [] => 0
  end.

(** Lines 168-189 of [process_mastering]: the buffer handed to
    [soundfile.write], as (samples, channels). *)
Definition stereo_for_saving (processed_audio : ndarray) : py (list (list R)) :=
  shaped ←
    match processed_audio with
    | Arr2 rows =>
        match rows with
        | [left_ch; right_ch] => Ret (transpose2 left_ch right_ch)
        | _ =>
            if decide (columns rows = 2%nat) then Ret rows
            else match rows with
                 | [mono_channel] => Ret (column_stack2 mono_channel)
                 | _ => mono_channel ← first_column rows;
                        Ret (column_stack2 mono_channel)
                 end
        end
    | Arr1 xs => Ret (column_stack2 xs)
    end;
  if decide (columns shaped = 1%nat) then
    mono_channel ← first_column shaped;
    Ret (column_stack2 mono_channel)
  else Ret shaped.

End Tasks.

(** * Specification-side definitions

    Definitions that follow the specification's words; the properties below
    compare them with the code. *)

Module Spec.

Inductive saturation_kind := Tube | Tape | SoftClip.

Definition kind_name (k : saturation_kind) : string :=
  match k with
  | Tube => "tube"
  | Tape => "tape"
  | SoftClip => "soft_clip"
  end.

(** The wet signal of each saturation kind for drive [d] and input [x]. *)
Definition wet (k : saturation_kind) (d x : R) : R :=
  match k with
  | Tube => tanh (0.7 * d * x) * 0.95
  | Tape => (d * x) / (1 + Rabs (d * x))
  | SoftClip => np_sign (d * x) * (1 - exp (- Rabs (d * x)))
  end.

(** Dynamic-range targeting as the specification words it: the same
    threshold step [min(|delta| * 0.5, 6)] in both directions and the ratio
    clamped to [1.5, 10]. *)
Definition clamp (lo hi x : R) : R := Rmax lo (Rmin hi x).

Definition dr_targeting (current_dr target_dr threshold ratio : R) : R * R :=
  let delta := current_dr - target_dr in
  if decide (delta > 2) then
    (threshold - Rmin (delta * 0.5) 6, clamp 1.5 10 (ratio * (1 + delta * 0.1)))
  else if decide (delta < -2) then
    (threshold + Rmin (Rabs delta * 0.5) 6,
     clamp 1.5 10 (ratio * (1 - Rabs delta * 0.05)))
  else (threshold, ratio).

(** The boost range and the region a recommendation names, by the band's
    center frequency. *)
Definition boost_range (center : Q) : string :=
  if AudioAnalyzer.Qlt_bool center 500 then "+2-4"
  else if AudioAnalyzer.Qlt_bool center 2000 then "+1-3"
  else "+2-5".

Definition region (center : Q) : string :=
  if AudioAnalyzer.Qlt_bool center 500 then "low frequencies"
  else if AudioAnalyzer.Qlt_bool center 2000 then "midrange"
  else "high frequencies".

(** The chain in the specification's order: EQ, saturation, compression,
    stereo, limiting. *)
Definition chain
    (butter : nat -> R -> string -> py (list R * list R))
    (filtfilt : list R -> list R -> list R -> py (list R))
    (self : MasteringEngine.t) (audio : ndarray)
    (eq sat comp st lim : pyval) : ndarray :=
  MasteringEngine.apply_limiting self
    (MasteringEngine.apply_stereo_processing
       (MasteringEngine.apply_compression self
          (MasteringEngine.apply_saturation
             (MasteringEngine.apply_eq butter filtfilt self audio eq) sat)
          comp)
       st)
    lim.

End Spec.

(** * Example inputs *)

Module Examples.

Definition engine : MasteringEngine.t := {| MasteringEngine.sample_rate := 44100 |}.

(** SciPy routines that reject every call; the examples below never reach
    them. *)
Definition butter_rejects : nat -> R -> string -> py (list R * list R) :=
  fun _ _ _ => Raise ValueError.

Definition filtfilt_rejects : list R -> list R -> list R -> py (list R) :=
  fun _ _ _ => Raise ValueError.

(** A filter that passes every signal through, and a design routine that
    returns its coefficients. *)
Definition filtfilt_identity : list R -> list R -> list R -> py (list R) :=
  fun _ _ x => Ret x.

Definition butter_unit : nat -> R -> string -> py (list R * list R) :=
  fun _ _ _ => Ret ([1], [1]).

(** A mono buffer holding one full-scale sample. *)
Definition unit_click : ndarray := Arr1 [1].

(** An EQ section whose only band has [gain = null]. *)
Definition eq_null_gain : pyval :=
  VDict (<["bands" := VList [VDict (<["gain" := VNone]> ∅)]]> ∅).

(** A compression section with [ratio = 0]. *)
Definition comp_zero_ratio : pyval := VDict (<["ratio" := VNum 0]> ∅).

(** A saturation section with [drive = null]. *)
Definition sat_null_drive : pyval := VDict (<["drive" := VNone]> ∅).

(** Settings with all five sections: an EQ without bands, 20 dB of make-up
    gain, tape saturation, neutral width and a 0 dB ceiling. *)
Definition eq_section : pyval := VDict (<["bands" := VList []]> ∅).
Definition comp_section : pyval := VDict (<["makeup_gain" := VNum 20]> ∅).
Definition sat_section : pyval := VDict (<["type" := VStr "tape"]> ∅).
Definition stereo_section : pyval := VDict (<["width" := VNum 1]> ∅).
Definition limit_section : pyval := VDict (<["ceiling" := VNum 0]> ∅).

Definition five_sections : gmap string pyval :=
  <["eq_settings" := eq_section]>
    (<["compression_settings" := comp_section]>
       (<["saturation_settings" := sat_section]>
          (<["stereo_settings" := stereo_section]>
             (<["limiting_settings" := limit_section]> ∅)))).

(** Settings in which all five sections are present and empty. *)
Definition five_empty_sections : gmap string pyval :=
  <["eq_settings" := VDict ∅]>
    (<["compression_settings" := VDict ∅]>
       (<["saturation_settings" := VDict ∅]>
          (<["stereo_settings" := VDict ∅]>
             (<["limiting_settings" := VDict ∅]> ∅)))).

(** What [librosa.stft] returns on an all-zero buffer: a zero spectrum of
    513 bins and [1 + len(y) / 512] frames. *)
Definition stft_of_silence : list R -> py (list (list AudioAnalyzer.complex)) :=
  fun y => Ret (replicate 513 (replicate (S (length y / 512)) (0, 0))).

(** An STFT that rejects its input, as on a buffer it cannot frame. *)
Definition stft_rejects : list R -> py (list (list AudioAnalyzer.complex)) :=
  fun _ => Raise ValueError.

(** 2048 samples of silence. *)
Definition silence : list R := replicate 2048 0.

(** A stand-in for [np.abs(np.fft.fft(y))] that agrees with it on silence:
    one magnitude per sample, all zero for an all-zero signal. *)
Definition fft_magnitude_stub : list R -> py (list R) :=
  fun y => Ret (Rabs <$> y).

(** A shelf design that rejects every call. *)
Definition iirfilter_rejects : nat -> R -> string -> string -> py (list R * list R) :=
  fun _ _ _ _ => Raise ValueError.


(** A decoder that yields the silent mono buffer, feature extractors that
    reject every call, and sub-analyses without content. *)
Definition load_silence : string -> Z -> py ndarray := fun _ _ => Ret (Arr1 silence).
Definition to_mono_rejects : list (list R) -> py (list R) :=
  fun _ => Raise ValueError.
Definition duration_by_length : list R -> Z -> py R :=
  fun y sr => Ret (INR (length y) / IZR sr).
Definition tracker_rejects : list R -> Z -> py R := fun _ _ => Raise TypeError.
Definition tracker_says_120 : list R -> Z -> py R := fun _ _ => Ret 120.0.
Definition feature_rejects : list R -> Z -> py (list (list R)) :=
  fun _ _ => Raise ValueError.
Definition zcr_rejects : list R -> py (list (list R)) :=
  fun _ => Raise ValueError.
Definition chroma_says_c : list R -> Z -> py (list (list R)) :=
  fun _ _ => Ret ([1] :: replicate 11 [0]).


End Examples.

(** * Properties *)

Import MasteringEngine.

(** ** Arithmetic of the dB conversions *)

Lemma pow10_pos (x : R) : 0 < pow10 x.
Proof. unfold pow10, Rpower. apply exp_pos. Qed.

Lemma ln10_pos : 0 < ln 10.
Proof. rewrite <- ln_1. apply ln_increasing; lra. Qed.

Lemma pow10_log10 (x : R) : 0 < x -> pow10 (20 * log10 x / 20) = x.
Proof.
  intros Hx. unfold pow10, log10, Rpower.
  pose proof ln10_pos as H10.
  replace (20 * (ln x / ln 10) / 20 * ln 10) with (ln x) by (field; lra).
  now apply exp_ln.
Qed.

Lemma Rdiv_lt_one (a b : R) : 0 < b -> a < b -> a / b < 1.
Proof.
  intros Hb Hab. unfold Rdiv. apply (Rmult_lt_reg_r b); [exact Hb|].
  rewrite Rmult_assoc, Rinv_l by lra. lra.
Qed.

Lemma pow10_0 : pow10 0 = 1.
Proof. unfold pow10. apply Rpower_O. lra. Qed.

Lemma pow10_1 : pow10 1 = 10.
Proof. unfold pow10. apply Rpower_1. lra. Qed.

(** ** The limiter *)

Lemma samples_of_ge_1 (self : t) (seconds : R) : 1 <= IZR (samples_of self seconds).
Proof. unfold samples_of. apply IZR_le. lia. Qed.

Lemma release_coeff_range (n : Z) :
  1 <= IZR n -> 0 <= 1.0 - 1.0 / IZR n < 1.
Proof.
  intros Hn.
  assert (0 < / IZR n <= 1) as [H1 H2].
  { split; [apply Rinv_0_lt_compat; lra|].
    rewrite <- Rinv_1. apply Rinv_le_contravar; lra. }
  unfold Rdiv. lra.
Qed.

Lemma required_gain_pos (c x : R) : 0 < c -> 0 < required_gain c x.
Proof.
  intros Hc. unfold required_gain. case_decide; [|lra].
  apply Rmin_glb_lt; [lra|]. apply Rdiv_lt_0_compat; lra.
Qed.

Lemma required_gain_limits (c x g : R) :
  0 < c -> 0 < g <= required_gain c x -> Rabs (x * g) <= c.
Proof.
  intros Hc [Hg0 Hg]. rewrite Rabs_mult, (Rabs_pos_eq g) by lra.
  unfold required_gain in Hg. case_decide as Hpk.
  - assert (g <= c / Rabs x) as Hq by (etrans; [exact Hg|apply Rmin_r]).
    assert (0 < Rabs x) as Hx by lra.
    apply (Rmult_le_compat_l (Rabs x)) in Hq; [|lra].
    replace (Rabs x * (c / Rabs x)) with c in Hq by (field; lra). exact Hq.
  - pose proof (Rabs_pos x). nra.
Qed.

Lemma release_pass_limits (c rc : R) (xs : list R) :
  0 < c -> 0 <= rc < 1 ->
  forall prev, 0 < prev ->
  Forall (fun v => Rabs v <= c)
         (vzip Rmult xs (release_pass rc prev (required_gain c <$> xs))).
Proof.
  intros Hc Hrc. induction xs as [|x xs IH]; intros prev Hprev; cbn.
  - constructor.
  - pose proof (required_gain_pos c x Hc) as Hg.
    set (g := required_gain c x) in *.
    assert (0 < (if decide (g < prev) then g else prev * rc + g * (1 - rc)) <= g)
      as Hg'.
    { case_decide; [lra|]. split; nra. }
    constructor.
    + apply required_gain_limits; [exact Hc|exact Hg'].
    + apply IH. lra.
Qed.

Lemma smooth_release_limits (c rc : R) (xs : list R) :
  0 < c -> 0 <= rc < 1 ->
  Forall (fun v => Rabs v <= c)
         (vzip Rmult xs (smooth_release rc (required_gain c <$> xs))).
Proof.
  intros Hc Hrc. destruct xs as [|x xs]; cbn; constructor.
  - apply required_gain_limits; [exact Hc|].
    split; [now apply required_gain_pos|lra].
  - apply release_pass_limits; [exact Hc|exact Hrc|now apply required_gain_pos].
Qed.

Lemma release_pass_length (rc : R) (gains : list R) :
  forall prev, length (release_pass rc prev gains) = length gains.
Proof. induction gains as [|g gains IH]; intros prev; cbn; [|rewrite IH]; reflexivity. Qed.

Lemma smooth_release_length (rc : R) (gains : list R) :
  length (smooth_release rc gains) = length gains.
Proof. destruct gains; cbn; [|rewrite release_pass_length]; reflexivity. Qed.

(** C3: the brick-wall limiter honours its ceiling.  For every channel,
    every release time and every ceiling [c] in dB, [_apply_limiting_channel]
    returns a channel of the same length in which every sample has absolute
    value at most the linear ceiling [10^(c/20)]. *)
Theorem limiter_honours_ceiling (self : t) (audio : list R) (c release : R) :
  exists limited,
    _apply_limiting_channel self audio (pow10 (c / 20)) (VNum release) = Ret limited
    /\ length limited = length audio
    /\ Forall (fun y => Rabs y <= pow10 (c / 20)) limited.
Proof.
  eexists. split; [reflexivity|]. split.
  - unfold vzip. rewrite length_zip_with, smooth_release_length, length_fmap. lia.
  - apply smooth_release_limits; [apply pow10_pos|].
    apply release_coeff_range, samples_of_ge_1.
Qed.

(** ** Dynamic-range targeting *)

(** C4 (as stated) fails.  With a measured range 10 dB below the target the
    code raises the threshold by [min(10 * 0.3, 4) = 3] dB where the stated
    formula gives 5 dB; with a ratio of 1 and a range 3 dB above the target
    the code returns the ratio 1.3, below the stated lower clamp 1.5. *)
Lemma dr_targeting_is_asymmetric :
  _optimize_compression_for_dr 0 (VNum 10) (VNum (-12)) (VNum 4)
    = (VNum (-12 + 3), VNum 2)
  /\ Spec.dr_targeting 0 10 (-12) 4 = (-12 + 5, 2)
  /\ _optimize_compression_for_dr 13 (VNum 10) (VNum (-12)) (VNum 1)
    = (VNum (-12 - 1.5), VNum 1.3)
  /\ Spec.dr_targeting 13 10 (-12) 1 = (-12 - 1.5, 1.5)
  /\ -12 + 3 <> -12 + 5 /\ 1.3 <> 1.5.
Proof.
  unfold _optimize_compression_for_dr, Spec.dr_targeting, Spec.clamp.
  repeat split; try lra.
  - cbn. repeat (case_decide; try lra). cbn.
    rewrite (Rabs_left (0 - 10)) by lra.
    rewrite Rmin_left, Rmax_left by lra. do 2 f_equal; f_equal; lra.
  - repeat (case_decide; try lra).
    rewrite (Rabs_left (0 - 10)) by lra.
    rewrite Rmin_left by lra. rewrite (Rmin_right 10) by lra.
    rewrite Rmax_right by lra. f_equal; lra.
  - cbn. repeat (case_decide; try lra). cbn.
    rewrite Rmin_left, Rmin_left by lra. do 2 f_equal; f_equal; lra.
  - repeat (case_decide; try lra).
    rewrite Rmin_left by lra. rewrite (Rmin_right 10) by lra.
    rewrite Rmax_left by lra. f_equal; lra.
Qed.

(** C4 (amended): with [delta = current - target], the code lowers the
    threshold by [min(delta * 0.5, 6)] and sets the ratio to
    [min(ratio * (1 + delta * 0.1), 10)] when [delta > 2]; raises the
    threshold by [min(|delta| * 0.3, 4)] and sets the ratio to
    [max(ratio * (1 - |delta| * 0.05), 1.5)] when [delta < -2]; and returns
    both unchanged when [|delta| <= 2]. *)
Theorem dr_targeting_formula (current_dr target_dr threshold ratio : R) :
  let delta := current_dr - target_dr in
  let result :=
    _optimize_compression_for_dr current_dr (VNum target_dr)
      (VNum threshold) (VNum ratio) in
  (delta > 2 ->
     result = (VNum (threshold - Rmin (delta * 0.5) 6.0),
               VNum (Rmin (ratio * (1 + delta * 0.1)) 10.0)))
  /\ (delta < -2 ->
     result = (VNum (threshold + Rmin (Rabs delta * 0.3) 4.0),
               VNum (Rmax (ratio * (1 - Rabs delta * 0.05)) 1.5)))
  /\ (Rabs delta <= 2 -> result = (VNum threshold, VNum ratio)).
Proof.
  intros delta result. subst result.
  unfold _optimize_compression_for_dr. cbn. fold delta.
  repeat split; intros H.
  - case_decide; [reflexivity|lra].
  - case_decide; [lra|]. case_decide; [reflexivity|lra].
  - unfold Rabs in H. destruct (Rcase_abs delta); repeat (case_decide; try lra); reflexivity.
Qed.

(** The formula of C4 at a buffer 10 dB short of its target. *)
Lemma dr_targeting_formula_witness :
  0 - 10 < -2
  /\ _optimize_compression_for_dr 0 (VNum 10) (VNum (-12)) (VNum 4)
     = (VNum (-12 + Rmin (Rabs (0 - 10) * 0.3) 4.0),
        VNum (Rmax (4 * (1 - Rabs (0 - 10) * 0.05)) 1.5)).
Proof.
  split; [lra|].
  apply (proj1 (proj2 (dr_targeting_formula 0 10 (-12) 4))). lra.
Defined.

(** ** Element-wise operations *)

Lemma vzip_fmap (h : R -> R -> R) (f g : R -> R) (xs : list R) :
  vzip h (f <$> xs) (g <$> xs) = (fun x => h (f x) (g x)) <$> xs.
Proof. unfold vzip. induction xs as [|x xs IH]; cbn; [|rewrite IH]; reflexivity. Qed.

Lemma azip_amap (h : R -> R -> R) (f g : R -> R) (a : ndarray) :
  azip h (amap f a) (amap g a) = amap (fun x => h (f x) (g x)) a.
Proof.
  destruct a as [xs|rows]; cbn; f_equal; [apply vzip_fmap|].
  induction rows as [|row rows IH]; cbn; [|rewrite IH, vzip_fmap]; reflexivity.
Qed.

Lemma amap_amap (f g : R -> R) (a : ndarray) :
  amap f (amap g a) = amap (fun x => f (g x)) a.
Proof.
  destruct a as [xs|rows]; cbn; f_equal; rewrite <- list_fmap_compose; [reflexivity|].
  apply list_fmap_ext. intros _ row _. cbn. now rewrite <- list_fmap_compose.
Qed.

Lemma amap_ext (f g : R -> R) (a : ndarray) :
  (forall x, f x = g x) -> amap f a = amap g a.
Proof.
  intros Hfg. destruct a as [xs|rows]; cbn; f_equal.
  - apply list_fmap_ext. auto.
  - apply list_fmap_ext. intros _ row _. apply list_fmap_ext. auto.
Qed.

(** ** Saturation *)

Lemma tanh_opp (x : R) : tanh (- x) = - tanh x.
Proof.
  unfold tanh, sinh, cosh. rewrite Ropp_involutive.
  pose proof (exp_pos x). pose proof (exp_pos (- x)). field. lra.
Qed.

Lemma tanh_zero : tanh 0 = 0.
Proof. unfold tanh. rewrite sinh_0. lra. Qed.

Lemma np_sign_opp (x : R) : np_sign (- x) = - np_sign x.
Proof. unfold np_sign. repeat case_decide; lra. Qed.

Lemma np_sign_zero : np_sign 0 = 0.
Proof. unfold np_sign. repeat case_decide; lra. Qed.

Lemma tube_spec (d x : R) : tube d x = Spec.wet Spec.Tube d x.
Proof. unfold tube. cbn. do 2 f_equal. lra. Qed.

Lemma tape_spec (d x : R) : tape d x = Spec.wet Spec.Tape d x.
Proof. unfold tape. cbn. now rewrite (Rmult_comm x d). Qed.

Lemma soft_clip_spec (d x : R) : soft_clip d x = Spec.wet Spec.SoftClip d x.
Proof. unfold soft_clip. cbn. now rewrite (Rmult_comm x d). Qed.

Lemma wet_odd (k : Spec.saturation_kind) (d x : R) :
  Spec.wet k d (- x) = - Spec.wet k d x.
Proof.
  destruct k; cbn.
  - replace (0.7 * d * - x) with (- (0.7 * d * x)) by lra. rewrite tanh_opp. lra.
  - replace (d * - x) with (- (d * x)) by lra. rewrite Rabs_Ropp. field.
    pose proof (Rabs_pos (d * x)). lra.
  - replace (d * - x) with (- (d * x)) by lra. rewrite Rabs_Ropp, np_sign_opp. lra.
Qed.

Lemma wet_zero (k : Spec.saturation_kind) (d : R) : Spec.wet k d 0 = 0.
Proof.
  destruct k; cbn; rewrite Rmult_0_r.
  - rewrite tanh_zero. lra.
  - lra.
  - rewrite np_sign_zero. lra.
Qed.

(** The saturator the code selects for a [type] value: anything other than
    ["tube"] and ["tape"] is the soft clipper. *)
Lemma apply_saturation_body_eq (audio : ndarray) (s : pyval) (drive mix : R)
    (ty : pyval) :
  py_get s "drive" (VNum 1.0) = Ret (VNum drive) ->
  py_get s "type" (VStr "tube") = Ret ty ->
  py_get s "mix" (VNum 1.0) = Ret (VNum mix) ->
  let k := if py_eq_str ty "tube" then Spec.Tube
           else if py_eq_str ty "tape" then Spec.Tape else Spec.SoftClip in
  apply_saturation_body audio s
  = Ret (amap (fun x => x * (1 - mix) + Spec.wet k drive x * mix) audio).
Proof.
  intros Hd Ht Hm k. unfold apply_saturation_body.
  rewrite Hd, Ht, Hm. cbn. subst k.
  unfold _tube_saturation, _tape_saturation, _soft_clipper.
  destruct (py_eq_str ty "tube"); [|destruct (py_eq_str ty "tape")]; cbn;
    rewrite amap_amap, azip_amap; f_equal; apply amap_ext; intros x;
    [rewrite tube_spec|rewrite tape_spec|rewrite soft_clip_spec]; reflexivity.
Qed.

(** Whatever the settings, the stage either fails on every buffer or mixes
    every buffer with one saturation kind, drive and mix. *)
Lemma apply_saturation_body_cases (s : pyval) :
  (exists e, forall audio, apply_saturation_body audio s = Raise e)
  \/ (exists k d m, forall audio,
        apply_saturation_body audio s
        = Ret (amap (fun x => x * (1 - m) + Spec.wet k d x * m) audio)).
Proof.
  destruct (py_get s "drive" (VNum 1.0)) as [drive|e] eqn:Hd;
    [|left; exists e; intros; unfold apply_saturation_body; now rewrite Hd].
  destruct (py_get s "type" (VStr "tube")) as [ty|e] eqn:Ht;
    [|left; exists e; intros; unfold apply_saturation_body; now rewrite Hd, Ht].
  destruct (py_get s "mix" (VNum 1.0)) as [mix|e] eqn:Hm;
    [|left; exists e; intros; unfold apply_saturation_body; now rewrite Hd, Ht, Hm].
  destruct drive as [|d| | |];
    try (left; exists TypeError; intros; unfold apply_saturation_body;
         rewrite Hd, Ht, Hm; cbn;
         unfold _tube_saturation, _tape_saturation, _soft_clipper;
         now destruct (py_eq_str ty "tube"), (py_eq_str ty "tape")).
  destruct mix as [|m| | |];
    try (left; exists TypeError; intros; unfold apply_saturation_body;
         rewrite Hd, Ht, Hm; cbn;
         unfold _tube_saturation, _tape_saturation, _soft_clipper;
         now destruct (py_eq_str ty "tube"), (py_eq_str ty "tape")).
  right. eexists _, d, m. intros audio.
  now apply (apply_saturation_body_eq audio s d m ty).
Qed.

Lemma apply_saturation_odd (audio : ndarray) (s : pyval) :
  apply_saturation (amap Ropp audio) s = amap Ropp (apply_saturation audio s).
Proof.
  unfold apply_saturation.
  destruct (apply_saturation_body_cases s) as [[e He]|(k & d & m & H)].
  - now rewrite !He.
  - rewrite !H. cbn. rewrite !amap_amap. apply amap_ext. intros x.
    rewrite wet_odd. lra.
Qed.

Lemma apply_saturation_zero (audio : ndarray) (s : pyval) :
  apply_saturation (amap (fun _ => 0) audio) s = amap (fun _ => 0) audio.
Proof.
  unfold apply_saturation.
  destruct (apply_saturation_body_cases s) as [[e He]|(k & d & m & H)].
  - now rewrite !He.
  - rewrite !H. cbn. rewrite !amap_amap. apply amap_ext. intros x.
    rewrite wet_zero. lra.
Qed.

(** C7: saturation is an odd wet/dry mix.  For each kind (tube, tape,
    soft_clip), drive [d] and mix [m], the stage returns
    [x * (1 - m) + wet * m] sample by sample, with [wet] the kind's formula;
    on the negated buffer it returns the negated result, and a buffer of
    zeros is returned as zeros. *)
Theorem saturation_is_odd_mix (k : Spec.saturation_kind) (d m : R)
    (s : pyval) (audio : ndarray) :
  py_get s "drive" (VNum 1.0) = Ret (VNum d) ->
  py_get s "type" (VStr "tube") = Ret (VStr (Spec.kind_name k)) ->
  py_get s "mix" (VNum 1.0) = Ret (VNum m) ->
  apply_saturation audio s
    = amap (fun x => x * (1 - m) + Spec.wet k d x * m) audio
  /\ apply_saturation (amap Ropp audio) s = amap Ropp (apply_saturation audio s)
  /\ apply_saturation (amap (fun _ => 0) audio) s = amap (fun _ => 0) audio.
Proof.
  intros Hd Ht Hm. repeat split.
  - unfold apply_saturation.
    rewrite (apply_saturation_body_eq audio s d m _ Hd Ht Hm). cbn.
    now destruct k.
  - apply apply_saturation_odd.
  - apply apply_saturation_zero.
Qed.

(** C7 at the rock preset's saturation settings: tube, drive 1.5, mix 0.3. *)
Lemma saturation_is_odd_mix_witness :
  let s := VDict (<["drive" := VNum 1.5]>
                    (<["type" := VStr "tube"]> (<["mix" := VNum 0.3]> ∅))) in
  let audio := Arr1 [0.5; -0.25] in
  apply_saturation audio s
    = amap (fun x => x * (1 - 0.3) + Spec.wet Spec.Tube 1.5 x * 0.3) audio
  /\ apply_saturation (amap Ropp audio) s = amap Ropp (apply_saturation audio s)
  /\ apply_saturation (amap (fun _ => 0) audio) s = amap (fun _ => 0) audio.
Proof.
  intros s audio.
  apply (saturation_is_odd_mix Spec.Tube 1.5 0.3 s audio); reflexivity.
Defined.

(** ** Stereo width *)

Lemma mid_side_zero (left_ch right_ch : list R) :
  mid_side 0 left_ch right_ch
  = (vzip (fun l r => (l + r) / 2) left_ch right_ch,
     vzip (fun l r => (l + r) / 2) left_ch right_ch).
Proof.
  unfold mid_side, vzip.
  revert right_ch. induction left_ch as [|l ls IH]; intros [|r rs]; cbn; try reflexivity.
  specialize (IH rs). injection IH as IH1 IH2. rewrite IH1, IH2.
  f_equal; f_equal; lra.
Qed.

(** C9: width 0 folds to mono.  For every stereo buffer, stereo processing
    with width 0 returns two channels that both equal the mid signal
    [(L + R) / 2], keep the input's length, and so differ by less than
    [1e-9] at every sample. *)
Theorem width_zero_folds_to_mono (left_ch right_ch : list R) (s : pyval) :
  length left_ch = length right_ch ->
  py_get s "width" (VNum 1.0) = Ret (VNum 0) ->
  exists left_out right_out,
    apply_stereo_processing (Arr2 [left_ch; right_ch]) s
      = Arr2 [left_out; right_out]
    /\ left_out = vzip (fun l r => (l + r) / 2) left_ch right_ch
    /\ right_out = left_out
    /\ length left_out = length left_ch
    /\ forall (i : nat) (l r : R),
         left_out !! i = Some l -> right_out !! i = Some r ->
         Rabs (l - r) < 1e-9.
Proof.
  intros Hlen Hw. eexists _, _. split; [|split; [reflexivity|split; [reflexivity|split]]].
  - unfold apply_stereo_processing, apply_stereo_processing_body.
    rewrite Hw. cbn -[mid_side].
    rewrite (bool_decide_eq_true_2 (0 <> 1.0)) by lra. cbn -[mid_side].
    rewrite mid_side_zero. reflexivity.
  - unfold vzip. rewrite length_zip_with. lia.
  - intros i l r Hl Hr. rewrite Hl in Hr. injection Hr as <-.
    rewrite Rminus_diag, Rabs_R0. lra.
Qed.

(** C9 on a two-sample stereo buffer with hard-panned content. *)
Lemma width_zero_folds_to_mono_witness :
  exists left_out right_out,
    apply_stereo_processing (Arr2 [[1; 0.5]; [-1; 0.25]])
      (VDict (<["width" := VNum 0]> ∅))
      = Arr2 [left_out; right_out]
    /\ left_out = vzip (fun l r => (l + r) / 2) [1; 0.5] [-1; 0.25]
    /\ right_out = left_out
    /\ length left_out = length [1; 0.5]
    /\ forall (i : nat) (l r : R),
         left_out !! i = Some l -> right_out !! i = Some r ->
         Rabs (l - r) < 1e-9.
Proof.
  apply (width_zero_folds_to_mono [1; 0.5] [-1; 0.25]); reflexivity.
Defined.

(** ** Stage failures *)

Section StageFailures.

Variable butter : nat -> R -> string -> py (list R * list R).
Variable filtfilt : list R -> list R -> list R -> py (list R).
Variable self : t.

Lemma run_stage_delete (settings : gmap string pyval) (key key' : string)
    (stage : ndarray -> pyval -> ndarray) (audio : ndarray) :
  key <> key' ->
  run_stage (delete key settings) key' stage audio
  = run_stage settings key' stage audio.
Proof. intros Hne. unfold run_stage. now rewrite lookup_delete_ne. Qed.

Lemma run_stage_deleted (settings : gmap string pyval) (key : string)
    (stage : ndarray -> pyval -> ndarray) (audio : ndarray) :
  run_stage (delete key settings) key stage audio = audio.
Proof. unfold run_stage. now rewrite lookup_delete_eq. Qed.

Lemma run_stage_noop (settings : gmap string pyval) (key : string)
    (stage : ndarray -> pyval -> ndarray) (audio : ndarray) (v : pyval) :
  settings !! key = Some v -> stage audio v = audio ->
  run_stage settings key stage audio = audio.
Proof. intros Hk Hs. unfold run_stage. rewrite Hk, Hs. now destruct (truthy v). Qed.

(** C10: a failing stage is a no-op.  If the body of [apply_eq],
    [apply_compression] or [apply_saturation] raises, the stage returns its
    input buffer; and the chain then yields what it yields with that
    section removed from the settings, the later stages running on the
    untouched buffer. *)
Theorem stage_failure_is_noop (audio : ndarray) (s : pyval) (e : exn)
    (settings : gmap string pyval) :
  (apply_eq_body butter filtfilt self audio s = Raise e ->
     apply_eq butter filtfilt self audio s = audio
     /\ (settings !! "eq_settings" = Some s ->
         apply_mastering_chain butter filtfilt self audio settings
         = apply_mastering_chain butter filtfilt self audio
             (delete "eq_settings" settings)))
  /\ (let processed :=
        run_stage settings "eq_settings" (apply_eq butter filtfilt self) audio in
      apply_compression_body self processed s = Raise e ->
      apply_compression self processed s = processed
      /\ (settings !! "compression_settings" = Some s ->
          apply_mastering_chain butter filtfilt self audio settings
          = apply_mastering_chain butter filtfilt self audio
              (delete "compression_settings" settings)))
  /\ (let processed :=
        run_stage settings "compression_settings" (apply_compression self)
          (run_stage settings "eq_settings" (apply_eq butter filtfilt self) audio) in
      apply_saturation_body processed s = Raise e ->
      apply_saturation processed s = processed
      /\ (settings !! "saturation_settings" = Some s ->
          apply_mastering_chain butter filtfilt self audio settings
          = apply_mastering_chain butter filtfilt self audio
              (delete "saturation_settings" settings))).
Proof.
  split; [|split]; cbv zeta; intros Hraise.
  - assert (apply_eq butter filtfilt self audio s = audio) as Hnoop
      by (unfold apply_eq; now rewrite Hraise).
    split; [exact Hnoop|]. intros Hk. unfold apply_mastering_chain.
    rewrite run_stage_deleted, !run_stage_delete by discriminate.
    now rewrite (run_stage_noop settings "eq_settings" _ audio s Hk Hnoop).
  - set (processed := run_stage settings "eq_settings" _ audio) in *.
    assert (apply_compression self processed s = processed) as Hnoop
      by (unfold apply_compression; now rewrite Hraise).
    split; [exact Hnoop|]. intros Hk. unfold apply_mastering_chain.
    rewrite run_stage_deleted, !run_stage_delete by discriminate.
    fold processed.
    now rewrite (run_stage_noop settings "compression_settings" _ processed s Hk Hnoop).
  - set (processed := run_stage settings "compression_settings" _ _) in *.
    assert (apply_saturation processed s = processed) as Hnoop
      by (unfold apply_saturation; now rewrite Hraise).
    split; [exact Hnoop|]. intros Hk. unfold apply_mastering_chain.
    rewrite run_stage_deleted, !run_stage_delete by discriminate.
    fold processed.
    now rewrite (run_stage_noop settings "saturation_settings" _ processed s Hk Hnoop).
Qed.

End StageFailures.

(** C10 on three failing sections: a band whose gain is [null]
    ([abs(None)] raises [TypeError]), a compressor ratio of 0 ([1/ratio]
    raises [ZeroDivisionError]) and a [null] drive. *)
Lemma stage_failure_is_noop_witness :
  let audio := Examples.unit_click in
  let butter := Examples.butter_rejects in
  let filtfilt := Examples.filtfilt_rejects in
  let self := Examples.engine in
  (apply_eq_body butter filtfilt self audio Examples.eq_null_gain = Raise TypeError
   /\ apply_eq butter filtfilt self audio Examples.eq_null_gain = audio)
  /\ (apply_compression_body self audio Examples.comp_zero_ratio
        = Raise ZeroDivisionError
      /\ apply_compression self audio Examples.comp_zero_ratio = audio)
  /\ (apply_saturation_body audio Examples.sat_null_drive = Raise TypeError
      /\ apply_saturation audio Examples.sat_null_drive = audio).
Proof.
  intros audio butter filtfilt self.
  assert (apply_eq_body butter filtfilt self audio Examples.eq_null_gain
          = Raise TypeError) as Heq.
  { reflexivity. }
  assert (apply_compression_body self audio Examples.comp_zero_ratio
          = Raise ZeroDivisionError) as Hcomp.
  { unfold apply_compression_body, Examples.comp_zero_ratio, py_get.
    repeat first [rewrite lookup_insert_eq
                 |rewrite lookup_insert_ne by discriminate
                 |rewrite lookup_empty].
    cbn -[_calculate_dynamic_range].
    unfold py_div. case_decide; [reflexivity|lra]. }
  assert (apply_saturation_body audio Examples.sat_null_drive = Raise TypeError)
    as Hsat by reflexivity.
  split; [|split].
  - split; [exact Heq|].
    exact (proj1 (proj1 (stage_failure_is_noop butter filtfilt self audio
                           Examples.eq_null_gain TypeError ∅) Heq)).
  - split; [exact Hcomp|].
    exact (proj1 (proj1 (proj2 (stage_failure_is_noop butter filtfilt self audio
                                  Examples.comp_zero_ratio ZeroDivisionError ∅))
                    Hcomp)).
  - split; [exact Hsat|].
    exact (proj1 (proj2 (proj2 (stage_failure_is_noop butter filtfilt self audio
                                  Examples.sat_null_drive TypeError ∅))
                    Hsat)).
Defined.

(** ** The order of the chain *)

Ltac lookup_simpl :=
  repeat first [ rewrite lookup_insert_eq
               | rewrite lookup_insert_ne by discriminate
               | rewrite lookup_empty ].

Lemma np_sign_pos (x : R) : 0 < x -> np_sign x = 1.
Proof. intros Hx. unfold np_sign. case_decide; [reflexivity|lra]. Qed.

(** The envelope starts at 0, so a channel's first sample is never reduced:
    a one-sample channel only picks up the [1e-10] of the dB conversion and
    the make-up gain. *)
Lemma compression_of_one_sample (self : t) (x th ra att rel mg : R) :
  0 < x -> ra <> 0 -> mg <> 0 ->
  _apply_compression_channel self [x]
    (VNum th) (VNum ra) (VNum att) (VNum rel) (VNum mg)
  = Ret [(x + 1e-10) * pow10 (mg / 20)].
Proof.
  intros Hx Hra Hmg. unfold _apply_compression_channel, _apply_envelope, py_div.
  cbn [as_num mbind py_bind fmap list_fmap].
  destruct (decide (ra = 0)) as [|_]; [contradiction|].
  cbn [mbind py_bind fmap list_fmap vzip zip_with].
  destruct (decide (mg = 0)) as [|_]; [contradiction|].
  cbn [fmap list_fmap]. do 2 f_equal.
  rewrite np_sign_pos, Rabs_pos_eq by lra.
  replace ((20 * log10 (x + 1e-10) - 0) / 20) with (20 * log10 (x + 1e-10) / 20)
    by lra.
  rewrite pow10_log10 by lra. lra.
Qed.

Section ChainOrder.

Variable butter : nat -> R -> string -> py (list R * list R).
Variable filtfilt : list R -> list R -> list R -> py (list R).
Variable self : t.

Lemma eq_without_bands (audio : ndarray) :
  apply_eq butter filtfilt self audio Examples.eq_section = audio.
Proof. reflexivity. Qed.

Lemma compression_of_click (x : R) :
  0 < x ->
  apply_compression self (Arr1 [x]) Examples.comp_section
  = Arr1 [(x + 1e-10) * 10].
Proof.
  intros Hx.
  unfold apply_compression, apply_compression_body, Examples.comp_section, py_get.
  lookup_simpl.
  cbn [default from_option Datatypes.id mbind py_bind truthy].
  rewrite (compression_of_one_sample self x (-12) 4.0 0.003 0.1 20) by lra.
  cbn. do 2 f_equal.
  replace (20 / 20) with 1 by lra. now rewrite pow10_1.
Qed.

Lemma tape_of_click (x : R) :
  0 <= x ->
  apply_saturation (Arr1 [x]) Examples.sat_section = Arr1 [x / (1 + x)].
Proof.
  intros Hx. unfold apply_saturation.
  rewrite (apply_saturation_body_eq (Arr1 [x]) Examples.sat_section 1.0 1.0
             (VStr "tape")) by reflexivity.
  cbn. do 2 f_equal.
  rewrite (bool_decide_eq_false_2 ("tape" = "tube")%string) by discriminate.
  rewrite (bool_decide_eq_true_2 ("tape" = "tape")%string) by reflexivity.
  cbn [Spec.wet].
  replace (1.0 * x) with x by lra. rewrite Rabs_pos_eq by lra.
  generalize (x / (1 + x)). intros y. lra.
Qed.

Lemma neutral_width_of_click (x : R) :
  apply_stereo_processing (Arr1 [x]) Examples.stereo_section = Arr2 [[x]; [x]].
Proof.
  unfold apply_stereo_processing, apply_stereo_processing_body,
    Examples.stereo_section, py_get.
  lookup_simpl. cbn.
  rewrite (bool_decide_eq_false_2 (1 <> 1.0)) by lra. reflexivity.
Qed.

Lemma limiting_channel_of_click (x rel : R) :
  0 <= x ->
  _apply_limiting_channel self [x] 1 (VNum rel) = Ret [Rmin x 1].
Proof.
  intros Hx. unfold _apply_limiting_channel. cbn. do 2 f_equal.
  unfold required_gain. rewrite Rabs_pos_eq by lra.
  case_decide as Hpk.
  - assert (1 / x < 1) as Hq.
    { unfold Rdiv. rewrite Rmult_1_l, <- Rinv_1 at 1.
      apply Rinv_lt_contravar; lra. }
    rewrite Rmin_right, (Rmin_right x 1) by lra. field. lra.
  - rewrite Rmin_left by lra. lra.
Qed.

Lemma limiting_of_click (x : R) :
  0 <= x ->
  apply_limiting self (Arr2 [[x]; [x]]) Examples.limit_section
  = Arr2 [[Rmin x 1]; [Rmin x 1]].
Proof.
  intros Hx.
  unfold apply_limiting, apply_limiting_body, Examples.limit_section, py_get.
  lookup_simpl.
  cbn [default from_option Datatypes.id mbind py_bind as_num].
  replace (0 / 20) with 0 by lra. rewrite pow10_0.
  cbn [fmap py_fmap mapM mbind py_bind mret py_ret].
  rewrite !limiting_channel_of_click by lra. reflexivity.
Qed.

End ChainOrder.

Lemma stereo_returns_2d (audio : ndarray) (s : pyval) :
  exists rows, apply_stereo_processing audio s = Arr2 rows.
Proof.
  unfold apply_stereo_processing, apply_stereo_processing_body.
  destruct (py_get s "width" (VNum 1.0)) as [width|e]; cbn -[mid_side];
    [|destruct audio; eauto].
  assert (exists rows, to_stereo audio = Arr2 rows /\ length rows <> 1%nat)
    as (rows & -> & Hrows).
  { destruct audio as [xs|[|r [|r' rs]]]; cbn; eauto. }
  destruct rows as [|l [|r others]]; cbn -[mid_side]; [eauto|done|].
  destruct (differs_from_one width); cbn -[mid_side]; [|eauto].
  destruct (as_num width) as [w|e]; cbn -[mid_side].
  - destruct (mid_side w l r). cbn. eauto.
  - destruct audio; eauto.
Qed.

Lemma limiting_keeps_2d (self : t) (rows : list (list R)) (s : pyval) :
  exists rows', apply_limiting self (Arr2 rows) s = Arr2 rows'.
Proof.
  unfold apply_limiting, apply_limiting_body.
  destruct (py_get s "ceiling" _); cbn; [|eauto].
  destruct (py_get s "release" _); cbn; [|eauto].
  destruct (as_num _); cbn; [|eauto].
  destruct (mapM _ rows); cbn; eauto.
Qed.

Lemma run_stage_on (settings : gmap string pyval) (key : string)
    (stage : ndarray -> pyval -> ndarray) (audio : ndarray) (v : pyval) :
  settings !! key = Some v -> truthy v = true ->
  run_stage settings key stage audio = stage audio v.
Proof. intros Hk Hv. unfold run_stage. now rewrite Hk, Hv. Qed.

Section ChainTheorem.

Variable butter : nat -> R -> string -> py (list R * list R).
Variable filtfilt : list R -> list R -> list R -> py (list R).
Variable self : t.

(** C1 (amended): when all five sections are present and non-empty (truthy),
    the chain applies EQ, then compression, then saturation, then stereo,
    then limiting. *)
Theorem chain_order (audio : ndarray) (settings : gmap string pyval)
    (eq comp sat st lim : pyval) :
  settings !! "eq_settings" = Some eq -> truthy eq = true ->
  settings !! "compression_settings" = Some comp -> truthy comp = true ->
  settings !! "saturation_settings" = Some sat -> truthy sat = true ->
  settings !! "stereo_settings" = Some st -> truthy st = true ->
  settings !! "limiting_settings" = Some lim -> truthy lim = true ->
  apply_mastering_chain butter filtfilt self audio settings
  = apply_limiting self
      (apply_stereo_processing
         (apply_saturation
            (apply_compression self (apply_eq butter filtfilt self audio eq) comp)
            sat)
         st)
      lim.
Proof.
  intros He Te Hc Tc Hs Ts Hst Tst Hl Tl.
  unfold apply_mastering_chain.
  now rewrite (run_stage_on _ _ _ _ _ He Te), (run_stage_on _ _ _ _ _ Hc Tc),
    (run_stage_on _ _ _ _ _ Hs Ts), (run_stage_on _ _ _ _ _ Hst Tst),
    (run_stage_on _ _ _ _ _ Hl Tl).
Qed.

Lemma chain_of_click :
  apply_mastering_chain butter filtfilt self Examples.unit_click
    Examples.five_sections
  = Arr2 [[(1 + 1e-10) * 10 / (1 + (1 + 1e-10) * 10)];
          [(1 + 1e-10) * 10 / (1 + (1 + 1e-10) * 10)]].
Proof.
  unfold apply_mastering_chain.
  rewrite (run_stage_on Examples.five_sections "eq_settings" _ _
             Examples.eq_section) by reflexivity.
  rewrite (run_stage_on Examples.five_sections "compression_settings" _ _
             Examples.comp_section) by reflexivity.
  rewrite (run_stage_on Examples.five_sections "saturation_settings" _ _
             Examples.sat_section) by reflexivity.
  rewrite (run_stage_on Examples.five_sections "stereo_settings" _ _
             Examples.stereo_section) by reflexivity.
  rewrite (run_stage_on Examples.five_sections "limiting_settings" _ _
             Examples.limit_section) by reflexivity.
  unfold Examples.unit_click.
  rewrite eq_without_bands, compression_of_click by lra.
  rewrite tape_of_click by lra.
  rewrite neutral_width_of_click, limiting_of_click.
  - rewrite Rmin_left; [reflexivity|].
    apply Rlt_le, Rdiv_lt_one; lra.
  - apply Rlt_le, Rdiv_lt_0_compat; lra.
Qed.

Lemma spec_chain_of_click :
  Spec.chain butter filtfilt self Examples.unit_click
    Examples.eq_section Examples.sat_section Examples.comp_section
    Examples.stereo_section Examples.limit_section
  = Arr2 [[1]; [1]].
Proof.
  unfold Spec.chain, Examples.unit_click.
  rewrite eq_without_bands, tape_of_click by lra.
  rewrite compression_of_click by lra.
  rewrite neutral_width_of_click, limiting_of_click by lra.
  rewrite Rmin_right by lra. reflexivity.
Qed.

Lemma chain_of_empty_sections :
  apply_mastering_chain butter filtfilt self Examples.unit_click
    Examples.five_empty_sections
  = Examples.unit_click.
Proof. reflexivity. Qed.

End ChainTheorem.

(** C1 (as stated) fails.  On a one-sample buffer, with settings that hold
    all five sections, the chain returns about 0.909 in both channels:
    compression (make-up gain 20 dB) ran before tape saturation.  The
    specification's order, saturation before compression, gives 1.  And when
    the five sections are present but empty the chain bypasses them all and
    returns the mono input, where either composition of the five stages
    returns a stereo buffer. *)
Lemma chain_is_not_in_spec_order :
  (forall butter filtfilt,
      apply_mastering_chain butter filtfilt Examples.engine Examples.unit_click
        Examples.five_sections
      = Arr2 [[(1 + 1e-10) * 10 / (1 + (1 + 1e-10) * 10)];
              [(1 + 1e-10) * 10 / (1 + (1 + 1e-10) * 10)]]
      /\ Spec.chain butter filtfilt Examples.engine Examples.unit_click
           Examples.eq_section Examples.sat_section Examples.comp_section
           Examples.stereo_section Examples.limit_section
         = Arr2 [[1]; [1]])
  /\ (1 + 1e-10) * 10 / (1 + (1 + 1e-10) * 10) < 1
  /\ (forall butter filtfilt,
        apply_mastering_chain butter filtfilt Examples.engine Examples.unit_click
          Examples.five_empty_sections
        = Arr1 [1]
        /\ (exists rows,
              Spec.chain butter filtfilt Examples.engine Examples.unit_click
                (VDict ∅) (VDict ∅) (VDict ∅) (VDict ∅) (VDict ∅)
              = Arr2 rows)
        /\ (exists rows,
              apply_limiting Examples.engine
                (apply_stereo_processing
                   (apply_saturation
                      (apply_compression Examples.engine
                         (apply_eq butter filtfilt Examples.engine
                            Examples.unit_click (VDict ∅))
                         (VDict ∅))
                      (VDict ∅))
                   (VDict ∅))
                (VDict ∅)
              = Arr2 rows)).
Proof.
  split; [|split].
  - intros butter filtfilt. split.
    + apply chain_of_click.
    + apply spec_chain_of_click.
  - apply Rdiv_lt_one; lra.
  - intros butter filtfilt. split; [apply chain_of_empty_sections|].
    split.
    + unfold Spec.chain.
      destruct (stereo_returns_2d
                  (apply_compression Examples.engine
                     (apply_saturation
                        (apply_eq butter filtfilt Examples.engine
                           Examples.unit_click (VDict ∅)) (VDict ∅)) (VDict ∅))
                  (VDict ∅)) as [rows ->].
      apply limiting_keeps_2d.
    + destruct (stereo_returns_2d
                  (apply_saturation
                     (apply_compression Examples.engine
                        (apply_eq butter filtfilt Examples.engine
                           Examples.unit_click (VDict ∅)) (VDict ∅)) (VDict ∅))
                  (VDict ∅)) as [rows ->].
      apply limiting_keeps_2d.
Qed.

(** C1 (amended) on the five-section example. *)
Lemma chain_order_witness :
  apply_mastering_chain Examples.butter_rejects Examples.filtfilt_rejects
    Examples.engine Examples.unit_click Examples.five_sections
  = apply_limiting Examples.engine
      (apply_stereo_processing
         (apply_saturation
            (apply_compression Examples.engine
               (apply_eq Examples.butter_rejects Examples.filtfilt_rejects
                  Examples.engine Examples.unit_click Examples.eq_section)
               Examples.comp_section)
            Examples.sat_section)
         Examples.stereo_section)
      Examples.limit_section.
Proof.
  apply (chain_order Examples.butter_rejects Examples.filtfilt_rejects
           Examples.engine Examples.unit_click Examples.five_sections);
    reflexivity.
Defined.

(** ** Genre prediction *)

Import AudioAnalyzer.





Section GenreWrapper.

Variable beat_track : list R -> Z -> py R.
Variable mfcc : list R -> Z -> py (list (list R)).
Variable spectral_centroid : list R -> Z -> py (list (list R)).
Variable spectral_rolloff : list R -> Z -> py (list (list R)).
Variable zero_crossing_rate : list R -> py (list (list R)).


End GenreWrapper.




(** ** Frequency masking *)

Lemma masking_fold (magnitude : list (list R)) (freqs : list Q)
    (bands : list (Z * Z)) :
  forall (m : gmap string band_info) (recs : list string),
    foldl (masking_step magnitude freqs) (m, recs) bands
    = (foldl (fun m b => <[band_key (band_center b)
                           := analyze_band magnitude freqs b]> m) m bands,
       recs ++ omap (fun b => band_recommendation (analyze_band magnitude freqs b))
                    bands).
Proof.
  induction bands as [|b bands IH]; intros m recs; cbn [foldl].
  - cbn. now rewrite app_nil_r.
  - unfold masking_step at 2. cbn [fst snd].
    replace (center_freq (analyze_band magnitude freqs b)) with (band_center b)
      by reflexivity.
    rewrite IH. f_equal.
    change (omap ?f (b :: bands)) with
      (match f b with Some y => y :: omap f bands | None => omap f bands end).
    destruct (band_recommendation (analyze_band magnitude freqs b)).
    + now rewrite <- app_assoc.
    + reflexivity.
Qed.

Lemma insert_fold_perm {A} (key : A -> string) (val : A -> band_info) (l : list A) :
  forall m : gmap string band_info,
    NoDup (key <$> l) ->
    (forall x, x ∈ l -> m !! key x = None) ->
    map_to_list (foldl (fun m x => <[key x := val x]> m) m l)
    ≡ₚ ((fun x => (key x, val x)) <$> l) ++ map_to_list m.
Proof.
  induction l as [|x l IH]; intros m Hnd Hfresh; cbn [foldl fmap list_fmap].
  - reflexivity.
  - apply NoDup_cons in Hnd as [Hx Hnd].
    rewrite IH; [|exact Hnd|].
    + rewrite map_to_list_insert by (apply Hfresh; left).
      cbn. now rewrite Permutation_middle.
    + intros y Hy. rewrite lookup_insert_ne.
      * apply Hfresh. now right.
      * intros Heq. apply Hx. rewrite Heq. now apply list_elem_of_fmap_2.
Qed.

Lemma band_keys_distinct :
  NoDup ((fun b => band_key (band_center b)) <$> critical_band_table).
Proof. apply (bool_decide_unpack _). vm_compute. exact I. Qed.

Lemma masking_loop_bands (magnitude : list (list R)) (freqs : list Q) :
  (map_to_list (masking_loop magnitude freqs).1).*2
  ≡ₚ analyze_band magnitude freqs <$> critical_band_table.
Proof.
  unfold masking_loop. rewrite masking_fold. cbn [fst].
  rewrite (insert_fold_perm (fun b => band_key (band_center b))
             (analyze_band magnitude freqs));
    [|apply band_keys_distinct|intros; apply lookup_empty].
  rewrite map_to_list_empty, app_nil_r, <- list_fmap_compose.
  reflexivity.
Qed.

Lemma masking_loop_size (magnitude : list (list R)) (freqs : list Q) :
  size (masking_loop magnitude freqs).1 = 25%nat.
Proof.
  rewrite <- length_map_to_list, <- (length_fmap snd), masking_loop_bands.
  reflexivity.
Qed.

Lemma masking_loop_count (magnitude : list (list R)) (freqs : list Q) :
  count_masked (masking_loop magnitude freqs).1
  = length (filter (fun b => is_masked b = true)
              (analyze_band magnitude freqs <$> critical_band_table)).
Proof. unfold count_masked. now rewrite masking_loop_bands. Qed.

Lemma masking_loop_recommendations (magnitude : list (list R)) (freqs : list Q) :
  (masking_loop magnitude freqs).2
  = omap band_recommendation
      (analyze_band magnitude freqs <$> critical_band_table).
Proof.
  unfold masking_loop. rewrite masking_fold. cbn [snd app].
  generalize critical_band_table. intros l.
  induction l as [|b l IH]; [reflexivity|].
  rewrite fmap_cons.
  change (omap ?f (?x :: ?l')) with
    (match f x with Some y => y :: omap f l' | None => omap f l' end).
  now rewrite IH.
Qed.

(** *** Silence *)

Lemma Rsum_zeros (zs : list R) : Forall (fun v => v = 0) zs -> Rsum zs = 0.
Proof.
  unfold Rsum. induction 1 as [|z zs -> _ IH]; cbn; [reflexivity|].
  rewrite IH. lra.
Qed.

Lemma np_mean_zeros (zs : list R) : Forall (fun v => v = 0) zs -> np_mean zs = 0.
Proof. intros H. unfold np_mean. rewrite Rsum_zeros by exact H. unfold Rdiv. lra. Qed.

Lemma log10_of_floor : log10 (0 + 1e-10) = -10.
Proof.
  unfold log10. pose proof ln10_pos as H10.
  replace (0 + 1e-10) with (/ 10 ^ 10) by (simpl; lra).
  rewrite ln_Rinv by (apply pow_lt; lra).
  rewrite ln_pow by lra. simpl INR. field. lra.
Qed.

Lemma np_abs_zero : np_abs (0, 0) = 0.
Proof. unfold np_abs. cbn. replace (0 * (0 * 1) + 0 * (0 * 1)) with 0 by lra. apply sqrt_0. Qed.

Lemma slice_of_silence (magnitude : list (list R)) (lo hi : nat) :
  Forall (fun row => row <> [] /\ Forall (fun v => v = 0) row) magnitude ->
  (lo < hi <= length magnitude)%nat ->
  concat (py_slice lo hi magnitude) <> []
  /\ Forall (fun v => v = 0) (concat (py_slice lo hi magnitude)).
Proof.
  intros Hsilent [Hlo Hhi]. unfold py_slice. split.
  - destruct (drop lo magnitude) as [|row rest] eqn:Hdrop.
    + apply (f_equal length) in Hdrop. rewrite length_drop in Hdrop. cbn in Hdrop. lia.
    + assert (row ∈ magnitude) as Hin.
      { apply (list_elem_of_lookup_2 _ lo). rewrite <- (Nat.add_0_r lo).
        rewrite <- lookup_drop, Hdrop. reflexivity. }
      rewrite Forall_forall in Hsilent. destruct (Hsilent row Hin) as [Hne _].
      destruct (hi - lo)%nat as [|n] eqn:Hn; [lia|]. cbn.
      destruct row; [contradiction|discriminate].
  - apply Forall_concat, Forall_take, Forall_drop.
    eapply Forall_impl; [exact Hsilent|]. now intros row [_ H].
Qed.

Lemma bins_at_44100 :
  Forall (fun band : Z * Z =>
            (nearest_bin (fft_frequencies 44100 1024) band.1
             < nearest_bin (fft_frequencies 44100 1024) band.2 <= 513)%nat)
         critical_band_table.
Proof. apply (bool_decide_unpack _). vm_compute. exact I. Qed.

Lemma band_of_silence_is_masked (magnitude : list (list R)) (band : Z * Z) :
  length magnitude = 513%nat ->
  Forall (fun row => row <> [] /\ Forall (fun v => v = 0) row) magnitude ->
  band ∈ critical_band_table ->
  is_masked (analyze_band magnitude (fft_frequencies 44100 1024) band) = true.
Proof.
  intros Hlen Hsilent Hband.
  pose proof bins_at_44100 as Hbins. rewrite Forall_forall in Hbins.
  specialize (Hbins band Hband). cbv beta in Hbins. rewrite <- Hlen in Hbins.
  destruct (slice_of_silence magnitude _ _ Hsilent Hbins) as [Hne Hzero].
  unfold analyze_band. cbn [is_masked]. unfold nan_mean.
  destruct (concat _) as [|z zs] eqn:Hc; [contradiction|].
  cbn [fmap option_fmap option_map nan_lt].
  rewrite np_mean_zeros by exact Hzero. rewrite log10_of_floor.
  apply bool_decide_eq_true_2. lra.
Qed.

Lemma filter_all {A} (P : A -> Prop) `{!forall x, Decision (P x)} (l : list A) :
  Forall P l -> filter P l = l.
Proof.
  induction 1 as [|x l Hx _ IH]; [reflexivity|].
  now rewrite filter_cons_True, IH.
Qed.

Lemma masking_of_silence (magnitude : list (list R)) :
  length magnitude = 513%nat ->
  Forall (fun row => row <> [] /\ Forall (fun v => v = 0) row) magnitude ->
  Forall (fun b => is_masked b = true)
         (analyze_band magnitude (fft_frequencies 44100 1024) <$> critical_band_table).
Proof.
  intros Hlen Hsilent. apply Forall_fmap, Forall_forall. intros band Hband.
  now apply band_of_silence_is_masked.
Qed.

Lemma magnitude_of_silence (spectrum : list (list complex)) :
  Forall (fun row => row <> [] /\ Forall (fun z => z = (0, 0)) row) spectrum ->
  Forall (fun row => row <> [] /\ Forall (fun v => v = 0) row)
         ((fun row : list complex => np_abs <$> row) <$> spectrum).
Proof.
  intros H. apply Forall_fmap. eapply Forall_impl; [exact H|].
  intros row [Hne Hz]. cbn. split.
  - destruct row; [contradiction|discriminate].
  - apply Forall_fmap. eapply Forall_impl; [exact Hz|].
    intros z ->. cbn. apply np_abs_zero.
Qed.

(** *** Recommendations *)

Lemma recommendation_none_low (info : band_info) :
  Qlt_bool 100 (center_freq info) = false -> band_recommendation info = None.
Proof. intros H. unfold band_recommendation. now rewrite H, andb_false_r. Qed.

Lemma recommendation_text (info : band_info) :
  band_recommendation info
  = if is_masked info && Qlt_bool 100 (center_freq info)
    then Some ("Boost " +:+ format_0f (center_freq info) +:+ "Hz ("
               +:+ Spec.boost_range (center_freq info) +:+ "dB) - masked "
               +:+ Spec.region (center_freq info))
    else None.
Proof.
  unfold band_recommendation, Spec.boost_range, Spec.region.
  destruct (is_masked info && Qlt_bool 100 (center_freq info)); [|reflexivity].
  destruct (Qlt_bool (center_freq info) 500); [reflexivity|].
  destruct (Qlt_bool (center_freq info) 2000); reflexivity.
Qed.

Lemma recommendation_count (infos : list band_info) :
  length (omap band_recommendation infos)
  = length (filter (fun b => is_masked b = true
                            /\ Qlt_bool 100 (center_freq b) = true) infos).
Proof.
  induction infos as [|info infos IH]; [reflexivity|].
  change (omap ?f (?x :: ?l')) with
    (match f x with Some y => y :: omap f l' | None => omap f l' end).
  rewrite filter_cons, recommendation_text.
  destruct (is_masked info), (Qlt_bool 100 (center_freq info)); cbn [andb];
    case_decide as Hd; cbn [length]; try (rewrite IH; reflexivity);
    try (exfalso; tauto); destruct Hd; discriminate.
Qed.

Lemma recommendation_count_above (infos : list band_info) :
  Forall (fun b => Qlt_bool 100 (center_freq b) = true) infos ->
  length (filter (fun b => is_masked b = true
                          /\ Qlt_bool 100 (center_freq b) = true) infos)
  = length (filter (fun b => is_masked b = true) infos).
Proof.
  induction 1 as [|info infos Hc _ IH]; [reflexivity|].
  rewrite !filter_cons.
  destruct (is_masked info) eqn:Hm; repeat case_decide; cbn [length];
    try (rewrite IH; reflexivity); try (exfalso; tauto).
Qed.

Lemma analyze_band_verdict (magnitude : list (list R)) (freqs : list Q)
    (band : Z * Z) :
  is_masked (analyze_band magnitude freqs band)
  = nan_lt (energy_db (analyze_band magnitude freqs band)) (-60).
Proof. reflexivity. Qed.

Lemma centers_above_100 :
  Qlt_bool 100 (band_center (20, 100)%Z) = false
  /\ exists rest, critical_band_table = (20, 100)%Z :: rest
       /\ Forall (fun b => Qlt_bool 100 (band_center b) = true) rest.
Proof.
  split; [reflexivity|]. eexists. split; [reflexivity|].
  apply (bool_decide_unpack _). vm_compute. exact I.
Qed.

Section MaskingTheorems.

Variable stft : list R -> py (list (list complex)).

Lemma masking_result (y : list R) (sr : Z) (spectrum : list (list complex)) :
  stft (masking_window y sr) = Ret spectrum ->
  let loop := masking_loop ((fun row : list complex => np_abs <$> row) <$> spectrum)
                (fft_frequencies sr 1024) in
  _analyze_frequency_masking stft y sr
  = {| critical_bands := loop.1;
       recommendations := loop.2;
       total_masked_bands := count_masked loop.1 |}.
Proof.
  intros H loop. unfold _analyze_frequency_masking. rewrite H.
  cbn [mbind py_bind]. fold loop. destruct loop as [bands recs]. reflexivity.
Qed.

(** C2 (amended): the table has 25 critical bands.  Whenever the STFT
    succeeds the returned [critical_bands] map has exactly 25 entries and
    [total_masked_bands] is at most 25; on a silent input at 44.1 kHz (a
    zero spectrum of 513 bins with at least one frame) it is exactly 25.
    When the STFT raises, the map is empty and the count is 0. *)
Theorem masking_has_25_bands (y : list R) (sr : Z) :
  let r := _analyze_frequency_masking stft y sr in
  (forall spectrum,
      stft (masking_window y sr) = Ret spectrum ->
      size (critical_bands r) = 25%nat
      /\ (total_masked_bands r <= 25)%nat
      /\ (sr = 44100%Z ->
          length spectrum = 513%nat ->
          Forall (fun row => row <> [] /\ Forall (fun z => z = (0, 0)) row) spectrum ->
          total_masked_bands r = 25%nat))
  /\ (forall e,
        stft (masking_window y sr) = Raise e ->
        size (critical_bands r) = 0%nat /\ total_masked_bands r = 0%nat).
Proof.
  intros r. subst r. split.
  - intros spectrum H. rewrite (masking_result y sr spectrum H).
    cbn [critical_bands total_masked_bands]. split; [apply masking_loop_size|].
    rewrite masking_loop_count. split.
    + etrans; [apply length_filter|]. now rewrite length_fmap.
    + intros -> Hlen Hsilent. rewrite filter_all; [now rewrite length_fmap|].
      apply masking_of_silence.
      * now rewrite length_fmap.
      * now apply magnitude_of_silence.
  - intros e H. unfold _analyze_frequency_masking. rewrite H. cbn.
    split; [apply map_size_empty|reflexivity].
Qed.

(** C5 (amended): one recommendation per masked band above 100 Hz.  When
    the STFT succeeds, a band is masked iff its mean energy is below
    -60 dB; the recommendations are, in table order, those of the masked
    bands whose center frequency exceeds 100 Hz, each with the boost range
    of its center frequency (+2-4 dB below 500 Hz, +1-3 dB below 2000 Hz,
    +2-5 dB from there on); the lowest band (20-100 Hz, center 60 Hz) never
    gets one, so [total_masked_bands] exceeds the number of recommendations
    by one exactly when that band is masked. *)
Theorem recommendations_skip_lowest_band (y : list R) (sr : Z)
    (spectrum : list (list complex)) :
  stft (masking_window y sr) = Ret spectrum ->
  let r := _analyze_frequency_masking stft y sr in
  let magnitude := (fun row : list complex => np_abs <$> row) <$> spectrum in
  let infos := analyze_band magnitude (fft_frequencies sr 1024)
                 <$> critical_band_table in
  recommendations r = omap band_recommendation infos
  /\ total_masked_bands r = length (filter (fun b => is_masked b = true) infos)
  /\ length (recommendations r)
     = length (filter (fun b => is_masked b = true
                               /\ Qlt_bool 100 (center_freq b) = true) infos)
  /\ (exists lowest others,
         infos = lowest :: others
         /\ center_freq lowest = band_center (20, 100)%Z
         /\ total_masked_bands r
            = ((if is_masked lowest then 1 else 0) + length (recommendations r))%nat)
  /\ Forall (fun b =>
               is_masked b = nan_lt (energy_db b) (-60)
               /\ band_recommendation b
                  = if is_masked b && Qlt_bool 100 (center_freq b)
                    then Some ("Boost " +:+ format_0f (center_freq b) +:+ "Hz ("
                               +:+ Spec.boost_range (center_freq b)
                               +:+ "dB) - masked "
                               +:+ Spec.region (center_freq b))
                    else None)
            infos.
Proof.
  intros H r magnitude infos. subst r.
  rewrite (masking_result y sr spectrum H).
  cbn [critical_bands total_masked_bands recommendations].
  fold magnitude. rewrite masking_loop_recommendations, masking_loop_count.
  fold infos.
  split; [reflexivity|]. split; [reflexivity|].
  split; [apply recommendation_count|]. split.
  - destruct centers_above_100 as (Hlow & rest & Htable & Hrest).
    subst infos. rewrite Htable, fmap_cons.
    eexists _, _. split; [reflexivity|]. split; [reflexivity|].
    set (lowest := analyze_band magnitude _ (20, 100)%Z).
    set (others := analyze_band magnitude _ <$> rest).
    change (omap ?f (lowest :: others)) with
      (match f lowest with Some t => t :: omap f others | None => omap f others end).
    rewrite (recommendation_none_low lowest Hlow).
    rewrite recommendation_count, recommendation_count_above.
    + rewrite filter_cons. destruct (is_masked lowest); case_decide; try done.
    + subst others. apply Forall_fmap. exact Hrest.
  - apply Forall_fmap, Forall_forall. intros band _.
    split; [apply analyze_band_verdict|apply recommendation_text].
Qed.

End MaskingTheorems.

(** *** The silent example *)

Lemma silent_spectrum_shape (frames : nat) :
  let spectrum : list (list complex) := replicate 513 (replicate (S frames) (0, 0)) in
  length spectrum = 513%nat
  /\ Forall (fun row => row <> [] /\ Forall (fun z => z = (0, 0)) row) spectrum.
Proof.
  cbv zeta. split; [apply length_replicate|].
  apply Forall_replicate. split; [discriminate|].
  now apply Forall_replicate.
Qed.

Lemma stft_of_silence_returns :
  Examples.stft_of_silence (masking_window Examples.silence 44100)
  = Ret (replicate 513
           (replicate (S (length (masking_window Examples.silence 44100) / 512))
              (0, 0))).
Proof. reflexivity. Qed.

Lemma masking_of_silent_example :
  let r := _analyze_frequency_masking Examples.stft_of_silence
             Examples.silence 44100 in
  size (critical_bands r) = 25%nat
  /\ total_masked_bands r = 25%nat
  /\ length (recommendations r) = 24%nat.
Proof.
  cbv zeta. rewrite (masking_result _ _ _ _ stft_of_silence_returns).
  cbn [critical_bands total_masked_bands recommendations].
  destruct (silent_spectrum_shape
              (length (masking_window Examples.silence 44100) / 512))
    as [Hlen Hsilent].
  set (spectrum := replicate 513 _) in *.
  set (magnitude := (fun row : list complex => np_abs <$> row) <$> spectrum).
  assert (Forall (fun b => is_masked b = true)
            (analyze_band magnitude (fft_frequencies 44100 1024)
               <$> critical_band_table)) as Hmasked.
  { apply masking_of_silence.
    - subst magnitude. now rewrite length_fmap.
    - now apply magnitude_of_silence. }
  split; [apply masking_loop_size|]. split.
  - rewrite masking_loop_count, filter_all by exact Hmasked.
    now rewrite length_fmap.
  - rewrite masking_loop_recommendations, recommendation_count.
    destruct centers_above_100 as (Hlow & rest & Htable & Hrest).
    rewrite Htable in Hmasked |- *. rewrite fmap_cons in Hmasked |- *.
    apply Forall_cons in Hmasked as [_ Hmasked].
    rewrite filter_cons_False by (intros [_ H]; cbn in H; congruence).
    rewrite filter_all.
    + rewrite length_fmap. apply (f_equal length) in Htable.
      cbn in Htable. lia.
    + rewrite Forall_fmap in Hmasked |- *. rewrite Forall_forall in Hmasked, Hrest |- *.
      intros b Hb. split; [now apply Hmasked|now apply Hrest].
Qed.

(** C2 (as stated) fails: on 2048 samples of silence at 44.1 kHz the
    [critical_bands] map has 25 entries and all 25 are masked; and when the
    STFT raises, the handler returns a map without entries. *)
Lemma masking_counts_25_bands :
  let r := _analyze_frequency_masking Examples.stft_of_silence
             Examples.silence 44100 in
  size (critical_bands r) = 25%nat
  /\ total_masked_bands r = 25%nat
  /\ 25%nat <> 24%nat
  /\ size (critical_bands
             (_analyze_frequency_masking Examples.stft_rejects [] 44100)) = 0%nat.
Proof.
  cbv zeta. destruct masking_of_silent_example as (Hsize & Htotal & _).
  split; [exact Hsize|]. split; [exact Htotal|]. split; [discriminate|].
  apply map_size_empty.
Qed.

(** C5 (as stated) fails: on the same silent input 25 bands are masked and
    24 recommendations are emitted; the 20-100 Hz band gets none. *)
Lemma silence_gets_24_recommendations :
  let r := _analyze_frequency_masking Examples.stft_of_silence
             Examples.silence 44100 in
  total_masked_bands r = 25%nat
  /\ length (recommendations r) = 24%nat
  /\ length (recommendations r) <> total_masked_bands r.
Proof.
  cbv zeta. destruct masking_of_silent_example as (_ & Htotal & Hrecs).
  split; [exact Htotal|]. split; [exact Hrecs|].
  rewrite Htotal, Hrecs. discriminate.
Qed.

(** C2 (amended) on the silent example. *)
Lemma masking_has_25_bands_witness :
  let r := _analyze_frequency_masking Examples.stft_of_silence
             Examples.silence 44100 in
  size (critical_bands r) = 25%nat
  /\ (total_masked_bands r <= 25)%nat
  /\ total_masked_bands r = 25%nat.
Proof.
  cbv zeta.
  destruct (proj1 (masking_has_25_bands Examples.stft_of_silence
                     Examples.silence 44100) _ stft_of_silence_returns)
    as (Hsize & Hle & Hsilent).
  split; [exact Hsize|]. split; [exact Hle|].
  apply Hsilent; [reflexivity|apply silent_spectrum_shape..].
Defined.

(** C5 (amended) on the silent example. *)
Lemma recommendations_skip_lowest_band_witness :
  let r := _analyze_frequency_masking Examples.stft_of_silence
             Examples.silence 44100 in
  exists lowest others,
    analyze_band
      ((fun row : list complex => np_abs <$> row)
         <$> replicate 513
               (replicate
                  (S (length (masking_window Examples.silence 44100) / 512))
                  (0, 0)))
      (fft_frequencies 44100 1024) <$> critical_band_table
    = lowest :: others
    /\ center_freq lowest = band_center (20, 100)%Z
    /\ total_masked_bands r
       = ((if is_masked lowest then 1 else 0) + length (recommendations r))%nat.
Proof.
  cbv zeta.
  exact (proj1 (proj2 (proj2 (proj2
           (recommendations_skip_lowest_band Examples.stft_of_silence
              Examples.silence 44100 _ stft_of_silence_returns))))).
Defined.

(** ** Substituted defaults *)

Section TrackTheorems.

Variable load : string -> Z -> py ndarray.
Variable to_mono : list (list R) -> py (list R).
Variable get_duration : list R -> Z -> py R.
Variable beat_track : list R -> Z -> py R.
Variable beat_track_fast : list R -> Z -> py R.
Variable chroma_stft : list R -> Z -> py (list (list R)).
Variable stft : list R -> py (list (list complex)).
Variable mfcc : list R -> Z -> py (list (list R)).
Variable spectral_centroid : list R -> Z -> py (list (list R)).
Variable spectral_rolloff : list R -> Z -> py (list (list R)).
Variable zero_crossing_rate : list R -> py (list (list R)).
Context {Loudness Spectral Spectrum Stereo : Type}.
Variable _calculate_loudness : list R -> Z -> py Loudness.
Variable _extract_spectral_features : list R -> Z -> py Spectral.
Variable _analyze_frequency_spectrum : list R -> Z -> py Spectrum.
Variable _analyze_stereo_imaging : ndarray -> Z -> Stereo.

Abbreviation analyze :=
  (analyze_track load to_mono get_duration beat_track beat_track_fast
     chroma_stft stft mfcc spectral_centroid spectral_rolloff
     zero_crossing_rate _calculate_loudness _extract_spectral_features
     _analyze_frequency_spectrum _analyze_stereo_imaging).





End TrackTheorems.





(** * Further properties of the mastering engine *)

(** ** The limiter below and above its ceiling *)

Lemma release_pass_ones (rc : R) (n : nat) :
  release_pass rc 1 (replicate n 1) = replicate n 1.
Proof.
  induction n as [|n IH]; [reflexivity|]. cbn.
  rewrite decide_False by lra.
  replace (1 * rc + 1 * (1 - rc)) with 1 by lra. now rewrite IH.
Qed.

Lemma required_gain_below (c : R) (audio : list R) :
  Forall (fun x => Rabs x <= c) audio ->
  required_gain c <$> audio = replicate (length audio) 1.
Proof.
  induction 1 as [|x audio Hx _ IH]; [reflexivity|]. cbn. rewrite IH.
  unfold required_gain. now rewrite decide_False by lra.
Qed.

Lemma vzip_mult_ones (xs : list R) : vzip Rmult xs (replicate (length xs) 1) = xs.
Proof.
  unfold vzip. induction xs as [|x xs IH]; [reflexivity|]. cbn.
  now rewrite IH, Rmult_1_r.
Qed.

(** X1: the limiter is transparent below its ceiling: a channel in which no
    sample exceeds the linear ceiling is returned unchanged, for every
    release time. *)
Theorem limiter_transparent_below_ceiling (self : t) (audio : list R)
    (ceiling_linear release : R) :
  Forall (fun x => Rabs x <= ceiling_linear) audio ->
  _apply_limiting_channel self audio ceiling_linear (VNum release) = Ret audio.
Proof.
  intros Hbelow. unfold _apply_limiting_channel. cbn [as_num mbind py_bind].
  rewrite (required_gain_below _ _ Hbelow). f_equal.
  destruct audio as [|x audio]; [reflexivity|].
  cbn [length replicate smooth_release]. rewrite release_pass_ones.
  apply (vzip_mult_ones (x :: audio)).
Qed.

Lemma limiter_transparent_below_ceiling_witness :
  _apply_limiting_channel Examples.engine [0.5; -0.25; 0] 0.9 (VNum 0.05)
  = Ret [0.5; -0.25; 0].
Proof.
  apply limiter_transparent_below_ceiling.
  repeat constructor; unfold Rabs; destruct (Rcase_abs _); lra.
Defined.

Lemma required_gain_le_1 (c x : R) : required_gain c x <= 1.
Proof. unfold required_gain. case_decide; [apply Rmin_l|lra]. Qed.

Lemma release_pass_gains (c rc : R) (xs : list R) :
  0 < c -> 0 <= rc < 1 ->
  forall prev, 0 < prev <= 1 ->
  Forall2 (fun x y => exists g, 0 < g <= 1 /\ y = x * g) xs
          (vzip Rmult xs (release_pass rc prev (required_gain c <$> xs))).
Proof.
  intros Hc Hrc. induction xs as [|x xs IH]; intros prev Hprev; cbn.
  - constructor.
  - pose proof (required_gain_pos c x Hc) as Hg.
    pose proof (required_gain_le_1 c x) as Hg1.
    set (g := required_gain c x) in *.
    assert (0 < (if decide (g < prev) then g else prev * rc + g * (1 - rc)) <= 1)
      as Hg'.
    { case_decide; [lra|]. split; nra. }
    constructor; [eexists; split; [exact Hg'|reflexivity]|].
    apply IH. exact Hg'.
Qed.

Lemma scaled_sample (x y : R) :
  (exists g, 0 < g <= 1 /\ y = x * g) ->
  Rabs y <= Rabs x /\ np_sign y = np_sign x.
Proof.
  intros (g & [Hg0 Hg1] & ->). split.
  - rewrite Rabs_mult, (Rabs_pos_eq g) by lra. pose proof (Rabs_pos x). nra.
  - unfold np_sign. repeat case_decide; try reflexivity; nra.
Qed.

(** X2: the limiter only attenuates: every output sample is the input sample
    times a gain in (0, 1], so it keeps the input's length, never raises a
    sample's magnitude, never flips a sign and leaves zeros at zero. *)
Theorem limiter_only_attenuates (self : t) (audio : list R) (c release : R) :
  exists limited,
    _apply_limiting_channel self audio (pow10 (c / 20)) (VNum release) = Ret limited
    /\ Forall2 (fun x y => (exists g, 0 < g <= 1 /\ y = x * g)
                           /\ Rabs y <= Rabs x
                           /\ np_sign y = np_sign x)
               audio limited.
Proof.
  eexists. split; [reflexivity|].
  assert (Forall2 (fun x y => exists g, 0 < g <= 1 /\ y = x * g) audio
            (vzip Rmult audio
               (smooth_release (1.0 - 1.0 / IZR (samples_of self release))
                  (required_gain (pow10 (c / 20)) <$> audio)))) as H.
  { pose proof (pow10_pos (c / 20)) as Hc.
    pose proof (release_coeff_range _ (samples_of_ge_1 self release)) as Hrc.
    destruct audio as [|x audio]; cbn; constructor.
    - exists (required_gain (pow10 (c / 20)) x). split; [|reflexivity].
      split; [now apply required_gain_pos|apply required_gain_le_1].
    - apply release_pass_gains; [exact Hc|exact Hrc|].
      split; [now apply required_gain_pos|apply required_gain_le_1]. }
  eapply Forall2_impl; [exact H|]. intros x y Hxy.
  split; [exact Hxy|]. now apply scaled_sample.
Qed.

(** X3: limiting is idempotent.  A channel that went through the limiter
    passes through it again unchanged, for the same ceiling and any release
    times: the first pass leaves no sample above the ceiling, so the second
    computes a gain of 1 everywhere. *)
Theorem limiter_is_idempotent (self : t) (audio : list R) (c release release' : R) :
  exists limited,
    _apply_limiting_channel self audio (pow10 (c / 20)) (VNum release)
      = Ret limited
    /\ _apply_limiting_channel self limited (pow10 (c / 20)) (VNum release')
       = Ret limited.
Proof.
  eexists. split; [reflexivity|].
  set (limited := vzip Rmult audio _).
  assert (Forall (fun y => Rabs y <= pow10 (c / 20)) limited) as Hbelow.
  { apply smooth_release_limits; [apply pow10_pos|].
    apply release_coeff_range, samples_of_ge_1. }
  unfold _apply_limiting_channel. cbn [as_num mbind py_bind].
  rewrite (required_gain_below _ _ Hbelow). f_equal.
  destruct limited as [|y limited]; [reflexivity|].
  cbn [length replicate smooth_release]. rewrite release_pass_ones.
  apply (vzip_mult_ones (y :: limited)).
Qed.

(** ** Buffers processed channel by channel *)

Lemma mapM_Ret {A B} (f : A -> py B) (g : A -> B) (l : list A) :
  (forall x, f x = Ret (g x)) -> mapM f l = Ret (g <$> l).
Proof.
  intros Hf. induction l as [|x l IH]; [reflexivity|].
  cbn. rewrite Hf, IH. reflexivity.
Qed.




Lemma layout_map_channels (g : list R -> list R) (audio : ndarray) :
  (forall row, length (g row) = length row) ->
  layout (map_channels g audio) = layout audio.
Proof.
  intros Hg. destruct audio as [xs|rows]; cbn; f_equal; [apply Hg|].
  induction rows as [|row rows IH]; cbn; [reflexivity|]. now rewrite Hg, IH.
Qed.

Lemma layout_samples (a b : ndarray) :
  layout a = layout b -> length (samples a) = length (samples b).
Proof.
  destruct a as [xs|rows], b as [ys|rows']; cbn; try discriminate.
  - now intros [= ->].
  - intros [= H]. revert rows' H.
    induction rows as [|row rows IH]; intros [|row' rows']; cbn;
      try discriminate; [reflexivity|].
    intros [= H1 H2]. rewrite !length_app, H1. f_equal. now apply IH.
Qed.

Lemma layout_channel_count (a b : ndarray) :
  layout a = layout b -> channel_count a = channel_count b.
Proof.
  destruct a as [xs|rows], b as [ys|rows']; cbn; try discriminate; [reflexivity|].
  intros [= H]. f_equal. rewrite <- (length_fmap length rows), H.
  apply length_fmap.
Qed.

Lemma Forall_concat_fmap {A} (P : A -> Prop) (g : list A -> list A)
    (rows : list (list A)) :
  (forall row, Forall P (g row)) -> Forall P (concat (g <$> rows)).
Proof.
  intros Hg. induction rows as [|row rows IH]; cbn; [constructor|].
  apply Forall_app. split; [apply Hg|exact IH].
Qed.

Lemma samples_map_channels (P : R -> Prop) (g : list R -> list R)
    (audio : ndarray) :
  (forall row, Forall P (g row)) -> Forall P (samples (map_channels g audio)).
Proof.
  intros Hg. destruct audio as [xs|rows]; cbn; [apply Hg|].
  now apply Forall_concat_fmap.
Qed.

(** ** The limiting stage *)

(** With a numeric ceiling and release the stage limits every channel with
    the same gain computer. *)
Lemma apply_limiting_numeric (self : t) (d : gmap string pyval) (c release : R) :
  default (VNum (-0.1)) (d !! "ceiling") = VNum c ->
  default (VNum 0.05) (d !! "release") = VNum release ->
  exists g : list R -> list R,
    (forall row, length (g row) = length row)
    /\ (forall row, Forall (fun y => Rabs y <= pow10 (c / 20)) (g row))
    /\ forall audio, apply_limiting self audio (VDict d) = map_channels g audio.
Proof.
  intros Hc Hr.
  exists (fun row : list R =>
            vzip Rmult row
              (smooth_release (1.0 - 1.0 / IZR (samples_of self release))
                 (required_gain (pow10 (c / 20)) <$> row))).
  split; [|split].
  - intros row. unfold vzip.
    rewrite length_zip_with, smooth_release_length, length_fmap. lia.
  - intros row. apply smooth_release_limits; [apply pow10_pos|].
    apply release_coeff_range, samples_of_ge_1.
  - intros audio. unfold apply_limiting, apply_limiting_body, py_get.
    cbn [mbind py_bind]. rewrite Hc, Hr. cbn [as_num mbind py_bind].
    destruct audio as [xs|rows]; [reflexivity|].
    erewrite mapM_Ret by reflexivity. reflexivity.
Qed.

(** X4: the limiting stage on whole buffers.  With a settings dictionary
    whose ceiling and release are numbers or absent (defaults -0.1 dB and
    50 ms), every sample of every channel of the result is within the linear
    ceiling, and the buffer keeps its dimensionality and the length of each
    channel. *)
Theorem limiting_stage_honours_ceiling (self : t) (audio : ndarray)
    (d : gmap string pyval) (c release : R) :
  default (VNum (-0.1)) (d !! "ceiling") = VNum c ->
  default (VNum 0.05) (d !! "release") = VNum release ->
  Forall (fun y => Rabs y <= pow10 (c / 20))
         (samples (apply_limiting self audio (VDict d)))
  /\ layout (apply_limiting self audio (VDict d)) = layout audio.
Proof.
  intros Hc Hr.
  destruct (apply_limiting_numeric self d c release Hc Hr) as (g & Hlen & Hg & ->).
  split; [now apply samples_map_channels|now apply layout_map_channels].
Qed.

Lemma limiting_stage_honours_ceiling_witness :
  Forall (fun y => Rabs y <= pow10 (-1 / 20))
         (samples (apply_limiting Examples.engine (Arr2 [[2; -3]; [0.5; 4]])
                     (VDict (<["ceiling" := VNum (-1)]> ∅))))
  /\ layout (apply_limiting Examples.engine (Arr2 [[2; -3]; [0.5; 4]])
               (VDict (<["ceiling" := VNum (-1)]> ∅)))
     = layout (Arr2 [[2; -3]; [0.5; 4]]).
Proof.
  apply (limiting_stage_honours_ceiling Examples.engine (Arr2 [[2; -3]; [0.5; 4]])
           (<["ceiling" := VNum (-1)]> ∅) (-1) 0.05); reflexivity.
Defined.

(** ** Genre presets *)

Lemma get_genre_preset_cases (genre : string) :
  get_genre_preset genre = rock_preset
  \/ get_genre_preset genre = electronic_preset
  \/ get_genre_preset genre = jazz_preset.
Proof.
  unfold get_genre_preset, presets.
  destruct (decide (genre = "rock")) as [->|H1];
    [rewrite lookup_insert_eq; auto|rewrite lookup_insert_ne by congruence].
  destruct (decide (genre = "electronic")) as [->|H2];
    [rewrite lookup_insert_eq; auto|rewrite lookup_insert_ne by congruence].
  destruct (decide (genre = "jazz")) as [->|H3];
    [rewrite lookup_insert_eq; auto|rewrite lookup_insert_ne by congruence].
  rewrite lookup_empty. auto.
Qed.

Lemma pow10_neg (x : R) : x < 0 -> pow10 x < 1.
Proof.
  intros Hx. rewrite <- pow10_0. unfold pow10, Rpower.
  apply exp_increasing. pose proof ln10_pos. nra.
Qed.

Lemma chain_ends_with_limiter butter filtfilt (self : t) (audio : ndarray)
    (settings : gmap string pyval) (d : gmap string pyval) (c release : R) :
  settings !! "limiting_settings" = Some (VDict d) ->
  truthy (VDict d) = true ->
  default (VNum (-0.1)) (d !! "ceiling") = VNum c ->
  default (VNum 0.05) (d !! "release") = VNum release ->
  Forall (fun y => Rabs y <= pow10 (c / 20))
         (samples (apply_mastering_chain butter filtfilt self audio settings)).
Proof.
  intros Hs Ht Hc Hr. unfold apply_mastering_chain.
  rewrite (run_stage_on settings "limiting_settings" _ _ _ Hs Ht).
  destruct (apply_limiting_numeric self d c release Hc Hr) as (g & _ & Hg & ->).
  now apply samples_map_channels.
Qed.

(** X5: a master made with a genre preset never clips.  For every genre
    name (unknown names fall back to the rock preset), every input buffer
    and every behaviour of the filter library, all samples of the mastered
    buffer lie strictly inside full scale. *)
Theorem preset_master_never_clips
    (butter : nat -> R -> string -> py (list R * list R))
    (filtfilt : list R -> list R -> list R -> py (list R))
    (self : t) (genre : string) (audio : ndarray) :
  Forall (fun y => Rabs y < 1)
         (samples (apply_mastering_chain butter filtfilt self audio
                     (get_genre_preset genre))).
Proof.
  assert (exists c, c < 0 /\
            Forall (fun y => Rabs y <= pow10 (c / 20))
              (samples (apply_mastering_chain butter filtfilt self audio
                          (get_genre_preset genre)))) as (c & Hc & H).
  { destruct (get_genre_preset_cases genre) as [->|[->| ->]].
    - exists (-0.3). split; [lra|].
      eapply chain_ends_with_limiter; reflexivity.
    - exists (-0.1). split; [lra|].
      eapply chain_ends_with_limiter; reflexivity.
    - exists (-1.0). split; [lra|].
      eapply chain_ends_with_limiter; reflexivity. }
  eapply Forall_impl; [exact H|]. cbn. intros y Hy.
  pose proof (pow10_neg (c / 20)). lra.
Qed.
(** ** Stereo width *)

Lemma mid_side_same (w : R) (xs : list R) : mid_side w xs xs = (xs, xs).
Proof.
  unfold mid_side, vzip. induction xs as [|x xs IH]; [reflexivity|].
  cbn. injection IH as IH1 IH2. rewrite IH1, IH2. f_equal; f_equal; lra.
Qed.

Lemma mid_side_pairs (w : R) (left_ch right_ch : list R) :
  length left_ch = length right_ch ->
  Forall2 (fun '(l, r) '(l', r') =>
             (l' + r') / 2 = (l + r) / 2 /\ (l' - r') / 2 = (l - r) / 2 * w)
          (zip left_ch right_ch)
          (zip (mid_side w left_ch right_ch).1 (mid_side w left_ch right_ch).2).
Proof.
  unfold mid_side, vzip. revert right_ch.
  induction left_ch as [|l ls IH]; intros [|r rs]; cbn; try discriminate;
    [constructor|].
  intros [= Hlen]. constructor; [split; lra|]. now apply IH.
Qed.

Lemma mid_side_lengths (w : R) (left_ch right_ch : list R) :
  length left_ch = length right_ch ->
  length (mid_side w left_ch right_ch).1 = length left_ch
  /\ length (mid_side w left_ch right_ch).2 = length left_ch.
Proof.
  intros Hlen. unfold mid_side, vzip. cbn.
  rewrite !length_zip_with, !length_fmap, !length_zip_with. lia.
Qed.

(** X6: the width control scales the side signal and nothing else.  For a
    stereo pair of equal-length channels and any numeric width [w], the
    stage returns two channels of the same length whose mid signal
    [(L + R) / 2] equals the input's, sample for sample, and whose side
    signal [(L - R) / 2] is the input's times [w]. *)
Theorem width_scales_side_only (left_ch right_ch : list R) (s : pyval) (w : R) :
  length left_ch = length right_ch ->
  py_get s "width" (VNum 1.0) = Ret (VNum w) ->
  exists left_out right_out,
    apply_stereo_processing (Arr2 [left_ch; right_ch]) s
      = Arr2 [left_out; right_out]
    /\ length left_out = length left_ch
    /\ length right_out = length right_ch
    /\ Forall2 (fun '(l, r) '(l', r') =>
                  (l' + r') / 2 = (l + r) / 2
                  /\ (l' - r') / 2 = (l - r) / 2 * w)
               (zip left_ch right_ch) (zip left_out right_out).
Proof.
  intros Hlen Hw.
  unfold apply_stereo_processing, apply_stereo_processing_body.
  rewrite Hw. cbn -[mid_side]. case_bool_decide as H1; cbn -[mid_side].
  - pose proof (mid_side_pairs w _ _ Hlen) as Hp.
    destruct (mid_side_lengths w _ _ Hlen) as [Hl Hr].
    destruct (mid_side w left_ch right_ch) as [l r]. cbn in *.
    exists l, r. repeat split; [exact Hl|congruence|exact Hp].
  - exists left_ch, right_ch. repeat split.
    assert (w = 1) as -> by (destruct (decide (w = 1.0)); [lra|contradiction]).
    clear. revert right_ch.
    induction left_ch as [|l ls IH]; intros [|r rs]; cbn; try constructor;
      [split; lra|apply IH].
Qed.

Lemma width_scales_side_only_witness :
  exists left_out right_out,
    apply_stereo_processing (Arr2 [[1; 0.5]; [0; 0.5]])
      (VDict (<["width" := VNum 1.3]> ∅))
      = Arr2 [left_out; right_out]
    /\ length left_out = length [1; 0.5]
    /\ length right_out = length [0; 0.5]
    /\ Forall2 (fun '(l, r) '(l', r') =>
                  (l' + r') / 2 = (l + r) / 2
                  /\ (l' - r') / 2 = (l - r) / 2 * 1.3)
               (zip [1; 0.5] [0; 0.5]) (zip left_out right_out).
Proof.
  apply (width_scales_side_only [1; 0.5] [0; 0.5]
           (VDict (<["width" := VNum 1.3]> ∅)) 1.3); reflexivity.
Defined.

(** X7: on a mono buffer the stereo stage ignores its settings.  Whatever
    the settings hold (any width, a malformed section), a 1-D buffer comes
    back as two channels that both equal the input: a mono source has no
    side signal to widen. *)
Theorem stereo_of_mono_is_dual_mono (xs : list R) (s : pyval) :
  apply_stereo_processing (Arr1 xs) s = Arr2 [xs; xs].
Proof.
  unfold apply_stereo_processing, apply_stereo_processing_body.
  destruct (py_get s "width" (VNum 1.0)) as [width|e]; cbn -[mid_side];
    [|reflexivity].
  destruct (differs_from_one width); cbn -[mid_side]; [|reflexivity].
  destruct (as_num width) as [w|e]; cbn -[mid_side]; [|reflexivity].
  now rewrite mid_side_same.
Qed.
(** ** The layout of the buffer through the chain *)




Lemma envelope_loop_length (ac rc prev : R) (xs : list R) :
  length (envelope_loop ac rc prev xs) = length xs.
Proof.
  revert prev. induction xs as [|x xs IH]; intros prev; cbn; [|rewrite IH];
    reflexivity.
Qed.




Section Layout.

Variable butter : nat -> R -> string -> py (list R * list R).
Variable filtfilt : list R -> list R -> list R -> py (list R).
Variable self : t.

(** SciPy's [filtfilt] returns as many samples as it is given. *)
Hypothesis filtfilt_length :
  forall b a x y, filtfilt b a x = Ret y -> length y = length x.













End Layout.


(** ** The compressor *)

Lemma pow10_mono (x y : R) : x <= y -> pow10 x <= pow10 y.
Proof.
  intros Hxy. unfold pow10, Rpower. pose proof ln10_pos as H10.
  destruct (Rle_lt_or_eq_dec _ _ Hxy) as [Hlt| ->]; [|lra].
  left. apply exp_increasing. nra.
Qed.

Lemma Rabs_np_sign (x : R) : Rabs (np_sign x) <= 1.
Proof.
  unfold np_sign. repeat case_decide; unfold Rabs; destruct (Rcase_abs _); lra.
Qed.

Lemma np_sign_scaled (x p : R) : 0 < p -> np_sign (np_sign x * p) = np_sign x.
Proof. intros Hp. unfold np_sign. repeat case_decide; try reflexivity; nra. Qed.

Lemma envelope_coeff_range (n : Z) :
  1 <= IZR n -> 0 < 1.0 - exp (-1.0 / IZR n) < 1.
Proof.
  intros Hn. pose proof (exp_pos (-1.0 / IZR n)) as Hpos.
  assert (exp (-1.0 / IZR n) < 1) as Hlt.
  { rewrite <- exp_0. apply exp_increasing.
    assert (0 < / IZR n) by (apply Rinv_0_lt_compat; lra).
    unfold Rdiv. nra. }
  lra.
Qed.

Lemma envelope_loop_nonneg (ac rc prev : R) (xs : list R) :
  0 < ac < 1 -> 0 < rc < 1 -> 0 <= prev ->
  Forall (fun x => 0 <= x) xs ->
  Forall (fun e => 0 <= e) (envelope_loop ac rc prev xs).
Proof.
  intros Hac Hrc Hprev Hxs. revert prev Hprev.
  induction Hxs as [|x xs Hx _ IH]; intros prev Hprev; cbn; constructor.
  - case_decide; nra.
  - apply IH. case_decide; nra.
Qed.

Lemma envelope_loop_zeros (ac rc : R) (n : nat) :
  envelope_loop ac rc 0 (replicate n 0) = replicate n 0.
Proof.
  induction n as [|n IH]; [reflexivity|]. cbn.
  assert ((if decide (0 > 0) then 0 + (0 - 0) * ac else 0 + (0 - 0) * rc) = 0)
    as -> by (case_decide; lra).
  now rewrite IH.
Qed.

(** What the channel compressor returns for numeric parameters: every
    sample re-synthesised from its level minus the smoothed gain
    reduction, times the make-up gain. *)
Lemma compression_channel_numeric (self : t) (audio : list R)
    (th ra att rel mg : R) :
  ra <> 0 ->
  let level x := 20 * log10 (Rabs x + 1e-10) in
  let reduction :=
    (fun db => if decide (db > th) then (db - th) * (1 - 1 / ra) else 0)
      <$> (level <$> audio) in
  let envelope :=
    match reduction with
    | [] => []
    | _ :: rest =>
        0 :: envelope_loop (1.0 - exp (-1.0 / IZR (samples_of self att)))
               (1.0 - exp (-1.0 / IZR (samples_of self rel))) 0 rest
    end in
  _apply_compression_channel self audio
    (VNum th) (VNum ra) (VNum att) (VNum rel) (VNum mg)
  = Ret (zip_with (fun x e => np_sign x * pow10 ((level x - e) / 20)
                              * pow10 (mg / 20))
           audio envelope).
Proof.
  intros Hra level reduction envelope.
  unfold _apply_compression_channel, _apply_envelope, py_div.
  cbn [as_num mbind py_bind]. rewrite decide_False by exact Hra.
  cbn [mbind py_bind]. fold level. fold reduction. fold envelope.
  assert (forall k : R -> R,
            (forall y, k y = y * pow10 (mg / 20)) ->
            k <$> vzip (fun x db => np_sign x * pow10 (db / 20)) audio
                    (vzip Rminus (level <$> audio) envelope)
            = zip_with (fun x e => np_sign x * pow10 ((level x - e) / 20)
                                   * pow10 (mg / 20))
                audio envelope) as Hzip.
  { intros k Hk. clear -Hk. unfold vzip. generalize envelope. clear envelope.
    induction audio as [|x audio IH]; intros [|e env]; cbn; try reflexivity.
    now rewrite IH, Hk. }
  case_decide as Hmg.
  - rewrite <- (Hzip id); [now rewrite list_fmap_id|].
    intros y. subst mg. replace (0 / 20) with 0 by lra. rewrite pow10_0.
    unfold id. lra.
  - now rewrite (Hzip (fun y => y * pow10 (mg / 20))).
Qed.

Lemma level_pow10 (x : R) :
  pow10 (20 * log10 (Rabs x + 1e-10) / 20) = Rabs x + 1e-10.
Proof. apply pow10_log10. pose proof (Rabs_pos x). lra. Qed.

(** X10: the compressor never expands.  With a ratio of at least 1 (and any
    threshold, attack, release and make-up gain) the channel compressor
    returns a channel of the input's length in which every sample keeps the
    sign of the input sample and is no louder than the input level
    [|x| + 1e-10] raised by the make-up gain; silent samples stay silent. *)
Theorem compressor_never_expands (self : t) (audio : list R)
    (th ra att rel mg : R) :
  1 <= ra ->
  exists out,
    _apply_compression_channel self audio
      (VNum th) (VNum ra) (VNum att) (VNum rel) (VNum mg) = Ret out
    /\ Forall2 (fun x y => Rabs y <= (Rabs x + 1e-10) * pow10 (mg / 20)
                           /\ np_sign y = np_sign x)
               audio out.
Proof.
  intros Hra. rewrite compression_channel_numeric by lra.
  eexists. split; [reflexivity|].
  set (level := fun x => 20 * log10 (Rabs x + 1e-10)).
  set (reduction := _ <$> (level <$> audio)).
  assert (Forall (fun g => 0 <= g) reduction) as Hred.
  { unfold reduction. rewrite <- list_fmap_compose. apply Forall_fmap.
    apply Forall_true. intros x. cbn. case_decide; [|lra].
    assert (0 <= 1 - 1 / ra).
    { assert (/ ra <= 1) by (rewrite <- Rinv_1; apply Rinv_le_contravar; lra).
      unfold Rdiv. lra. }
    nra. }
  assert (length reduction = length audio) as Hlen
      by (unfold reduction; now rewrite !length_fmap).
  set (envelope := match reduction with [] => [] | _ :: _ => _ end).
  assert (Forall (fun e => 0 <= e) envelope /\ length envelope = length audio)
    as [Henv Hlen'].
  { unfold envelope. destruct reduction as [|g rest]; [auto|].
    split; [|cbn in *; now rewrite envelope_loop_length].
    constructor; [lra|]. apply Forall_inv_tail in Hred.
    apply envelope_loop_nonneg; try lra; try exact Hred;
      apply envelope_coeff_range, samples_of_ge_1. }
  clearbody envelope. clear reduction Hred Hlen.
  revert envelope Henv Hlen'.
  induction audio as [|x audio IH]; intros [|e env] Henv Hlen;
    cbn [zip_with length] in *; try discriminate; constructor.
  - pose proof (pow10_pos ((level x - e) / 20)) as Hp.
    pose proof (pow10_pos (mg / 20)) as Hm.
    apply Forall_inv in Henv.
    assert (pow10 ((level x - e) / 20) <= Rabs x + 1e-10) as Hle.
    { apply Rle_trans with (pow10 (level x / 20));
        [apply pow10_mono; lra|right; apply level_pow10]. }
    change (20 * log10 (Rabs x + 1e-10)) with (level x).
    set (p := pow10 ((level x - e) / 20)) in *.
    set (m := pow10 (mg / 20)) in *.
    split.
    + rewrite !Rabs_mult, (Rabs_pos_eq p), (Rabs_pos_eq m) by lra.
      pose proof (Rabs_np_sign x). pose proof (Rabs_pos (np_sign x)).
      generalize dependent (Rabs x + 1e-10). intros A HA.
      generalize dependent (Rabs (np_sign x)). intros s Hs1 Hs0.
      assert (s * p <= A) by nra. nra.
    + rewrite Rmult_assoc. apply np_sign_scaled. nra.
  - apply IH; [now apply Forall_inv_tail in Henv|lia].
Qed.

Lemma compressor_never_expands_witness :
  exists out,
    _apply_compression_channel Examples.engine [0.5; -1; 0]
      (VNum (-12)) (VNum 4) (VNum 0.003) (VNum 0.1) (VNum 3) = Ret out
    /\ Forall2 (fun x y => Rabs y <= (Rabs x + 1e-10) * pow10 (3 / 20)
                           /\ np_sign y = np_sign x)
               [0.5; -1; 0] out.
Proof. apply compressor_never_expands. lra. Defined.

(** X11: below its threshold the compressor only applies the make-up
    gain.  When no sample's level [20 log10(|x| + 1e-10)] exceeds the
    threshold, every output sample is the input's sign times
    [|x| + 1e-10] times the linear make-up gain, for every non-zero
    ratio, attack and release: no gain reduction is applied, but the
    1e-10 of the dB conversion is added to every non-zero sample. *)
Theorem compressor_idle_below_threshold (self : t) (audio : list R)
    (th ra att rel mg : R) :
  ra <> 0 ->
  Forall (fun x => 20 * log10 (Rabs x + 1e-10) <= th) audio ->
  _apply_compression_channel self audio
    (VNum th) (VNum ra) (VNum att) (VNum rel) (VNum mg)
  = Ret ((fun x => np_sign x * (Rabs x + 1e-10) * pow10 (mg / 20)) <$> audio).
Proof.
  intros Hra Hbelow. rewrite compression_channel_numeric by exact Hra.
  f_equal.
  set (level := fun x => 20 * log10 (Rabs x + 1e-10)).
  assert ((fun db => if decide (db > th) then (db - th) * (1 - 1 / ra) else 0)
            <$> (level <$> audio) = replicate (length audio) 0) as ->.
  { induction Hbelow as [|x audio Hx _ IH]; [reflexivity|]. cbn.
    rewrite IH. unfold level. now rewrite decide_False by lra. }
  assert (match replicate (length audio) 0 with
          | [] => []
          | _ :: rest =>
              0 :: envelope_loop (1.0 - exp (-1.0 / IZR (samples_of self att)))
                     (1.0 - exp (-1.0 / IZR (samples_of self rel))) 0 rest
          end = replicate (length audio) 0) as ->.
  { destruct audio; cbn; [reflexivity|]. now rewrite envelope_loop_zeros. }
  clear. induction audio as [|x audio IH]; [reflexivity|].
  cbn [zip_with replicate length fmap list_fmap]. rewrite IH. f_equal.
  replace ((20 * log10 (Rabs x + 1e-10) - 0) / 20)
    with (20 * log10 (Rabs x + 1e-10) / 20) by lra.
  now rewrite level_pow10.
Qed.

Lemma level_below_full_scale (x : R) :
  Rabs x <= 0.5 -> 20 * log10 (Rabs x + 1e-10) <= 0.
Proof.
  intros Hx. pose proof (Rabs_pos x) as Hpos. pose proof ln10_pos as H10.
  assert (ln (Rabs x + 1e-10) < 0) as H.
  { rewrite <- ln_1. apply ln_increasing; lra. }
  unfold log10, Rdiv.
  assert (0 < / ln 10) by now apply Rinv_0_lt_compat.
  nra.
Qed.

Lemma compressor_idle_below_threshold_witness :
  _apply_compression_channel Examples.engine [0.5; -0.25; 0]
    (VNum 0) (VNum 4) (VNum 0.003) (VNum 0.1) (VNum 3)
  = Ret ((fun x => np_sign x * (Rabs x + 1e-10) * pow10 (3 / 20))
           <$> [0.5; -0.25; 0]).
Proof.
  apply compressor_idle_below_threshold; [lra|].
  repeat apply Forall_cons_2; try apply Forall_nil_2;
    apply level_below_full_scale; unfold Rabs; destruct (Rcase_abs _); lra.
Defined.
(** ** Saturation and full scale *)

Lemma tanh_bound (x : R) : Rabs (tanh x) < 1.
Proof.
  unfold tanh, sinh, cosh.
  pose proof (exp_pos x) as Ha. pose proof (exp_pos (- x)) as Hb.
  set (a := exp x) in *. set (b := exp (- x)) in *.
  replace ((a - b) / 2 / ((a + b) / 2)) with ((a - b) / (a + b)) by (field; lra).
  assert (0 < / (a + b)) as Hinv by (apply Rinv_0_lt_compat; lra).
  assert ((a + b) * / (a + b) = 1) as H1 by (apply Rinv_r; lra).
  unfold Rdiv, Rabs. destruct (Rcase_abs _); nra.
Qed.

Lemma wet_bound (k : Spec.saturation_kind) (d x : R) : Rabs (Spec.wet k d x) <= 1.
Proof.
  destruct k; cbn [Spec.wet].
  - rewrite Rabs_mult, (Rabs_pos_eq 0.95) by lra.
    pose proof (tanh_bound (0.7 * d * x)). pose proof (Rabs_pos (tanh (0.7 * d * x))).
    nra.
  - pose proof (Rabs_pos (d * x)) as Hz.
    unfold Rdiv. rewrite Rabs_mult, Rabs_inv, (Rabs_pos_eq (1 + _)) by lra.
    assert (0 < / (1 + Rabs (d * x))) as Hinv by (apply Rinv_0_lt_compat; lra).
    assert ((1 + Rabs (d * x)) * / (1 + Rabs (d * x)) = 1) as H1
      by (apply Rinv_r; lra).
    nra.
  - pose proof (Rabs_pos (d * x)) as Hz.
    pose proof (exp_pos (- Rabs (d * x))) as He.
    assert (exp (- Rabs (d * x)) <= 1) as He1.
    { rewrite <- exp_0. destruct (Rle_lt_or_eq_dec _ _ Hz) as [Hlt|Heq].
      - left. apply exp_increasing. lra.
      - rewrite <- Heq, Ropp_0. lra. }
    rewrite Rabs_mult, (Rabs_pos_eq (1 - _)) by lra.
    pose proof (Rabs_np_sign (d * x)). pose proof (Rabs_pos (np_sign (d * x))).
    nra.
Qed.

Lemma apply_saturation_mix_cases (s : pyval) :
  (exists e, forall audio, apply_saturation_body audio s = Raise e)
  \/ (exists k d m,
        py_get s "mix" (VNum 1.0) = Ret (VNum m)
        /\ forall audio,
             apply_saturation_body audio s
             = Ret (amap (fun x => x * (1 - m) + Spec.wet k d x * m) audio)).
Proof.
  destruct (py_get s "drive" (VNum 1.0)) as [drive|e] eqn:Hd;
    [|left; exists e; intros; unfold apply_saturation_body; now rewrite Hd].
  destruct (py_get s "type" (VStr "tube")) as [ty|e] eqn:Ht;
    [|left; exists e; intros; unfold apply_saturation_body; now rewrite Hd, Ht].
  destruct (py_get s "mix" (VNum 1.0)) as [mix|e] eqn:Hm;
    [|left; exists e; intros; unfold apply_saturation_body; now rewrite Hd, Ht, Hm].
  destruct drive as [|d| | |];
    try (left; exists TypeError; intros; unfold apply_saturation_body;
         rewrite Hd, Ht, Hm; cbn;
         unfold _tube_saturation, _tape_saturation, _soft_clipper;
         now destruct (py_eq_str ty "tube"), (py_eq_str ty "tape")).
  destruct mix as [|m| | |];
    try (left; exists TypeError; intros; unfold apply_saturation_body;
         rewrite Hd, Ht, Hm; cbn;
         unfold _tube_saturation, _tape_saturation, _soft_clipper;
         now destruct (py_eq_str ty "tube"), (py_eq_str ty "tape")).
  right. eexists _, d, m. split; [reflexivity|]. intros audio.
  now apply (apply_saturation_body_eq audio s d m ty).
Qed.

Lemma samples_amap (f : R -> R) (audio : ndarray) :
  samples (amap f audio) = f <$> samples audio.
Proof.
  destruct audio as [xs|rows]; cbn; [reflexivity|].
  induction rows as [|row rows IH]; cbn; [reflexivity|].
  now rewrite fmap_app, IH.
Qed.

(** X12: saturation keeps a signal inside full scale.  For every settings
    value whose mix, when it is a number, lies in [0, 1] (every drive,
    every saturation type, malformed sections included), a buffer whose
    samples are all within [-1, 1] comes back with all samples within
    [-1, 1]. *)
Theorem saturation_stays_in_full_scale (audio : ndarray) (s : pyval) :
  (forall m, py_get s "mix" (VNum 1.0) = Ret (VNum m) -> 0 <= m <= 1) ->
  Forall (fun x => Rabs x <= 1) (samples audio) ->
  Forall (fun y => Rabs y <= 1) (samples (apply_saturation audio s)).
Proof.
  intros Hmix Hin. unfold apply_saturation.
  destruct (apply_saturation_mix_cases s) as [(e & ->)|(k & d & m & Hm & ->)];
    cbn [try_return]; [exact Hin|].
  specialize (Hmix m Hm). rewrite samples_amap. apply Forall_fmap.
  eapply Forall_impl; [exact Hin|]. cbn. intros x Hx.
  pose proof (wet_bound k d x) as Hw.
  eapply Rle_trans; [apply Rabs_triang|]. rewrite !Rabs_mult.
  rewrite (Rabs_pos_eq (1 - m)), (Rabs_pos_eq m) by lra.
  pose proof (Rabs_pos x). pose proof (Rabs_pos (Spec.wet k d x)). nra.
Qed.

Lemma saturation_stays_in_full_scale_witness :
  Forall (fun y => Rabs y <= 1)
         (samples (apply_saturation (Arr2 [[1; -0.5]; [0; 0.25]])
                     (VDict (<["drive" := VNum 4]>
                            (<["type" := VStr "tape"]>
                            (<["mix" := VNum 0.5]> ∅)))))).
Proof.
  apply saturation_stays_in_full_scale.
  - intros m H. change (Ret (VNum 0.5) = Ret (VNum m)) in H.
    injection H as <-. lra.
  - repeat apply Forall_cons_2; try apply Forall_nil_2;
      unfold Rabs; destruct (Rcase_abs _); lra.
Defined.
(** ** The EQ's dead band *)

(** X13: bands within 0.1 dB of flat are skipped.  When every band of the
    EQ section is a dictionary whose gain is a number of magnitude at most
    0.1 (or is absent), the stage returns its input buffer without raising
    and without designing or running a filter: the result does not depend
    on the filter library, nor on the bands' frequency, Q or type. *)
Theorem eq_skips_flat_bands
    (butter : nat -> R -> string -> py (list R * list R))
    (filtfilt : list R -> list R -> list R -> py (list R))
    (self : t) (audio : ndarray) (s : gmap string pyval) (bands : list pyval) :
  default (VList []) (s !! "bands") = VList bands ->
  Forall (fun band => exists d g, band = VDict d
                                  /\ default (VNum 0) (d !! "gain") = VNum g
                                  /\ Rabs g <= 0.1) bands ->
  apply_eq_body butter filtfilt self audio (VDict s) = Ret audio.
Proof.
  intros Hs Hbands. unfold apply_eq_body, py_get. cbn [mbind py_bind].
  rewrite Hs. cbn [py_iter mbind py_bind]. clear Hs.
  induction Hbands as [|band bands (d & g & -> & Hg & Hle) _ IH];
    [reflexivity|].
  assert (eq_band_step butter filtfilt self audio (VDict d) = Ret audio) as Hstep.
  { unfold eq_band_step, py_get. cbn [mbind py_bind].
    rewrite Hg. cbn [as_num mbind py_bind]. now rewrite decide_False by lra. }
  cbn [for_each]. rewrite Hstep. exact IH.
Qed.

Lemma eq_skips_flat_bands_witness :
  apply_eq_body Examples.butter_rejects Examples.filtfilt_rejects Examples.engine
    (Arr1 [1; 0.5])
    (VDict (<["bands" := VList [VDict (<["frequency" := VNone]>
                                       (<["gain" := VNum 0.1]> ∅));
                                VDict (<["type" := VStr "highpass"]> ∅)]]> ∅))
  = Ret (Arr1 [1; 0.5]).
Proof.
  eapply eq_skips_flat_bands; [reflexivity|].
  apply Forall_cons_2; [|apply Forall_cons_2; [|apply Forall_nil_2]].
  - eexists _, 0.1. split; [reflexivity|]. split; [reflexivity|].
    unfold Rabs. destruct (Rcase_abs _); lra.
  - eexists _, 0. split; [reflexivity|]. split; [reflexivity|].
    rewrite Rabs_R0. lra.
Defined.
(** * Further properties of the analyzer *)

(** ** Loudness *)

Lemma foldl_Rmax_ge (acc : R) (l : list R) :
  acc <= foldl Rmax acc l /\ Forall (fun v => v <= foldl Rmax acc l) l.
Proof.
  revert acc. induction l as [|x l IH]; intros acc; cbn.
  - split; [lra|constructor].
  - destruct (IH (Rmax acc x)) as [H1 H2].
    pose proof (Rmax_l acc x). pose proof (Rmax_r acc x).
    split; [lra|]. constructor; [lra|exact H2].
Qed.

Lemma Rsum_le (B : R) (l : list R) :
  Forall (fun v => v <= B) l -> Rsum l <= INR (length l) * B.
Proof.
  unfold Rsum. induction 1 as [|x l Hx _ IH].
  - cbn. lra.
  - cbn [foldr length]. rewrite S_INR. lra.
Qed.

Lemma Rsum_nonneg (l : list R) : Forall (fun v => 0 <= v) l -> 0 <= Rsum l.
Proof. unfold Rsum. induction 1 as [|x l Hx _ IH]; cbn; lra. Qed.

Lemma log10_mono (a b : R) : 0 < a -> a <= b -> log10 a <= log10 b.
Proof.
  intros Ha Hab. unfold log10. pose proof ln10_pos as H10.
  assert (ln a <= ln b) as H.
  { destruct (Rle_lt_or_eq_dec _ _ Hab) as [Hlt| ->]; [|lra].
    left. now apply ln_increasing. }
  assert (0 < / ln 10) by now apply Rinv_0_lt_compat.
  unfold Rdiv. nra.
Qed.

(** The RMS of a non-empty signal lies between 0 and its peak. *)
Lemma rms_below_peak (x : R) (xs : list R) :
  0 <= sqrt (np_mean ((fun v => v ^ 2) <$> x :: xs))
       <= foldl Rmax (Rabs x) (Rabs <$> xs).
Proof.
  set (y := x :: xs). set (peak := foldl Rmax (Rabs x) (Rabs <$> xs)).
  split; [apply sqrt_pos|].
  assert (0 <= peak) as Hpeak.
  { pose proof (Rabs_pos x). destruct (foldl_Rmax_ge (Rabs x) (Rabs <$> xs)).
    unfold peak. lra. }
  assert (Forall (fun v => Rabs v <= peak) y) as Hall.
  { destruct (foldl_Rmax_ge (Rabs x) (Rabs <$> xs)) as [H1 H2].
    constructor; [exact H1|]. now apply Forall_fmap in H2. }
  rewrite <- (sqrt_pow2 peak Hpeak). apply sqrt_le_1_alt.
  unfold np_mean. rewrite length_fmap.
  assert (Rsum ((fun v => v ^ 2) <$> y) <= INR (length y) * peak ^ 2) as Hsum.
  { rewrite <- (length_fmap (fun v => v ^ 2) y). apply Rsum_le.
    apply Forall_fmap. eapply Forall_impl; [exact Hall|].
    cbn. intros v Hv. pose proof (Rabs_pos v).
    replace (v * (v * 1)) with (Rabs v * Rabs v);
      [nra|unfold Rabs; destruct (Rcase_abs v); lra]. }
  assert (0 < INR (length y)) as Hn by (unfold y; cbn [length]; apply lt_0_INR; lia).
  apply Rmult_le_reg_l with (INR (length y)); [exact Hn|].
  unfold Rdiv. rewrite (Rmult_comm (Rsum _)), <- Rmult_assoc, Rinv_r by lra.
  lra.
Qed.

Lemma loudness_returns
    (butter : nat -> R -> string -> py (list R * list R))
    (filtfilt : list R -> list R -> list R -> py (list R))
    (iirfilter : nat -> R -> string -> string -> py (list R * list R))
    (x : R) (xs : list R) (sr : Z) :
  exists m, _calculate_loudness butter filtfilt iirfilter (x :: xs) sr = Ret m.
Proof. eexists. reflexivity. Qed.

Section LoudnessTheorems.

Variable butter : nat -> R -> string -> py (list R * list R).
Variable filtfilt : list R -> list R -> list R -> py (list R).
Variable iirfilter : nat -> R -> string -> string -> py (list R * list R).

(** X14: loudness of a signal.  An empty signal is rejected with
    [ValueError]; for every non-empty signal the loudness metrics are
    returned whatever the filter library does, the crest factor
    [dynamic_range = peak_db - rms_db] is never negative, both levels are
    at least -200 dB (the floor the added 1e-10 gives), and
    [lufs_approx] is the RMS level plus 3. *)
Theorem loudness_of_signal (y : list R) (sr : Z) :
  match y with
  | [] => _calculate_loudness butter filtfilt iirfilter y sr = Raise ValueError
  | _ :: _ =>
      exists m,
        _calculate_loudness butter filtfilt iirfilter y sr = Ret m
        /\ dynamic_range m = peak_db m - rms_db m
        /\ 0 <= dynamic_range m
        /\ -200 <= rms_db m <= peak_db m
        /\ lufs_approx m = rms_db m + 3.0
  end.
Proof.
  destruct y as [|x xs]; [reflexivity|].
  unfold _calculate_loudness. cbn [fmap list_fmap np_max mbind py_bind].
  eexists. split; [reflexivity|]. cbn [dynamic_range peak_db rms_db lufs_approx].
  destruct (rms_below_peak x xs) as [H0 H1].
  cbn [fmap list_fmap] in H0, H1.
  set (rms := sqrt _) in *. set (peak := foldl Rmax _ _) in *.
  assert (log10 (0 + 1e-10) <= log10 (rms + 1e-10)) as Hfloor
      by (apply log10_mono; lra).
  assert (log10 (rms + 1e-10) <= log10 (peak + 1e-10)) as Hle
      by (apply log10_mono; lra).
  rewrite log10_of_floor in Hfloor.
  repeat split; lra.
Qed.

(** X15: the integrated loudness falls back to the approximation.  When
    the K-weighting fails (the high-pass design, the filtering or the shelf
    design raises, or the sample rate is zero), the [lufs_integrated] of a
    non-empty signal equals its [lufs_approx], the RMS level plus 3. *)
Theorem lufs_falls_back_to_approximation (y : list R) (sr : Z) :
  y <> [] ->
  (forall hp y_filtered,
      butter 2 (38.0 / (IZR sr / 2)) "high" = Ret hp ->
      filtfilt hp.1 hp.2 y = Ret y_filtered ->
      exists e, iirfilter 2 (1500.0 / (IZR sr / 2)) "high" "butter" = Raise e) ->
  exists m,
    _calculate_loudness butter filtfilt iirfilter y sr = Ret m
    /\ lufs_integrated m = Some (lufs_approx m).
Proof.
  intros Hy Hfail. destruct y as [|x xs]; [contradiction|].
  unfold _calculate_loudness. cbn [np_max fmap list_fmap mbind py_bind].
  eexists. split; [reflexivity|]. cbn [lufs_integrated lufs_approx].
  unfold _calculate_lufs, py_div.
  case_decide as Hsr; [reflexivity|]. cbn [mbind py_bind].
  destruct (butter 2 _ "high") as [hp|] eqn:Hb; [|reflexivity].
  cbn [mbind py_bind].
  destruct (filtfilt hp.1 hp.2 (x :: xs)) as [yf|] eqn:Hf; [|reflexivity].
  cbn [mbind py_bind].
  destruct (Hfail hp yf eq_refl Hf) as [e ->]. reflexivity.
Qed.

End LoudnessTheorems.

Lemma lufs_falls_back_to_approximation_witness :
  exists m,
    _calculate_loudness Examples.butter_unit Examples.filtfilt_identity
      Examples.iirfilter_rejects [0.5; -0.25] AudioAnalyzer.sample_rate
      = Ret m
    /\ lufs_integrated m = Some (lufs_approx m).
Proof.
  apply lufs_falls_back_to_approximation; [discriminate|].
  intros hp yf _ _. exists ValueError. reflexivity.
Defined.
(** ** Spectral balance *)

Lemma total_energy_scaled {A} (k : R) (energy : A -> option R) (l : list A) (a : R) :
  foldl nan_add (Some (k * a)) ((fun b => Rmult k <$> energy b) <$> l)
  = Rmult k <$> foldl nan_add (Some a) (energy <$> l).
Proof.
  revert a. induction l as [|b l IH]; intros a; cbn; [reflexivity|].
  destruct (energy b) as [v|]; cbn.
  - replace (k * a + k * v) with (k * (a + v)) by lra. apply IH.
  - clear. induction l as [|b l IH]; [reflexivity|exact IH].
Qed.

(** X16: the spectral balance does not depend on the playback level.
    Multiplying the energy of every band by the same positive gain leaves
    the three boost/cut/neutral suggestions (and the division by a zero
    total) unchanged. *)
Theorem spectral_balance_ignores_level (band_energy : band -> option R) (k : R) :
  0 < k ->
  _calculate_spectral_balance (fun b => Rmult k <$> band_energy b)
  = _calculate_spectral_balance band_energy.
Proof.
  intros Hk. unfold _calculate_spectral_balance.
  cbv zeta.
  assert (foldl nan_add (Some 0)
            ((fun b => Rmult k <$> band_energy b) <$> band_order)
          = Rmult k <$> foldl nan_add (Some 0) (band_energy <$> band_order)) as ->.
  { rewrite <- total_energy_scaled. do 2 f_equal. lra. }
  destruct (foldl nan_add (Some 0) (band_energy <$> band_order)) as [total|];
    cbn [fmap option_fmap option_map]; [|reflexivity].
  destruct (decide (total = 0)) as [->|Hne].
  - rewrite !decide_True by lra. reflexivity.
  - rewrite decide_False by nra.
    assert (forall b, nan_div (Rmult k <$> band_energy b) (Some (k * total))
                      = nan_div (band_energy b) (Some total)) as Hratio.
    { intros b. destruct (band_energy b) as [v|]; cbn; [|reflexivity].
      f_equal. field. lra. }
    now rewrite !Hratio.
Qed.

Lemma spectral_balance_ignores_level_witness :
  _calculate_spectral_balance
    (fun b => Rmult 2 <$> (fun b => if b is Bass then Some 3 else Some 1) b)
  = _calculate_spectral_balance (fun b => if b is Bass then Some 3 else Some 1).
Proof. apply spectral_balance_ignores_level. lra. Defined.

(** ** The frequency spectrum *)

Lemma argmax_from_bound (best_idx : nat) (best : R) (i : nat) (xs : list (option R)) :
  (best_idx < i)%nat -> (argmax_from best_idx best i xs < i + length xs)%nat.
Proof.
  revert best_idx best i. induction xs as [|[x|] xs IH]; intros bi best i Hbi;
    cbn [argmax_from length]; [lia| |lia].
  case_decide.
  - specialize (IH i x (S i)). lia.
  - specialize (IH bi best (S i)). lia.
Qed.

Lemma np_argmax_bound (xs : list (option R)) (idx : nat) :
  np_argmax xs = Ret idx -> (idx < length xs)%nat.
Proof.
  destruct xs as [|[x|] xs]; cbn [np_argmax length]; [discriminate| |].
  - intros [= <-]. pose proof (argmax_from_bound 0 x 1 xs). lia.
  - intros [= <-]. lia.
Qed.

Lemma positive_frequencies_lookup (n : nat) (sr : Z) (k : nat) (f : Q) :
  positive_frequencies n sr !! k = Some f ->
  (k < n / 2)%nat
  /\ f = (inject_Z (Z.of_nat k) * inject_Z sr / inject_Z (Z.of_nat n))%Q.
Proof.
  unfold positive_frequencies. rewrite list_lookup_fmap.
  destruct (seq 0 (n / 2) !! k) as [j|] eqn:Hj; [|discriminate].
  apply lookup_seq in Hj as [-> Hlt]. cbn [fmap option_fmap option_map Nat.add].
  intros [= <-]. split; [exact Hlt|reflexivity].
Qed.

Lemma argmax_of_zeros (best_idx i n : nat) :
  argmax_from best_idx 0 i (Some <$> replicate n 0) = best_idx.
Proof.
  revert i. induction n as [|n IH]; intros i; [reflexivity|].
  cbn. rewrite decide_False by lra. apply IH.
Qed.

Lemma select_zeros (mask : Q -> bool) (freqs : list Q) :
  existsb mask freqs = true ->
  nan_mean (select mask freqs (replicate (length freqs) 0)) = Some 0.
Proof.
  intros Hex.
  assert (Forall (fun v => v = 0) (select mask freqs (replicate (length freqs) 0)))
    as Hz.
  { clear. induction freqs as [|f freqs IH]; cbn; [constructor|].
    destruct (mask f); [constructor; [reflexivity|exact IH]|exact IH]. }
  assert (select mask freqs (replicate (length freqs) 0) <> []) as Hne.
  { induction freqs as [|f freqs IH]; cbn in *; [discriminate|].
    destruct (mask f); [discriminate|]. apply IH. exact Hex.
    now apply Forall_inv_tail in Hz || exact Hz. }
  unfold nan_mean.
  destruct (select mask freqs (replicate (length freqs) 0)); [contradiction|].
  f_equal. now apply np_mean_zeros.
Qed.
(** At 44.1 kHz a window of at least 1103 samples has a bin spacing of at
    most 40 Hz, the width of the narrowest band: every band holds a bin. *)
Lemma bands_populated (n : nat) (b : band) :
  (1103 <= n)%nat ->
  existsb (in_band b) (positive_frequencies n 44100) = true.
Proof.
  intros Hn. apply existsb_exists.
  set (N := Z.of_nat n).
  set (lo := (band_range b).1). set (hi := (band_range b).2).
  assert (20 <= lo /\ lo + 40 <= hi /\ hi <= 20000)%Z as Hband
      by (destruct b; cbn; lia).
  set (K := ((lo * N + 44099) / 44100)%Z).
  assert (lo * N <= K * 44100 /\ K * 44100 <= hi * N /\ 0 <= K /\ 2 * K + 2 <= N)%Z
    as (H1 & H2 & H3 & H4).
  { pose proof (Z.div_mod (lo * N + 44099) 44100 ltac:(lia)) as Hdm.
    pose proof (Z.mod_pos_bound (lo * N + 44099) 44100 ltac:(lia)) as Hmod.
    fold K in Hdm. unfold N in *. nia. }
  assert (Z.to_nat K < n / 2)%nat as Hk.
  { apply Nat.div_le_lower_bound; [lia|]. unfold N in *. lia. }
  exists (inject_Z (Z.of_nat (Z.to_nat K)) * inject_Z 44100 / inject_Z N)%Q.
  split.
  - unfold positive_frequencies. apply in_map_iff.
    exists (Z.to_nat K). split; [reflexivity|]. apply in_seq. lia.
  - rewrite Z2Nat.id by lia. unfold in_band. fold lo hi.
    assert (0 < inject_Z N)%Q as HN.
    { replace 0%Q with (inject_Z 0) by reflexivity. rewrite <- Zlt_Qlt.
      unfold N. lia. }
    apply andb_true_intro. split; apply Qle_bool_iff.
    + apply Qle_shift_div_l; [exact HN|].
      rewrite <- !inject_Z_mult, <- Zle_Qle. lia.
    + apply Qle_shift_div_r; [exact HN|].
      rewrite <- !inject_Z_mult, <- Zle_Qle. lia.
Qed.

Lemma length_positive_frequencies (n : nat) (sr : Z) :
  length (positive_frequencies n sr) = (n / 2)%nat.
Proof. unfold positive_frequencies. now rewrite length_fmap, length_seq. Qed.

Section SpectrumTheorems.

Variable fft_magnitude : list R -> py (list R).

(** A silent window whose bands all hold a bin: every band energy is 0,
    and the balance divides by their sum. *)
Lemma silent_window_raises (y : list R) (sr : Z) (n : nat) :
  sr <> 0%Z ->
  fft_magnitude (py_take (Z.min (Z.of_nat (length y)) (sr * 10)) y)
    = Ret (replicate n 0) ->
  (forall b, existsb (in_band b) (positive_frequencies n sr) = true) ->
  _analyze_frequency_spectrum fft_magnitude y sr = Raise ZeroDivisionError.
Proof.
  intros Hsr Hfft Hbands. unfold _analyze_frequency_spectrum.
  rewrite Hfft. cbn [mbind py_bind]. rewrite length_replicate.
  assert (1 <= n / 2)%nat as Hhalf.
  { specialize (Hbands Bass). rewrite <- (length_positive_frequencies n sr).
    destruct (positive_frequencies n sr); [discriminate|cbn; lia]. }
  assert (2 <= n)%nat as Hn.
  { destruct n as [|[|n]]; [cbn in Hhalf; lia..|lia]. }
  assert (IZR sr <> 0) as Hsr' by (now apply not_0_IZR).
  unfold py_div. rewrite (decide_False (P := IZR sr = 0)) by exact Hsr'.
  cbn [mbind py_bind]. rewrite decide_False.
  2:{ assert (0 < INR n) by (apply lt_0_INR; lia).
      assert (1 / IZR sr <> 0).
      { unfold Rdiv. rewrite Rmult_1_l. now apply Rinv_neq_0_compat. }
      apply Rmult_integral_contrapositive_currified; lra. }
  cbn [mbind py_bind]. rewrite take_replicate, Nat.min_l by (apply Nat.Div0.div_le_upper_bound; lia).
  destruct (n / 2)%nat as [|h] eqn:Hh; [lia|].
  cbn [replicate fmap list_fmap np_argmax]. rewrite argmax_of_zeros.
  cbn [mbind py_bind]. unfold py_index.
  destruct (positive_frequencies n sr !! 0%nat) as [f0|] eqn:Hf0.
  2:{ apply lookup_ge_None in Hf0. rewrite length_positive_frequencies in Hf0. lia. }
  cbn [mbind py_bind].
  assert (forall b, nan_mean (select (in_band b) (positive_frequencies n sr)
                                (0 :: replicate h 0)) = Some 0) as Hen.
  { intros b. change (0 :: replicate h 0) with (replicate (S h) 0).
    rewrite <- Hh, <- (length_positive_frequencies n sr).
    apply select_zeros, Hbands. }
  unfold _calculate_spectral_balance. cbn [band_order fmap list_fmap foldl].
  rewrite !Hen. cbn [nan_add].
  replace (0 + 0 + 0 + 0 + 0 + 0 + 0 + 0) with 0 by lra.
  now rewrite decide_True by reflexivity.
Qed.

(** X17: digital silence breaks the frequency analysis.  At 44.1 kHz, when
    the analysed window (the first ten seconds) is all zeros and holds at
    least 1103 samples, every band has an energy of exactly 0 and
    [_analyze_frequency_spectrum] raises [ZeroDivisionError] from the
    spectral balance. *)
Theorem silent_spectrum_raises (y : list R) (n : nat) :
  (1103 <= n)%nat ->
  fft_magnitude (py_take (Z.min (Z.of_nat (length y)) (sample_rate * 10)) y)
    = Ret (replicate n 0) ->
  _analyze_frequency_spectrum fft_magnitude y sample_rate
  = Raise ZeroDivisionError.
Proof.
  intros Hn Hfft. apply (silent_window_raises y sample_rate n);
    [discriminate|exact Hfft|].
  intros b. now apply bands_populated.
Qed.

(** X18: the dominant frequency lies below Nyquist.  Whenever the
    frequency analysis returns for a positive sample rate, its
    [dominant_frequency] is one of the analysed bins: it is at least 0 and
    strictly below half the sample rate. *)
Theorem dominant_frequency_below_nyquist (y : list R) (sr : Z)
    (r : frequency_analysis) :
  (0 < sr)%Z ->
  _analyze_frequency_spectrum fft_magnitude y sr = Ret r ->
  (0 <= dominant_frequency r /\ dominant_frequency r < inject_Z sr / 2)%Q.
Proof.
  intros Hsr. unfold _analyze_frequency_spectrum.
  destruct (fft_magnitude _) as [magnitude|]; cbn [mbind py_bind]; [|discriminate].
  destruct (py_div 1 _); cbn [mbind py_bind]; [|discriminate].
  destruct (py_div 1.0 _); cbn [mbind py_bind]; [|discriminate].
  destruct (np_argmax _) as [idx|] eqn:Hidx; cbn [mbind py_bind]; [|discriminate].
  unfold py_index.
  destruct (positive_frequencies _ sr !! idx) as [f|] eqn:Hf;
    cbn [mbind py_bind]; [|discriminate].
  destruct (_calculate_spectral_balance _); cbn [mbind py_bind]; [|discriminate].
  intros [= <-]. cbn [dominant_frequency].
  apply positive_frequencies_lookup in Hf as [Hlt ->].
  set (n := length magnitude) in *.
  assert (2 * idx + 2 <= n)%nat as Hn.
  { pose proof (Nat.Div0.mul_div_le n 2). lia. }
  assert (0 < inject_Z (Z.of_nat n))%Q as HN.
  { replace 0%Q with (inject_Z 0) by reflexivity. rewrite <- Zlt_Qlt. lia. }
  split.
  - apply Qle_shift_div_l; [exact HN|]. rewrite Qmult_0_l.
    rewrite <- inject_Z_mult. replace 0%Q with (inject_Z 0) by reflexivity.
    rewrite <- Zle_Qle. nia.
  - apply Qlt_shift_div_r; [exact HN|].
    assert (inject_Z sr / 2 * inject_Z (Z.of_nat n)
            == inject_Z sr * inject_Z (Z.of_nat n) / 2)%Q as -> by field.
    apply Qlt_shift_div_l; [reflexivity|].
    replace 2%Q with (inject_Z 2) by reflexivity.
    rewrite <- !inject_Z_mult, <- Zlt_Qlt. nia.
Qed.

End SpectrumTheorems.

Lemma silent_spectrum_raises_witness :
  _analyze_frequency_spectrum Examples.fft_magnitude_stub Examples.silence
    sample_rate
  = Raise ZeroDivisionError.
Proof.
  apply (silent_spectrum_raises Examples.fft_magnitude_stub Examples.silence 2048).
  - lia.
  - unfold Examples.fft_magnitude_stub. f_equal.
    change (py_take _ Examples.silence) with (replicate 2048 0).
    rewrite fmap_replicate. now rewrite Rabs_R0.
Defined.
Lemma dominant_frequency_below_nyquist_witness :
  exists r,
    _analyze_frequency_spectrum Examples.fft_magnitude_stub [3; 1; 2; 1] sample_rate
      = Ret r
    /\ (0 <= dominant_frequency r
        /\ dominant_frequency r < inject_Z sample_rate / 2)%Q.
Proof.
  assert (exists r,
             _analyze_frequency_spectrum Examples.fft_magnitude_stub [3; 1; 2; 1]
               sample_rate = Ret r) as [r Hr].
  { unfold _analyze_frequency_spectrum, Examples.fft_magnitude_stub, py_div.
    change (py_take _ [3; 1; 2; 1]) with [3; 1; 2; 1].
    cbn [mbind py_bind fmap list_fmap length].
    rewrite (decide_False (P := IZR sample_rate = 0))
      by (unfold sample_rate; lra).
    cbn [mbind py_bind].
    rewrite decide_False by (unfold sample_rate; cbn [INR]; lra).
    cbn [mbind py_bind].
    change (take (4 / 2) [Rabs 3; Rabs 1; Rabs 2; Rabs 1]) with [Rabs 3; Rabs 1].
    cbn [fmap list_fmap np_argmax argmax_from].
    rewrite decide_False by (rewrite !Rabs_pos_eq by lra; lra).
    cbn [mbind py_bind]. eexists. reflexivity. }
  exists r. split; [exact Hr|].
  apply (dominant_frequency_below_nyquist Examples.fft_magnitude_stub
           [3; 1; 2; 1] sample_rate r); [reflexivity|exact Hr].
Defined.

(** ** Key estimation *)

(** X19: a chromagram always gets a key.  For a chromagram of one to
    twelve pitch classes (librosa's has twelve), [_estimate_key] returns
    without raising and its result is one of the twelve key names, even
    when the chromagram has no frames (every mean is NaN). *)
Theorem estimate_key_names_a_key (chroma : list (list R)) :
  (1 <= length chroma <= 12)%nat ->
  exists key, _estimate_key chroma = Ret key /\ key ∈ key_names.
Proof.
  intros Hlen. unfold _estimate_key.
  destruct (np_argmax (nan_mean <$> chroma)) as [idx|e] eqn:Hidx.
  - apply np_argmax_bound in Hidx. rewrite length_fmap in Hidx.
    cbn [mbind py_bind]. unfold py_index.
    destruct (key_names !! idx) as [key|] eqn:Hkey.
    + exists key. split; [reflexivity|]. eapply list_elem_of_lookup_2, Hkey.
    + apply lookup_ge_None in Hkey. cbn in Hkey. lia.
  - destruct chroma as [|row chroma]; [cbn in Hlen; lia|].
    cbn in Hidx. destruct (nan_mean row); discriminate.
Qed.

Lemma estimate_key_names_a_key_witness :
  exists key, _estimate_key [[]; [0.5; 1]; [0.2]] = Ret key /\ key ∈ key_names.
Proof. apply estimate_key_names_a_key. cbn. lia. Defined.

(** ** Analysing a silent recording *)

Section SilentTrack.

Variable load : string -> Z -> py ndarray.
Variable to_mono : list (list R) -> py (list R).
Variable get_duration : list R -> Z -> py R.
Variable beat_track : list R -> Z -> py R.
Variable beat_track_fast : list R -> Z -> py R.
Variable chroma_stft : list R -> Z -> py (list (list R)).
Variable stft : list R -> py (list (list complex)).
Variable mfcc : list R -> Z -> py (list (list R)).
Variable spectral_centroid : list R -> Z -> py (list (list R)).
Variable spectral_rolloff : list R -> Z -> py (list (list R)).
Variable zero_crossing_rate : list R -> py (list (list R)).
Variable butter : nat -> R -> string -> py (list R * list R).
Variable filtfilt : list R -> list R -> list R -> py (list R).
Variable iirfilter : nat -> R -> string -> string -> py (list R * list R).
Variable fft_magnitude : list R -> py (list R).
Context {Spectral Stereo : Type}.
Variable _extract_spectral_features : list R -> Z -> py Spectral.
Variable _analyze_stereo_imaging : ndarray -> Z -> Stereo.

(** The FFT of an all-zero signal is all zero. *)
Hypothesis fft_of_silence :
  forall k, fft_magnitude (replicate k 0) = Ret (replicate k 0).

(** X20: a silent recording cannot be analysed.  When the decoder yields a
    mono buffer of at least 1103 zero samples, [analyze_track] (with the
    loudness and frequency analyses of this file) raises instead of
    returning an analysis; and when the duration and the spectral features
    are obtained, what it raises is the [ZeroDivisionError] of the spectral
    balance. *)
Theorem silent_track_cannot_be_analyzed (file_path : string) (n : nat) :
  (1103 <= n)%nat ->
  load file_path sample_rate = Ret (Arr1 (replicate n 0)) ->
  exists e,
    analyze_track load to_mono get_duration beat_track beat_track_fast
      chroma_stft stft mfcc spectral_centroid spectral_rolloff
      zero_crossing_rate (_calculate_loudness butter filtfilt iirfilter)
      _extract_spectral_features (_analyze_frequency_spectrum fft_magnitude)
      _analyze_stereo_imaging file_path = Raise e
    /\ (forall duration features,
          get_duration (replicate n 0) sample_rate = Ret duration ->
          _extract_spectral_features (replicate n 0) sample_rate = Ret features ->
          e = ZeroDivisionError).
Proof.
  intros Hn Hload. unfold analyze_track. rewrite Hload. cbn [mbind py_bind].
  assert (_analyze_frequency_spectrum fft_magnitude (replicate n 0) sample_rate
          = Raise ZeroDivisionError) as Hspec.
  { set (window := Z.to_nat (Z.of_nat n `min` (sample_rate * 10))).
    assert (1103 <= window <= n)%nat as Hw by (unfold window, sample_rate; lia).
    apply (silent_window_raises fft_magnitude _ sample_rate window);
      [discriminate| |].
    - rewrite length_replicate. unfold py_take.
      rewrite decide_True by (unfold sample_rate; lia).
      fold window. rewrite take_replicate, Nat.min_l by lia.
      apply fft_of_silence.
    - intros b. apply bands_populated. lia. }
  destruct (get_duration (replicate n 0) sample_rate) as [duration|e] eqn:Hd;
    cbn [mbind py_bind]; [|exists e; split; [reflexivity|discriminate]].
  destruct n as [|n']; [lia|]. cbn [replicate].
  destruct (loudness_returns butter filtfilt iirfilter 0 (replicate n' 0)
              sample_rate) as [m ->].
  cbn [mbind py_bind].
  destruct (_extract_spectral_features _ sample_rate) as [features|e] eqn:Hf;
    cbn [mbind py_bind]; [|exists e; split; [reflexivity|discriminate]].
  change (0 :: replicate n' 0) with (replicate (S n') 0). rewrite Hspec.
  exists ZeroDivisionError. split; reflexivity.
Qed.

End SilentTrack.

Lemma silent_track_cannot_be_analyzed_witness :
  exists e,
    analyze_track Examples.load_silence Examples.to_mono_rejects
      Examples.duration_by_length Examples.tracker_rejects
      Examples.tracker_says_120 Examples.chroma_says_c Examples.stft_of_silence
      Examples.feature_rejects Examples.feature_rejects Examples.feature_rejects
      Examples.zcr_rejects
      (_calculate_loudness Examples.butter_rejects Examples.filtfilt_rejects
         Examples.iirfilter_rejects)
      (fun _ _ => Ret tt)
      (_analyze_frequency_spectrum Examples.fft_magnitude_stub)
      (fun _ _ => tt) "silence.wav" = Raise e
    /\ (forall duration features,
          Examples.duration_by_length (replicate 2048 0) sample_rate = Ret duration ->
          (fun _ _ => Ret tt) (replicate 2048 0) sample_rate = Ret features ->
          e = ZeroDivisionError).
Proof.
  apply (silent_track_cannot_be_analyzed Examples.load_silence
           Examples.to_mono_rejects Examples.duration_by_length
           Examples.tracker_rejects Examples.tracker_says_120
           Examples.chroma_says_c Examples.stft_of_silence
           Examples.feature_rejects Examples.feature_rejects
           Examples.feature_rejects Examples.zcr_rejects
           Examples.butter_rejects Examples.filtfilt_rejects
           Examples.iirfilter_rejects Examples.fft_magnitude_stub
           (fun _ _ => Ret tt) (fun _ _ => tt)).
  - intros k. unfold Examples.fft_magnitude_stub.
    now rewrite fmap_replicate, Rabs_R0.
  - lia.
  - reflexivity.
Defined.
(** * The buffer written by the mastering task *)

Lemma first_column_heads (rows : list (list R)) :
  Forall (fun row => row <> []) rows ->
  Tasks.first_column rows = Ret ((fun row => default 0 (head row)) <$> rows).
Proof.
  unfold Tasks.first_column. induction 1 as [|row rows Hrow _ IH]; [reflexivity|].
  cbn. rewrite IH. destruct row; [contradiction|reflexivity].
Qed.

(** X21: a buffer of three or more channels is not written as audio.  For
    a rectangular buffer of at least three channels whose length is neither
    0 nor 2, the buffer handed to the writer has one frame per channel
    (not per sample), holding the first sample of that channel twice: the
    branch meant for a single channel in 2-D takes column 0. *)
Theorem surround_buffer_keeps_first_samples (rows : list (list R)) (n : nat) :
  (3 <= length rows)%nat ->
  Forall (fun row => length row = n) rows ->
  n <> 0%nat -> n <> 2%nat ->
  Tasks.stereo_for_saving (Arr2 rows)
  = Ret ((fun row => [default 0 (head row); default 0 (head row)]) <$> rows).
Proof.
  intros Hrows Hrect Hn0 Hn2. unfold Tasks.stereo_for_saving.
  destruct rows as [|r1 [|r2 [|r3 rows]]]; cbn [length] in Hrows; try lia.
  assert (Tasks.columns (r1 :: r2 :: r3 :: rows) <> 2%nat) as Hcols.
  { apply Forall_inv in Hrect. cbn. lia. }
  rewrite decide_False by exact Hcols.
  rewrite first_column_heads.
  2:{ eapply Forall_impl; [exact Hrect|]. cbn. intros row Hrow ->. cbn in Hrow. lia. }
  cbn [mbind py_bind]. unfold Tasks.column_stack2.
  rewrite <- list_fmap_compose.
  rewrite decide_False by (cbn; lia). reflexivity.
Qed.

Lemma surround_buffer_keeps_first_samples_witness :
  Tasks.stereo_for_saving (Arr2 [[1; 2; 3]; [4; 5; 6]; [7; 8; 9]])
  = Ret ((fun row => [default 0 (head row); default 0 (head row)])
           <$> [[1; 2; 3]; [4; 5; 6]; [7; 8; 9]]).
Proof.
  apply (surround_buffer_keeps_first_samples _ 3);
    [cbn; lia|repeat constructor|lia|lia].
Defined.
(** * Polarity *)

Lemma try_return_fmap {A} (g : A -> A) (body : py A) (fallback : A) :
  try_return (g <$> body) (g fallback) = g (try_return body fallback).
Proof. now destruct body. Qed.

Lemma mapM_odd (f : list R -> py (list R)) (rows : list (list R)) :
  (forall row, f (Ropp <$> row) = (fun r : list R => Ropp <$> r) <$> f row) ->
  mapM f ((fun row : list R => Ropp <$> row) <$> rows)
  = (fun rs : list (list R) => (fun r : list R => Ropp <$> r) <$> rs)
      <$> mapM f rows.
Proof.
  intros Hf. induction rows as [|row rows IH]; [reflexivity|].
  cbn. rewrite Hf. destruct (f row) as [r|]; cbn; [|reflexivity].
  rewrite IH. now destruct (mapM f rows).
Qed.

Lemma channelwise_odd (f : list R -> py (list R)) (audio : ndarray) :
  (forall row, f (Ropp <$> row) = (fun r : list R => Ropp <$> r) <$> f row) ->
  match amap Ropp audio with
  | Arr2 rows => Arr2 <$> mapM f rows
  | Arr1 xs => Arr1 <$> f xs
  end
  = amap Ropp <$> match audio with
                  | Arr2 rows => Arr2 <$> mapM f rows
                  | Arr1 xs => Arr1 <$> f xs
                  end.
Proof.
  intros Hf. destruct audio as [xs|rows]; cbn.
  - rewrite Hf. now destruct (f xs).
  - rewrite mapM_odd by exact Hf. now destruct (mapM f rows).
Qed.

Lemma vzip_opp_l (h : R -> R -> R) (xs ys : list R) :
  (forall x y, h (- x) y = - h x y) ->
  vzip h (Ropp <$> xs) ys = Ropp <$> vzip h xs ys.
Proof.
  intros Hh. unfold vzip. revert ys.
  induction xs as [|x xs IH]; intros [|y ys]; cbn; try reflexivity.
  now rewrite Hh, IH.
Qed.

Lemma fmap_abs_opp (k : R -> R) (xs : list R) :
  (fun x => k (Rabs x)) <$> (Ropp <$> xs) = (fun x => k (Rabs x)) <$> xs.
Proof.
  rewrite <- list_fmap_compose. apply list_fmap_ext. intros _ x _. cbn.
  now rewrite Rabs_Ropp.
Qed.

Lemma limiting_channel_odd (self : t) (row : list R) (c : R) (release : pyval) :
  _apply_limiting_channel self (Ropp <$> row) c release
  = (fun r : list R => Ropp <$> r) <$> _apply_limiting_channel self row c release.
Proof.
  unfold _apply_limiting_channel.
  destruct (as_num release) as [rel|]; cbn [mbind py_bind fmap py_fmap];
    [|reflexivity].
  f_equal.
  assert (required_gain c <$> (Ropp <$> row) = required_gain c <$> row) as ->.
  { rewrite <- list_fmap_compose. apply list_fmap_ext. intros _ x _. cbn.
    unfold required_gain. now rewrite Rabs_Ropp. }
  apply vzip_opp_l. intros; lra.
Qed.

Lemma limiting_odd (self : t) (audio : ndarray) (s : pyval) :
  apply_limiting self (amap Ropp audio) s = amap Ropp (apply_limiting self audio s).
Proof.
  unfold apply_limiting, apply_limiting_body.
  destruct (py_get s "ceiling" _) as [ceiling|]; cbn [mbind py_bind try_return];
    [|reflexivity].
  destruct (py_get s "release" _) as [release|]; cbn [mbind py_bind try_return];
    [|reflexivity].
  destruct (as_num ceiling) as [c|]; cbn [mbind py_bind try_return];
    [|reflexivity].
  rewrite (channelwise_odd
             (fun row => _apply_limiting_channel self row (pow10 (c / 20)) release))
    by (intros; apply limiting_channel_odd).
  apply try_return_fmap.
Qed.

Lemma compression_channel_odd (self : t) (row : list R)
    (threshold ratio attack release makeup_gain : pyval) :
  _apply_compression_channel self (Ropp <$> row)
    threshold ratio attack release makeup_gain
  = (fun r : list R => Ropp <$> r)
      <$> _apply_compression_channel self row
            threshold ratio attack release makeup_gain.
Proof.
  unfold _apply_compression_channel.
  rewrite (fmap_abs_opp (fun a => 20 * log10 (a + 1e-10)) row).
  destruct (as_num threshold) as [th|]; cbn [mbind py_bind fmap py_fmap];
    [|reflexivity].
  destruct (as_num ratio) as [ra|]; cbn [mbind py_bind fmap py_fmap];
    [|reflexivity].
  destruct (py_div 1 ra) as [inv|]; cbn [mbind py_bind fmap py_fmap];
    [|reflexivity].
  destruct (_apply_envelope _ _ attack release) as [env|];
    cbn [mbind py_bind fmap py_fmap]; [|reflexivity].
  rewrite (vzip_opp_l (fun x db => np_sign x * pow10 (db / 20)))
    by (intros; rewrite np_sign_opp; lra).
  destruct makeup_gain as [|mg| | |]; try reflexivity.
  case_decide; cbn [fmap py_fmap]; [reflexivity|].
  f_equal. rewrite <- !list_fmap_compose. apply list_fmap_ext.
  intros _ y _. cbn. lra.
Qed.

Lemma channel_dynamic_range_odd (xs : list R) :
  channel_dynamic_range (Ropp <$> xs) = channel_dynamic_range xs.
Proof.
  unfold channel_dynamic_range.
  assert (Rabs <$> (Ropp <$> xs) = Rabs <$> xs) as ->.
  { rewrite <- list_fmap_compose. apply list_fmap_ext. intros _ x _. cbn.
    apply Rabs_Ropp. }
  assert ((fun x => x ^ 2) <$> (Ropp <$> xs) = (fun x => x ^ 2) <$> xs) as ->;
    [|reflexivity].
  rewrite <- list_fmap_compose. apply list_fmap_ext. intros _ x _. cbn. lra.
Qed.

Lemma dynamic_range_odd (audio : ndarray) :
  _calculate_dynamic_range (amap Ropp audio) = _calculate_dynamic_range audio.
Proof.
  unfold _calculate_dynamic_range. destruct audio as [xs|rows]; cbn [amap].
  - now rewrite channel_dynamic_range_odd.
  - assert (mapM channel_dynamic_range ((fun row : list R => Ropp <$> row) <$> rows)
            = mapM channel_dynamic_range rows) as ->; [|reflexivity].
    induction rows as [|row rows IH]; [reflexivity|].
    cbn. now rewrite channel_dynamic_range_odd, IH.
Qed.

Lemma compression_odd (self : t) (audio : ndarray) (s : pyval) :
  apply_compression self (amap Ropp audio) s
  = amap Ropp (apply_compression self audio s).
Proof.
  unfold apply_compression, apply_compression_body.
  repeat (match goal with
          | |- context [py_get s ?k ?d] =>
              destruct (py_get s k d); cbn [mbind py_bind try_return];
                [|reflexivity]
          end).
  rewrite dynamic_range_odd.
  match goal with
  | |- context [let '(_, _) := ?p in _] => destruct p as [threshold ratio]
  end.
  rewrite (channelwise_odd
             (fun row => _apply_compression_channel self row threshold ratio _ _ _))
    by (intros; apply compression_channel_odd).
  apply try_return_fmap.
Qed.

Lemma mid_side_odd (w : R) (left_ch right_ch : list R) :
  mid_side w (Ropp <$> left_ch) (Ropp <$> right_ch)
  = (Ropp <$> (mid_side w left_ch right_ch).1,
     Ropp <$> (mid_side w left_ch right_ch).2).
Proof.
  unfold mid_side, vzip. cbn [fst snd]. revert right_ch.
  induction left_ch as [|l ls IH]; intros [|r rs]; cbn; try reflexivity.
  specialize (IH rs). injection IH as IH1 IH2. rewrite IH1, IH2.
  f_equal; f_equal; lra.
Qed.

Lemma stereo_odd (audio : ndarray) (s : pyval) :
  apply_stereo_processing (amap Ropp audio) s
  = amap Ropp (apply_stereo_processing audio s).
Proof.
  unfold apply_stereo_processing, apply_stereo_processing_body.
  destruct (py_get s "width" (VNum 1.0)) as [width|e]; cbn -[mid_side];
    [|now destruct audio].
  destruct audio as [xs|[|l [|r others]]]; cbn -[mid_side]; try reflexivity;
    (destruct (differs_from_one width); cbn -[mid_side]; [|reflexivity]);
    (destruct (as_num width) as [w|]; cbn -[mid_side]; [|reflexivity]);
    rewrite mid_side_odd;
    match goal with |- context [mid_side w ?a ?b] => destruct (mid_side w a b) end;
    reflexivity.
Qed.

Lemma run_stage_odd (settings : gmap string pyval) (key : string)
    (stage : ndarray -> pyval -> ndarray) (audio : ndarray) :
  (forall a v, stage (amap Ropp a) v = amap Ropp (stage a v)) ->
  run_stage settings key stage (amap Ropp audio)
  = amap Ropp (run_stage settings key stage audio).
Proof.
  intros H. unfold run_stage. destruct (settings !! key) as [v|]; [|reflexivity].
  destruct (truthy v); [apply H|reflexivity].
Qed.

Section Polarity.

Variable butter : nat -> R -> string -> py (list R * list R).
Variable filtfilt : list R -> list R -> list R -> py (list R).
Variable self : t.

(** Filtering is linear: the inverted signal gives the inverted output. *)
Hypothesis filtfilt_odd :
  forall b a x,
    filtfilt b a (Ropp <$> x) = (fun y : list R => Ropp <$> y) <$> filtfilt b a x.

Lemma assign_row_odd (n : nat) (v : list R) :
  assign_row n (Ropp <$> v) = (fun r : list R => Ropp <$> r) <$> assign_row n v.
Proof.
  unfold assign_row. rewrite length_fmap. case_decide; [reflexivity|].
  destruct v as [|x [|]]; try reflexivity. cbn. f_equal.
  symmetry. apply fmap_replicate.
Qed.

Lemma eq_band_odd (audio : ndarray) (freq gain q eq_type : pyval) :
  _apply_eq_band butter filtfilt self (amap Ropp audio) freq gain q eq_type
  = amap Ropp <$> _apply_eq_band butter filtfilt self audio freq gain q eq_type.
Proof.
  unfold _apply_eq_band.
  destruct (eq_band_design _ _ _ _ _ _) as [[[b a]|]|];
    cbn [mbind py_bind fmap py_fmap]; [|reflexivity..].
  destruct audio as [xs|rows]; cbn [amap].
  - rewrite filtfilt_odd. now destruct (filtfilt b a xs).
  - rewrite (mapM_odd (fun row : list R =>
                         r ← filtfilt b a row; assign_row (length row) r)).
    + now destruct (mapM _ rows).
    + intros row. rewrite filtfilt_odd, length_fmap.
      destruct (filtfilt b a row) as [r|]; cbn [mbind py_bind fmap py_fmap];
        [apply assign_row_odd|reflexivity].
Qed.

Lemma eq_odd (audio : ndarray) (s : pyval) :
  apply_eq butter filtfilt self (amap Ropp audio) s
  = amap Ropp (apply_eq butter filtfilt self audio s).
Proof.
  unfold apply_eq, apply_eq_body.
  destruct (py_get s "bands" _) as [bands|]; cbn [mbind py_bind try_return];
    [|reflexivity].
  destruct (py_iter bands) as [items|]; cbn [mbind py_bind try_return];
    [|reflexivity].
  assert (forall acc,
             for_each (eq_band_step butter filtfilt self) (amap Ropp acc) items
             = amap Ropp <$> for_each (eq_band_step butter filtfilt self) acc items)
    as Hloop.
  { induction items as [|band items IH]; intros acc; [reflexivity|].
    cbn [for_each].
    assert (eq_band_step butter filtfilt self (amap Ropp acc) band
            = amap Ropp <$> eq_band_step butter filtfilt self acc band) as ->.
    { unfold eq_band_step.
      repeat (match goal with
              | |- context [py_get band ?k ?d] =>
                  destruct (py_get band k d); cbn [mbind py_bind fmap py_fmap];
                    [|reflexivity]
              end).
      destruct (as_num _); cbn [mbind py_bind fmap py_fmap]; [|reflexivity].
      case_decide; [apply eq_band_odd|reflexivity]. }
    destruct (eq_band_step butter filtfilt self acc band) as [acc'|];
      cbn [mbind py_bind fmap py_fmap]; [apply IH|reflexivity]. }
  rewrite Hloop. apply try_return_fmap.
Qed.

(** X22: mastering commutes with polarity inversion.  With a linear filter
    routine, mastering the inverted buffer gives the inverted master, for
    all settings: every stage (EQ, compression with or without
    dynamic-range targeting, saturation, stereo width, limiting) acts on
    magnitudes and keeps signs, whether it succeeds or falls back. *)
Theorem mastering_commutes_with_polarity (audio : ndarray)
    (settings : gmap string pyval) :
  apply_mastering_chain butter filtfilt self (amap Ropp audio) settings
  = amap Ropp (apply_mastering_chain butter filtfilt self audio settings).
Proof.
  unfold apply_mastering_chain.
  rewrite (run_stage_odd settings "eq_settings") by apply eq_odd.
  rewrite (run_stage_odd settings "compression_settings")
    by (intros; apply compression_odd).
  rewrite (run_stage_odd settings "saturation_settings")
    by apply apply_saturation_odd.
  rewrite (run_stage_odd settings "stereo_settings") by apply stereo_odd.
  now rewrite (run_stage_odd settings "limiting_settings")
    by (intros; apply limiting_odd).
Qed.

End Polarity.

Lemma mastering_commutes_with_polarity_witness :
  apply_mastering_chain Examples.butter_unit Examples.filtfilt_identity
    Examples.engine (amap Ropp (Arr2 [[1; 0.5]; [0; 0.25]]))
    Examples.five_sections
  = amap Ropp (apply_mastering_chain Examples.butter_unit
                 Examples.filtfilt_identity Examples.engine
                 (Arr2 [[1; 0.5]; [0; 0.25]]) Examples.five_sections).
Proof.
  apply mastering_commutes_with_polarity. intros b a x. reflexivity.
Defined.
